(** * A contact manager: fields, records and the address book

    Shallow embedding of [base.py]: the validated fields [Name], [Phone] and
    [Birthday], the class [Record] with its phone list and birthday
    countdown, and the [AddressBook] with its chunked iterator; and of
    [bot.py]: the commands on the address book, the reading of a typed
    line and the loop of [main].

    Python values are modelled as they are at run time: a [str] is a
    sequence of Unicode code points, an [int] is a [Z], [None] is the
    [None] of an [option], a raised exception is the [Raise] of a
    [result], and a method that mutates [self] is a function from the
    object before the call to the object after it and the outcome. *)

From Stdlib Require Import ZArith NArith Lia String Ascii List.
From stdpp Require Import base list.
Import ListNotations.

Local Open Scope Z_scope.

(** ** Strings *)

(** A Python [str]: a sequence of code points; [len] is [length]. *)
Definition codepoint := N.
Definition pystr := list codepoint.

(** An ASCII literal as a [str]. *)
Definition lit (s : string) : pystr :=
  map N_of_ascii (list_ascii_of_string s).

(** [sep.join(parts)] *)
Fixpoint join (sep : pystr) (parts : list pystr) : pystr :=
  match parts with
  | [] => []
  | [p] => p
  | p :: ps => p ++ sep ++ join sep ps
  end.

(** The blocks of the Unicode category Nd (decimal digits), which is what
    [\d] matches in a [str] pattern compiled without [re.ASCII], and what
    [int()] converts. Every block holds the digits zero to nine in order,
    the last one five times over. *)
Definition Nd_blocks : list (N * N) :=
  [ (0x30, 0x39); (0x660, 0x669); (0x6F0, 0x6F9); (0x7C0, 0x7C9);
    (0x966, 0x96F); (0x9E6, 0x9EF); (0xA66, 0xA6F); (0xAE6, 0xAEF);
    (0xB66, 0xB6F); (0xBE6, 0xBEF); (0xC66, 0xC6F); (0xCE6, 0xCEF);
    (0xD66, 0xD6F); (0xDE6, 0xDEF); (0xE50, 0xE59); (0xED0, 0xED9);
    (0xF20, 0xF29); (0x1040, 0x1049); (0x1090, 0x1099); (0x17E0, 0x17E9);
    (0x1810, 0x1819); (0x1946, 0x194F); (0x19D0, 0x19D9); (0x1A80, 0x1A89);
    (0x1A90, 0x1A99); (0x1B50, 0x1B59); (0x1BB0, 0x1BB9); (0x1C40, 0x1C49);
    (0x1C50, 0x1C59); (0xA620, 0xA629); (0xA8D0, 0xA8D9); (0xA900, 0xA909);
    (0xA9D0, 0xA9D9); (0xA9F0, 0xA9F9); (0xAA50, 0xAA59); (0xABF0, 0xABF9);
    (0xFF10, 0xFF19); (0x104A0, 0x104A9); (0x10D30, 0x10D39);
    (0x11066, 0x1106F); (0x110F0, 0x110F9); (0x11136, 0x1113F);
    (0x111D0, 0x111D9); (0x112F0, 0x112F9); (0x11450, 0x11459);
    (0x114D0, 0x114D9); (0x11650, 0x11659); (0x116C0, 0x116C9);
    (0x11730, 0x11739); (0x118E0, 0x118E9); (0x11950, 0x11959);
    (0x11C50, 0x11C59); (0x11D50, 0x11D59); (0x11DA0, 0x11DA9);
    (0x16A60, 0x16A69); (0x16AC0, 0x16AC9); (0x16B50, 0x16B59);
    (0x1D7CE, 0x1D7FF); (0x1E140, 0x1E149); (0x1E2F0, 0x1E2F9);
    (0x1E950, 0x1E959); (0x1FBF0, 0x1FBF9) ]%N.

Definition in_block (c : codepoint) (b : N * N) : bool :=
  ((fst b <=? c) && (c <=? snd b))%N.

(** [c] is matched by [\d]. *)
Definition is_decimal (c : codepoint) : bool :=
  existsb (in_block c) Nd_blocks.

(** The ASCII digits [0-9]. *)
Definition is_ascii_digit (c : codepoint) : bool :=
  in_block c (0x30, 0x39)%N.

(** The digit value of a decimal digit, as [int()] reads it. *)
Definition decimal_value (c : codepoint) : Z :=
  match find (in_block c) Nd_blocks with
  | Some b => Z.of_N ((c - fst b) mod 10)
  | None => 0
  end.

(** ** Exceptions and outcomes *)

Inductive exn : Set :=
| ValueError
| TypeError
| IndexError
| RecordAlreadyExistsException.

(** The outcome of a call: a returned value or a raised exception (the
    messages of the exceptions are not modelled). *)
Inductive result (A : Type) : Type :=
| Return (a : A)
| Raise (e : exn).
Arguments Return {A} a.
Arguments Raise {A} e.

Definition result_bind {A B} (c : result A) (k : A -> result B) : result B :=
  match c with
  | Return a => k a
  | Raise e => Raise e
  end.

(** A method that may mutate its object of type [S]: the object after the
    call comes with the outcome, also when the call raises. *)
Definition method (S A : Type) : Type := S -> S * result A.

Definition ret {S A} (a : A) : method S A := fun s => (s, Return a).
Definition raise {S A} (e : exn) : method S A := fun s => (s, Raise e).
Definition bind {S A B} (c : method S A) (k : A -> method S B) : method S B :=
  fun s =>
    match c s with
    | (s', Return a) => k a s'
    | (s', Raise e) => (s', Raise e)
    end.
Definition get {S} : method S S := fun s => (s, Return s).
Definition put {S} (s' : S) : method S unit := fun _ => (s', Return tt).
(** An expression that may raise, evaluated inside a method. *)
Definition eval {S A} (c : result A) : method S A := fun s => (s, c).

Declare Scope py_scope.
Delimit Scope py_scope with py.
Notation "'let!' x ':=' c 'in' k" := (bind c (fun x => k))
  (at level 10, x name, c at level 100, k at level 200) : py_scope.
Notation "'let?' x ':=' c 'in' k" := (result_bind c (fun x => k))
  (at level 10, x name, c at level 100, k at level 200) : py_scope.

(** The protocol of [str()]. *)
Class Str (A : Type) := str : A -> pystr.

#[export] Instance str_pystr : Str pystr := fun s => s.

#[export] Instance str_option {A} `{Str A} : Str (option A) := fun o =>
  match o with
  | Some a => str a
  | None => lit "None"
  end.

(** The code point of an ASCII character. *)
Definition chr (a : ascii) : codepoint := N_of_ascii a.

(** [int(s)] on the texts the program converts: blanks around the digits
    are stripped, every remaining character has to be a decimal digit and
    there has to be one. (Signs and underscores, which [int] accepts too,
    never reach it here and are not modelled.) *)
Fixpoint lstrip (s : pystr) : pystr :=
  match s with
  | c :: s' => if (c =? chr " ")%N then lstrip s' else s
  | [] => []
  end.

Definition strip (s : pystr) : pystr := rev (lstrip (rev (lstrip s))).

Definition digits_value (s : pystr) : Z :=
  fold_left (fun acc c => 10 * acc + decimal_value c) s 0.

Definition int (s : pystr) : result Z :=
  let t := strip s in
  if forallb is_decimal t && negb (length t =? 0)%nat
  then Return (digits_value t)
  else Raise ValueError.

(** ["%0wd" % n] for [n >= 0]. *)
Fixpoint decimal_digits (fuel : nat) (n : Z) : pystr :=
  match fuel with
  | O => []
  | S fuel' =>
      let d := (chr "0" + Z.to_N (n mod 10))%N in
      if n <? 10 then [d] else decimal_digits fuel' (n / 10) ++ [d]
  end.

Definition format_0d (w : nat) (n : Z) : pystr :=
  let ds := decimal_digits (S (Z.to_nat (Z.log2 n))) n in
  replicate (w - length ds) (chr "0") ++ ds.

(** ** The part of [re] the program uses *)

Module re.

(** What matches one character. *)
Inductive charset : Set :=
| Char (c : codepoint)        (* the character itself *)
| Range (lo hi : codepoint)   (* [lo-hi] *)
| Digit.                      (* \d *)

Definition in_charset (k : charset) (c : codepoint) : bool :=
  match k with
  | Char c' => (c =? c')%N
  | Range lo hi => ((lo <=? c) && (c <=? hi))%N
  | Digit => is_decimal c
  end.

Inductive pattern : Set :=
| One (k : charset)
| Plus (k : charset)          (* k+, greedy *)
| Seq (p q : pattern)
| Alt (p q : pattern).        (* p|q *)

(** [k+] at the start of [s]: the longest run first, then the shorter ones. *)
Fixpoint plus_matches (k : charset) (s : pystr) : list (pystr * pystr) :=
  match s with
  | c :: s' =>
      if in_charset k c
      then map (fun mr => (c :: fst mr, snd mr)) (plus_matches k s') ++ [([c], s')]
      else []
  | [] => []
  end.

(** Every way [p] matches at the start of [s], as (matched text, rest), in
    the order in which the backtracking matcher finds them. *)
Fixpoint matches (p : pattern) (s : pystr) : list (pystr * pystr) :=
  match p with
  | One k =>
      match s with
      | c :: s' => if in_charset k c then [([c], s')] else []
      | [] => []
      end
  | Plus k => plus_matches k s
  | Seq p q =>
      flat_map (fun mr1 =>
                  map (fun mr2 => (fst mr1 ++ fst mr2, snd mr2))
                      (matches q (snd mr1)))
               (matches p s)
  | Alt p q => matches p s ++ matches q s
  end.

(** [re.search(p, s)]: the first match at the leftmost position that has
    one; the result is [match.group()], [None] when nothing matches. *)
Fixpoint search (p : pattern) (s : pystr) : option pystr :=
  match head (matches p s) with
  | Some mr => Some (fst mr)
  | None =>
      match s with
      | _ :: s' => search p s'
      | [] => None
      end
  end.

(** The pattern of a literal ASCII character, of a class [[a-b]], of [\d]. *)
Definition char (a : ascii) : pattern := One (Char (chr a)).
Definition range (a b : ascii) : pattern := One (Range (chr a) (chr b)).
Definition digit : pattern := One Digit.

End re.

(** ** The part of [datetime] the program uses *)

Module Datetime.

Definition MINYEAR : Z := 1.
Definition MAXYEAR : Z := 9999.

Definition _DAYS_IN_MONTH : list Z :=
  [-1; 31; 28; 31; 30; 31; 30; 31; 31; 30; 31; 30; 31].

Definition _DAYS_BEFORE_MONTH : list Z :=
  [-1; 0; 31; 59; 90; 120; 151; 181; 212; 243; 273; 304; 334].

Definition _is_leap (year : Z) : bool :=
  (year mod 4 =? 0) && (negb (year mod 100 =? 0) || (year mod 400 =? 0)).

Definition _days_before_year (year : Z) : Z :=
  let y := year - 1 in
  y * 365 + y / 4 - y / 100 + y / 400.

Definition _days_in_month (year month : Z) : Z :=
  if (month =? 2) && _is_leap year then 29
  else nth (Z.to_nat month) _DAYS_IN_MONTH 0.

Definition _days_before_month (year month : Z) : Z :=
  nth (Z.to_nat month) _DAYS_BEFORE_MONTH 0
  + (if (2 <? month) && _is_leap year then 1 else 0).

Definition _ymd2ord (year month day : Z) : Z :=
  _days_before_year year + _days_before_month year month + day.

(** [_check_date_fields]: what makes [date(year, month, day)] raise. *)
Definition _check_date_fields (year month day : Z) : bool :=
  (MINYEAR <=? year) && (year <=? MAXYEAR)
  && (1 <=? month) && (month <=? 12)
  && (1 <=? day) && (day <=? _days_in_month year month).

Record date : Set := mk_date { year : Z; month : Z; day : Z }.

(** A naive [datetime]: a date and a time of day. *)
Record datetime : Set := mk_datetime {
  date_ : date;          (* [.date()]; [.year], [.month], [.day] are its *)
  hour : Z;
  minute : Z;
  second : Z;
  microsecond : Z
}.

(** [date(year, month, day)] *)
Definition date_new (y m d : Z) : result date :=
  if _check_date_fields y m d then Return (mk_date y m d)
  else Raise ValueError.

(** [datetime(year, month, day)]: midnight of that day. *)
Definition datetime_new (y m d : Z) : result datetime :=
  (let? dt := date_new y m d in Return (mk_datetime dt 0 0 0 0))%py.

Definition toordinal (d : date) : Z := _ymd2ord (year d) (month d) (day d).

(** A [timedelta] in its normal form: [0 <= seconds < 86400] and
    [0 <= microseconds < 1000000], the sign carried by the days. *)
Record timedelta : Set := mk_timedelta {
  days : Z;
  seconds : Z;
  microseconds : Z
}.

(** [timedelta(days, seconds, microseconds)] of integers: the carries of
    [divmod], which rounds to minus infinity. *)
Definition timedelta_new (d s us : Z) : timedelta :=
  let s' := s + us / 1000000 in
  mk_timedelta (d + s' / 86400) (s' mod 86400) (us mod 1000000).

(** [a - b] of two naive datetimes. *)
Definition sub (a b : datetime) : timedelta :=
  let days1 := toordinal (date_ a) in
  let days2 := toordinal (date_ b) in
  let secs1 := second a + minute a * 60 + hour a * 3600 in
  let secs2 := second b + minute b * 60 + hour b * 3600 in
  timedelta_new (days1 - days2) (secs1 - secs2) (microsecond a - microsecond b).

(** [str(d)], the ISO format ["%04d-%02d-%02d"]. *)
Definition isoformat (d : date) : pystr :=
  format_0d 4 (year d) ++ lit "-" ++ format_0d 2 (month d)
  ++ lit "-" ++ format_0d 2 (day d).

(** The patterns [_strptime] puts in place of the directives:
    [%d] is [3[0-1]|[1-2]\d|0[1-9]|[1-9]| [1-9]],
    [%m] is [1[0-2]|0[1-9]|[1-9]] and [%Y] is [\d\d\d\d]. *)
Definition re_d : re.pattern :=
  re.Alt (re.Seq (re.char "3") (re.range "0" "1"))
 (re.Alt (re.Seq (re.range "1" "2") re.digit)
 (re.Alt (re.Seq (re.char "0") (re.range "1" "9"))
 (re.Alt (re.range "1" "9")
         (re.Seq (re.char " ") (re.range "1" "9"))))).

Definition re_m : re.pattern :=
  re.Alt (re.Seq (re.char "1") (re.range "0" "2"))
 (re.Alt (re.Seq (re.char "0") (re.range "1" "9"))
         (re.range "1" "9")).

Definition re_Y : re.pattern :=
  re.Seq re.digit (re.Seq re.digit (re.Seq re.digit re.digit)).

Definition re_hyphen : re.pattern := re.char "-".

(** The matches of the pattern of the format ["%d-%m-%Y"],
    [(?P<d>..)-(?P<m>..)-(?P<Y>..)], at the start of [s], in the
    matcher's order: the three groups and what is left of [s]. *)
Definition format_matches (s : pystr) : list (pystr * pystr * pystr * pystr) :=
  flat_map (fun d =>
  flat_map (fun h1 =>
  flat_map (fun m =>
  flat_map (fun h2 =>
  map (fun y => (fst d, fst m, fst y, snd y))
      (re.matches re_Y (snd h2)))
      (re.matches re_hyphen (snd m)))
      (re.matches re_m (snd h1)))
      (re.matches re_hyphen (snd d)))
      (re.matches re_d s).

(** [datetime.strptime(data_string, "%d-%m-%Y")]: the text has to match
    the pattern of the format from its start and nothing may remain after
    the match; the groups are converted with [int] and have to be the
    fields of a date. *)
Definition strptime (data_string : pystr) : result datetime :=
  match head (format_matches data_string) with
  | None => Raise ValueError              (* does not match format *)
  | Some (d, m, y, rest) =>
      if negb (length rest =? 0)%nat
      then Raise ValueError               (* unconverted data remains *)
      else
        (let? year := int y in
         let? month := int m in
         let? day := int d in
         datetime_new year month day)%py
  end.

End Datetime.

#[export] Instance str_date : Str Datetime.date := Datetime.isoformat.

(** ** Lists, ranges and dicts *)

(** [range(start, stop, step)] as the list of its items; a zero step
    raises. *)
Definition py_range (start stop step : Z) : result (list Z) :=
  if step =? 0 then Raise ValueError
  else
    let n :=
      if 0 <? step
      then (if start <? stop then 1 + (stop - 1 - start) / step else 0)
      else (if stop <? start then 1 + (start - 1 - stop) / (- step) else 0) in
    Return (map (fun k => start + Z.of_nat k * step) (seq 0 (Z.to_nat n))).

(** An index of a slice brought into [0..len]: a negative one counts from
    the end. *)
Definition slice_index (len i : Z) : Z :=
  if i <? 0 then Z.max (i + len) 0 else Z.min i len.

(** [l[start:stop]] *)
Definition py_slice {A} (l : list A) (start stop : Z) : list A :=
  let len := Z.of_nat (length l) in
  let a := slice_index len start in
  let b := slice_index len stop in
  take (Z.to_nat (b - a)) (drop (Z.to_nat a) l).

(** [l.pop(idx)] for the indices the program passes: [None] is not an
    integer, an index past the end is out of range. *)
Definition pop {A} (idx : option nat) : method (list A) A := fun l =>
  match idx with
  | None => (l, Raise TypeError)
  | Some i =>
      match l !! i with
      | Some x => (delete i l, Return x)
      | None => (l, Raise IndexError)
      end
  end.

(** A [dict] with [str] keys: its items in insertion order, no key twice. *)
Module Dict.

Definition t (V : Type) : Type := list (pystr * V).

(** [key in d] *)
Definition contains {V} (key : pystr) (d : t V) : bool :=
  existsb (fun kv => bool_decide (fst kv = key)) d.

(** [d.get(key)] *)
Definition get {V} (key : pystr) (d : t V) : option V :=
  snd <$> find (fun kv => bool_decide (fst kv = key)) d.

(** [d[key] = v]: a present key keeps its place, a new one goes last. *)
Fixpoint setitem {V} (key : pystr) (v : V) (d : t V) : t V :=
  match d with
  | [] => [(key, v)]
  | kv :: d' =>
      if bool_decide (fst kv = key) then (key, v) :: d'
      else kv :: setitem key v d'
  end.

(** [d.pop(key)] without the returned value (the caller checks the key). *)
Definition remove {V} (key : pystr) (d : t V) : t V :=
  filter (fun kv => fst kv <> key) d.

(** [d.values()] *)
Definition values {V} (d : t V) : list V := map snd d.

End Dict.

(** ** The fields

    [Field] keeps its value in the private attribute [__value], which is
    [_Field__value] on the object, and [__str__] renders that attribute.
    Each derived class has a property [value] over a private [__value] of
    its own ([_Name__value], [_Birthday__value], [_Phone__value]); its
    [__init__] assigns the property and then hands the stored value to
    [Field.__init__]. *)

(** The one format the program parses dates with; [Datetime.strptime] is
    [datetime.strptime] at this format. *)
Definition DATE_FORMAT : pystr := lit "%d-%m-%Y".

Module Name.

Record t : Set := mk { _Name__value : pystr; _Field__value : pystr }.

(** The getter of [value]. *)
Definition value (self : t) : pystr := _Name__value self.

(** The body of the setter of [value]: what it stores in [_Name__value]. *)
Definition value_setter (client_name : pystr) : result pystr :=
  Return client_name.

(** [self.value = client_name] on an object. *)
Definition set_value (client_name : pystr) : method t unit := fun self =>
  match value_setter client_name with
  | Return v => (mk v (_Field__value self), Return tt)
  | Raise e => (self, Raise e)
  end.

(** [Name(client_name)] *)
Definition new (client_name : pystr) : result t :=
  (let? v := value_setter client_name in   (* self.value = client_name *)
   Return (mk v v))%py.                    (* super().__init__(value=self.value) *)

Definition __str__ (self : t) : pystr := str (_Field__value self).

End Name.

Module Birthday.

Record t : Set := mk {
  _Birthday__value : option Datetime.date;
  _Field__value : option Datetime.date
}.

Definition value (self : t) : option Datetime.date := _Birthday__value self.

(** The body of the setter: [None] is stored as it is, a text is parsed
    with [DATE_FORMAT] and every failure is turned into a [ValueError]. *)
Definition value_setter (birthday : option pystr)
  : result (option Datetime.date) :=
  match birthday with
  | None => Return None
  | Some b =>
      match Datetime.strptime b with
      | Return birthday_dt => Return (Some (Datetime.date_ birthday_dt))
      | Raise _ => Raise ValueError
      end
  end.

Definition set_value (birthday : option pystr) : method t unit := fun self =>
  match value_setter birthday with
  | Return v => (mk v (_Field__value self), Return tt)
  | Raise e => (self, Raise e)
  end.

(** [Birthday(birthday)] *)
Definition new (birthday : option pystr) : result t :=
  (let? v := value_setter birthday in
   Return (mk v v))%py.

Definition __str__ (self : t) : pystr := str (_Field__value self).

End Birthday.

Module Phone.

Record t : Set := mk { _Phone__value : pystr; _Field__value : pystr }.

Definition value (self : t) : pystr := _Phone__value self.

(** The body of the setter: the first run of digits of the text has to be
    the whole text, and the text has to have ten characters. *)
Definition value_setter (phone : pystr) : result pystr :=
  let match_ := re.search (re.Plus re.Digit) phone in
  let numbers := match match_ with Some g => g | None => [] end in
  let phone_number_len := length phone in
  if negb (phone_number_len =? 10)%nat
     || negb (length numbers =? phone_number_len)%nat
  then Raise ValueError
  else Return phone.

(** [self.value = phone] on an object: only [_Phone__value] is assigned. *)
Definition set_value (phone : pystr) : method t unit := fun self =>
  match value_setter phone with
  | Return v => (mk v (_Field__value self), Return tt)
  | Raise e => (self, Raise e)
  end.

(** [Phone(phone)] *)
Definition new (phone : pystr) : result t :=
  (let? v := value_setter phone in
   Return (mk v v))%py.

Definition __str__ (self : t) : pystr := str (_Field__value self).

End Phone.

(** ** The class [Record]

    The module is named [ClientRecord], [Record] being a keyword here. *)

Module ClientRecord.

Record t : Set := mk {
  name : Name.t;
  phones : list Phone.t;
  birthday : Birthday.t
}.

(** [Record(name, birthday)] *)
Definition new (name : pystr) (birthday : option pystr) : result t :=
  (let? n := Name.new name in
   let? b := Birthday.new birthday in
   Return (mk n [] b))%py.

Definition __str__ (self : t) : pystr :=
  lit "Contact name: " ++ Name.value (name self) ++ lit ", phones: "
  ++ join (lit "; ") (map Phone.value (phones self)).

(** [days_to_birthday], with the value of [datetime.today()] as [today]. *)
Definition days_to_birthday (today : Datetime.datetime) (self : t) : result Z :=
  match Birthday.value (birthday self) with
  | Some birth =>
      let today_day := Datetime.day (Datetime.date_ today) in
      let today_month := Datetime.month (Datetime.date_ today) in
      let today_year := Datetime.year (Datetime.date_ today) in
      let birth_day := Datetime.day birth in
      let birth_month := Datetime.month birth in
      let next_birthday_year :=
        if (birth_month <? today_month)
           || ((today_month =? birth_month) && (birth_day <? today_day))
        then today_year + 1
        else today_year in
      (let? next := Datetime.datetime_new next_birthday_year birth_month birth_day in
       let time_diff := Datetime.sub next today in
       Return (Datetime.days time_diff))%py
  | None => Raise ValueError
  end.

(** The loop of [get_phone_by_number] over [enumerate(self.phones)], from
    the index [idx] on. *)
Fixpoint get_phone_by_number_from (idx : nat) (phones : list Phone.t)
    (phone_num : pystr) : option Phone.t * option nat :=
  match phones with
  | phone :: rest =>
      if bool_decide (Phone.value phone = phone_num)
      then (Some phone, Some idx)
      else get_phone_by_number_from (S idx) rest phone_num
  | [] => (None, None)
  end.

Definition get_phone_by_number (phone_num : pystr) (self : t)
  : option Phone.t * option nat :=
  get_phone_by_number_from 0 (phones self) phone_num.

Definition set_phones (ps : list Phone.t) (self : t) : t :=
  mk (name self) ps (birthday self).

Definition add_phone (phone_num : pystr) : method t pystr :=
  (let! p := eval (Phone.new phone_num) in
   let! self := get in
   let! _ := put (set_phones (phones self ++ [p]) self) in
   ret (lit "Phone number '" ++ phone_num
        ++ lit "' was successfully added to the contact '"
        ++ Name.value (name self) ++ lit "'"))%py.

(** [self.phones[idx].value = new_phone]: the setter runs on the object
    at [idx] of the list, which stays where it is. *)
Definition set_phone_value (idx : option nat) (new_phone : pystr)
  : method t unit := fun self =>
  match idx with
  | None => (self, Raise TypeError)
  | Some i =>
      match phones self !! i with
      | None => (self, Raise IndexError)
      | Some p =>
          let (p', r) := Phone.set_value new_phone p in
          (set_phones (<[i := p']> (phones self)) self, r)
      end
  end.

Definition edit_phone (old_phone new_phone : pystr) : method t unit :=
  fun self =>
  let (found_phone, idx) := get_phone_by_number old_phone self in
  match found_phone with
  | Some _ => set_phone_value idx new_phone self
  | None => (self, Raise ValueError)
  end.

Definition remove_phone (phone_num : pystr) : method t unit := fun self =>
  let (_, idx) := get_phone_by_number phone_num self in
  let (ps, r) := pop idx (phones self) in
  (set_phones ps self, (let? _ := r in Return tt)%py).

Definition find_phone (phone_num : pystr) (self : t) : option Phone.t :=
  fst (get_phone_by_number phone_num self).

Definition add_birthday (birthday : option pystr) : method t pystr :=
  (let! b := eval (Birthday.new birthday) in
   let! self := get in
   let! _ := put (mk (name self) (phones self) b) in
   ret (lit "Birthday '" ++ str birthday
        ++ lit "' was successfully added to the birthday '"
        ++ Name.value (name self) ++ lit "'"))%py.

End ClientRecord.

(** ** The class [AddressBook] *)

Module AddressBook.

(** [self.data] of the [UserDict]. *)
Definition t : Type := Dict.t ClientRecord.t.

(** [AddressBook()] *)
Definition new : t := [].

(** The chunks that the generator yields, in order; [record_num] is
    [None] when the argument is left out. *)
Definition iterator (record_num : option Z) (self : t)
  : result (list (list ClientRecord.t)) :=
  let book_vals := Dict.values self in
  let step :=
    match record_num with
    | None => 1
    | Some n => if n =? 0 then 1 else n
    end in
  (let? starts := py_range 0 (Z.of_nat (length book_vals)) step in
   Return (map (fun i => py_slice book_vals i (i + step)) starts))%py.

Definition add_record (record : ClientRecord.t) : method t unit := fun self =>
  let key := Name.value (ClientRecord.name record) in
  if negb (Dict.contains key self)
  then (Dict.setitem key record self, Return tt)
  else (self, Raise RecordAlreadyExistsException).

Definition find (name : pystr) (self : t) : option ClientRecord.t :=
  Dict.get name self.

Definition delete (name : pystr) : method t unit := fun self =>
  match Dict.get name self with
  | Some _ => (Dict.remove name self, Return tt)
  | None => (self, Return tt)
  end.

End AddressBook.

(** ** More of [str] and [int] *)

(** [str(n)] of an [int]. *)
Definition str_int (n : Z) : pystr :=
  if n <? 0 then chr "-" :: format_0d 0 (- n) else format_0d 0 n.

(** The characters for which [str.isspace] holds: what [strip] takes off
    and where [split] cuts. *)
Definition space_blocks : list (N * N) :=
  [ (0x9, 0xD); (0x1C, 0x20); (0x85, 0x85); (0xA0, 0xA0); (0x1680, 0x1680);
    (0x2000, 0x200A); (0x2028, 0x2029); (0x202F, 0x202F); (0x205F, 0x205F);
    (0x3000, 0x3000) ]%N.

Definition is_space (c : codepoint) : bool := existsb (in_block c) space_blocks.

Fixpoint lstrip_spaces (s : pystr) : pystr :=
  match s with
  | c :: s' => if is_space c then lstrip_spaces s' else s
  | [] => []
  end.

(** [s.strip()] *)
Definition strip_spaces (s : pystr) : pystr :=
  rev (lstrip_spaces (rev (lstrip_spaces s))).

(** The loop of [s.split()]: [word] is the word being read, backwards. *)
Fixpoint split_from (word : pystr) (s : pystr) : list pystr :=
  match s with
  | c :: s' =>
      if is_space c
      then match word with
           | [] => split_from [] s'
           | _ => rev word :: split_from [] s'
           end
      else split_from (c :: word) s'
  | [] =>
      match word with
      | [] => []
      | _ => [rev word]
      end
  end.

(** [s.split()]: the words between runs of white space. *)
Definition split (s : pystr) : list pystr := split_from [] s.

(** [s.startswith(prefix)] *)
Fixpoint startswith (s prefix : pystr) : bool :=
  match prefix, s with
  | [], _ => true
  | p :: prefix', c :: s' => (c =? p)%N && startswith s' prefix'
  | _ :: _, [] => false
  end.

(** [str.lower]: the simple lower-case mappings of Unicode 14, as runs
    [(first, last, step, image of first)] of characters [step] apart that
    are mapped in parallel; a character of no run is its own image. *)
Definition lower_runs : list (N * N * N * N) :=
  [
    (0x41, 0x5A, 1, 0x61); (0xC0, 0xD6, 1, 0xE0); (0xD8, 0xDE, 1, 0xF8);
    (0x100, 0x12E, 2, 0x101); (0x132, 0x136, 2, 0x133);
    (0x139, 0x147, 2, 0x13A); (0x14A, 0x176, 2, 0x14B);
    (0x178, 0x178, 1, 0xFF); (0x179, 0x17D, 2, 0x17A);
    (0x181, 0x181, 1, 0x253); (0x182, 0x184, 2, 0x183);
    (0x186, 0x186, 1, 0x254); (0x187, 0x187, 1, 0x188);
    (0x189, 0x18A, 1, 0x256); (0x18B, 0x18B, 1, 0x18C);
    (0x18E, 0x18E, 1, 0x1DD); (0x18F, 0x18F, 1, 0x259);
    (0x190, 0x190, 1, 0x25B); (0x191, 0x191, 1, 0x192);
    (0x193, 0x193, 1, 0x260); (0x194, 0x194, 1, 0x263);
    (0x196, 0x196, 1, 0x269); (0x197, 0x197, 1, 0x268);
    (0x198, 0x198, 1, 0x199); (0x19C, 0x19C, 1, 0x26F);
    (0x19D, 0x19D, 1, 0x272); (0x19F, 0x19F, 1, 0x275);
    (0x1A0, 0x1A4, 2, 0x1A1); (0x1A6, 0x1A6, 1, 0x280);
    (0x1A7, 0x1A7, 1, 0x1A8); (0x1A9, 0x1A9, 1, 0x283);
    (0x1AC, 0x1AC, 1, 0x1AD); (0x1AE, 0x1AE, 1, 0x288);
    (0x1AF, 0x1AF, 1, 0x1B0); (0x1B1, 0x1B2, 1, 0x28A);
    (0x1B3, 0x1B5, 2, 0x1B4); (0x1B7, 0x1B7, 1, 0x292);
    (0x1B8, 0x1B8, 1, 0x1B9); (0x1BC, 0x1BC, 1, 0x1BD);
    (0x1C4, 0x1C4, 1, 0x1C6); (0x1C5, 0x1C5, 1, 0x1C6);
    (0x1C7, 0x1C7, 1, 0x1C9); (0x1C8, 0x1C8, 1, 0x1C9);
    (0x1CA, 0x1CA, 1, 0x1CC); (0x1CB, 0x1DB, 2, 0x1CC);
    (0x1DE, 0x1EE, 2, 0x1DF); (0x1F1, 0x1F1, 1, 0x1F3);
    (0x1F2, 0x1F4, 2, 0x1F3); (0x1F6, 0x1F6, 1, 0x195);
    (0x1F7, 0x1F7, 1, 0x1BF); (0x1F8, 0x21E, 2, 0x1F9);
    (0x220, 0x220, 1, 0x19E); (0x222, 0x232, 2, 0x223);
    (0x23A, 0x23A, 1, 0x2C65); (0x23B, 0x23B, 1, 0x23C);
    (0x23D, 0x23D, 1, 0x19A); (0x23E, 0x23E, 1, 0x2C66);
    (0x241, 0x241, 1, 0x242); (0x243, 0x243, 1, 0x180);
    (0x244, 0x244, 1, 0x289); (0x245, 0x245, 1, 0x28C);
    (0x246, 0x24E, 2, 0x247); (0x370, 0x372, 2, 0x371);
    (0x376, 0x376, 1, 0x377); (0x37F, 0x37F, 1, 0x3F3);
    (0x386, 0x386, 1, 0x3AC); (0x388, 0x38A, 1, 0x3AD);
    (0x38C, 0x38C, 1, 0x3CC); (0x38E, 0x38F, 1, 0x3CD);
    (0x391, 0x3A1, 1, 0x3B1); (0x3A3, 0x3AB, 1, 0x3C3);
    (0x3CF, 0x3CF, 1, 0x3D7); (0x3D8, 0x3EE, 2, 0x3D9);
    (0x3F4, 0x3F4, 1, 0x3B8); (0x3F7, 0x3F7, 1, 0x3F8);
    (0x3F9, 0x3F9, 1, 0x3F2); (0x3FA, 0x3FA, 1, 0x3FB);
    (0x3FD, 0x3FF, 1, 0x37B); (0x400, 0x40F, 1, 0x450);
    (0x410, 0x42F, 1, 0x430); (0x460, 0x480, 2, 0x461);
    (0x48A, 0x4BE, 2, 0x48B); (0x4C0, 0x4C0, 1, 0x4CF);
    (0x4C1, 0x4CD, 2, 0x4C2); (0x4D0, 0x52E, 2, 0x4D1);
    (0x531, 0x556, 1, 0x561); (0x10A0, 0x10C5, 1, 0x2D00);
    (0x10C7, 0x10C7, 1, 0x2D27); (0x10CD, 0x10CD, 1, 0x2D2D);
    (0x13A0, 0x13EF, 1, 0xAB70); (0x13F0, 0x13F5, 1, 0x13F8);
    (0x1C90, 0x1CBA, 1, 0x10D0); (0x1CBD, 0x1CBF, 1, 0x10FD);
    (0x1E00, 0x1E94, 2, 0x1E01); (0x1E9E, 0x1E9E, 1, 0xDF);
    (0x1EA0, 0x1EFE, 2, 0x1EA1); (0x1F08, 0x1F0F, 1, 0x1F00);
    (0x1F18, 0x1F1D, 1, 0x1F10); (0x1F28, 0x1F2F, 1, 0x1F20);
    (0x1F38, 0x1F3F, 1, 0x1F30); (0x1F48, 0x1F4D, 1, 0x1F40);
    (0x1F59, 0x1F5F, 2, 0x1F51); (0x1F68, 0x1F6F, 1, 0x1F60);
    (0x1F88, 0x1F8F, 1, 0x1F80); (0x1F98, 0x1F9F, 1, 0x1F90);
    (0x1FA8, 0x1FAF, 1, 0x1FA0); (0x1FB8, 0x1FB9, 1, 0x1FB0);
    (0x1FBA, 0x1FBB, 1, 0x1F70); (0x1FBC, 0x1FBC, 1, 0x1FB3);
    (0x1FC8, 0x1FCB, 1, 0x1F72); (0x1FCC, 0x1FCC, 1, 0x1FC3);
    (0x1FD8, 0x1FD9, 1, 0x1FD0); (0x1FDA, 0x1FDB, 1, 0x1F76);
    (0x1FE8, 0x1FE9, 1, 0x1FE0); (0x1FEA, 0x1FEB, 1, 0x1F7A);
    (0x1FEC, 0x1FEC, 1, 0x1FE5); (0x1FF8, 0x1FF9, 1, 0x1F78);
    (0x1FFA, 0x1FFB, 1, 0x1F7C); (0x1FFC, 0x1FFC, 1, 0x1FF3);
    (0x2126, 0x2126, 1, 0x3C9); (0x212A, 0x212A, 1, 0x6B);
    (0x212B, 0x212B, 1, 0xE5); (0x2132, 0x2132, 1, 0x214E);
    (0x2160, 0x216F, 1, 0x2170); (0x2183, 0x2183, 1, 0x2184);
    (0x24B6, 0x24CF, 1, 0x24D0); (0x2C00, 0x2C2F, 1, 0x2C30);
    (0x2C60, 0x2C60, 1, 0x2C61); (0x2C62, 0x2C62, 1, 0x26B);
    (0x2C63, 0x2C63, 1, 0x1D7D); (0x2C64, 0x2C64, 1, 0x27D);
    (0x2C67, 0x2C6B, 2, 0x2C68); (0x2C6D, 0x2C6D, 1, 0x251);
    (0x2C6E, 0x2C6E, 1, 0x271); (0x2C6F, 0x2C6F, 1, 0x250);
    (0x2C70, 0x2C70, 1, 0x252); (0x2C72, 0x2C72, 1, 0x2C73);
    (0x2C75, 0x2C75, 1, 0x2C76); (0x2C7E, 0x2C7F, 1, 0x23F);
    (0x2C80, 0x2CE2, 2, 0x2C81); (0x2CEB, 0x2CED, 2, 0x2CEC);
    (0x2CF2, 0x2CF2, 1, 0x2CF3); (0xA640, 0xA66C, 2, 0xA641);
    (0xA680, 0xA69A, 2, 0xA681); (0xA722, 0xA72E, 2, 0xA723);
    (0xA732, 0xA76E, 2, 0xA733); (0xA779, 0xA77B, 2, 0xA77A);
    (0xA77D, 0xA77D, 1, 0x1D79); (0xA77E, 0xA786, 2, 0xA77F);
    (0xA78B, 0xA78B, 1, 0xA78C); (0xA78D, 0xA78D, 1, 0x265);
    (0xA790, 0xA792, 2, 0xA791); (0xA796, 0xA7A8, 2, 0xA797);
    (0xA7AA, 0xA7AA, 1, 0x266); (0xA7AB, 0xA7AB, 1, 0x25C);
    (0xA7AC, 0xA7AC, 1, 0x261); (0xA7AD, 0xA7AD, 1, 0x26C);
    (0xA7AE, 0xA7AE, 1, 0x26A); (0xA7B0, 0xA7B0, 1, 0x29E);
    (0xA7B1, 0xA7B1, 1, 0x287); (0xA7B2, 0xA7B2, 1, 0x29D);
    (0xA7B3, 0xA7B3, 1, 0xAB53); (0xA7B4, 0xA7C2, 2, 0xA7B5);
    (0xA7C4, 0xA7C4, 1, 0xA794); (0xA7C5, 0xA7C5, 1, 0x282);
    (0xA7C6, 0xA7C6, 1, 0x1D8E); (0xA7C7, 0xA7C9, 2, 0xA7C8);
    (0xA7D0, 0xA7D0, 1, 0xA7D1); (0xA7D6, 0xA7D8, 2, 0xA7D7);
    (0xA7F5, 0xA7F5, 1, 0xA7F6); (0xFF21, 0xFF3A, 1, 0xFF41);
    (0x10400, 0x10427, 1, 0x10428); (0x104B0, 0x104D3, 1, 0x104D8);
    (0x10570, 0x1057A, 1, 0x10597); (0x1057C, 0x1058A, 1, 0x105A3);
    (0x1058C, 0x10592, 1, 0x105B3); (0x10594, 0x10595, 1, 0x105BB);
    (0x10C80, 0x10CB2, 1, 0x10CC0); (0x118A0, 0x118BF, 1, 0x118C0);
    (0x16E40, 0x16E5F, 1, 0x16E60); (0x1E900, 0x1E921, 1, 0x1E922)
  ]%N.

(** The characters with the properties Cased and Case_Ignorable. *)
Definition cased_blocks : list (N * N) :=
  [
    (0x41, 0x5A); (0x61, 0x7A); (0xAA, 0xAA); (0xB5, 0xB5); (0xBA, 0xBA);
    (0xC0, 0xD6); (0xD8, 0xF6); (0xF8, 0x1BA); (0x1BC, 0x1BF);
    (0x1C4, 0x293); (0x295, 0x2B8); (0x2C0, 0x2C1); (0x2E0, 0x2E4);
    (0x345, 0x345); (0x370, 0x373); (0x376, 0x377); (0x37A, 0x37D);
    (0x37F, 0x37F); (0x386, 0x386); (0x388, 0x38A); (0x38C, 0x38C);
    (0x38E, 0x3A1); (0x3A3, 0x3F5); (0x3F7, 0x481); (0x48A, 0x52F);
    (0x531, 0x556); (0x560, 0x588); (0x10A0, 0x10C5); (0x10C7, 0x10C7);
    (0x10CD, 0x10CD); (0x10D0, 0x10FA); (0x10FD, 0x10FF); (0x13A0, 0x13F5);
    (0x13F8, 0x13FD); (0x1C80, 0x1C88); (0x1C90, 0x1CBA); (0x1CBD, 0x1CBF);
    (0x1D00, 0x1DBF); (0x1E00, 0x1F15); (0x1F18, 0x1F1D); (0x1F20, 0x1F45);
    (0x1F48, 0x1F4D); (0x1F50, 0x1F57); (0x1F59, 0x1F59); (0x1F5B, 0x1F5B);
    (0x1F5D, 0x1F5D); (0x1F5F, 0x1F7D); (0x1F80, 0x1FB4); (0x1FB6, 0x1FBC);
    (0x1FBE, 0x1FBE); (0x1FC2, 0x1FC4); (0x1FC6, 0x1FCC); (0x1FD0, 0x1FD3);
    (0x1FD6, 0x1FDB); (0x1FE0, 0x1FEC); (0x1FF2, 0x1FF4); (0x1FF6, 0x1FFC);
    (0x2071, 0x2071); (0x207F, 0x207F); (0x2090, 0x209C); (0x2102, 0x2102);
    (0x2107, 0x2107); (0x210A, 0x2113); (0x2115, 0x2115); (0x2119, 0x211D);
    (0x2124, 0x2124); (0x2126, 0x2126); (0x2128, 0x2128); (0x212A, 0x212D);
    (0x212F, 0x2134); (0x2139, 0x2139); (0x213C, 0x213F); (0x2145, 0x2149);
    (0x214E, 0x214E); (0x2160, 0x217F); (0x2183, 0x2184); (0x24B6, 0x24E9);
    (0x2C00, 0x2CE4); (0x2CEB, 0x2CEE); (0x2CF2, 0x2CF3); (0x2D00, 0x2D25);
    (0x2D27, 0x2D27); (0x2D2D, 0x2D2D); (0xA640, 0xA66D); (0xA680, 0xA69D);
    (0xA722, 0xA787); (0xA78B, 0xA78E); (0xA790, 0xA7CA); (0xA7D0, 0xA7D1);
    (0xA7D3, 0xA7D3); (0xA7D5, 0xA7D9); (0xA7F5, 0xA7F6); (0xA7F8, 0xA7FA);
    (0xAB30, 0xAB5A); (0xAB5C, 0xAB68); (0xAB70, 0xABBF); (0xFB00, 0xFB06);
    (0xFB13, 0xFB17); (0xFF21, 0xFF3A); (0xFF41, 0xFF5A);
    (0x10400, 0x1044F); (0x104B0, 0x104D3); (0x104D8, 0x104FB);
    (0x10570, 0x1057A); (0x1057C, 0x1058A); (0x1058C, 0x10592);
    (0x10594, 0x10595); (0x10597, 0x105A1); (0x105A3, 0x105B1);
    (0x105B3, 0x105B9); (0x105BB, 0x105BC); (0x10780, 0x10780);
    (0x10783, 0x10785); (0x10787, 0x107B0); (0x107B2, 0x107BA);
    (0x10C80, 0x10CB2); (0x10CC0, 0x10CF2); (0x118A0, 0x118DF);
    (0x16E40, 0x16E7F); (0x1D400, 0x1D454); (0x1D456, 0x1D49C);
    (0x1D49E, 0x1D49F); (0x1D4A2, 0x1D4A2); (0x1D4A5, 0x1D4A6);
    (0x1D4A9, 0x1D4AC); (0x1D4AE, 0x1D4B9); (0x1D4BB, 0x1D4BB);
    (0x1D4BD, 0x1D4C3); (0x1D4C5, 0x1D505); (0x1D507, 0x1D50A);
    (0x1D50D, 0x1D514); (0x1D516, 0x1D51C); (0x1D51E, 0x1D539);
    (0x1D53B, 0x1D53E); (0x1D540, 0x1D544); (0x1D546, 0x1D546);
    (0x1D54A, 0x1D550); (0x1D552, 0x1D6A5); (0x1D6A8, 0x1D6C0);
    (0x1D6C2, 0x1D6DA); (0x1D6DC, 0x1D6FA); (0x1D6FC, 0x1D714);
    (0x1D716, 0x1D734); (0x1D736, 0x1D74E); (0x1D750, 0x1D76E);
    (0x1D770, 0x1D788); (0x1D78A, 0x1D7A8); (0x1D7AA, 0x1D7C2);
    (0x1D7C4, 0x1D7CB); (0x1DF00, 0x1DF09); (0x1DF0B, 0x1DF1E);
    (0x1E900, 0x1E943); (0x1F130, 0x1F149); (0x1F150, 0x1F169);
    (0x1F170, 0x1F189)
  ]%N.

Definition case_ignorable_blocks : list (N * N) :=
  [
    (0x27, 0x27); (0x2E, 0x2E); (0x3A, 0x3A); (0x5E, 0x5E); (0x60, 0x60);
    (0xA8, 0xA8); (0xAD, 0xAD); (0xAF, 0xAF); (0xB4, 0xB4); (0xB7, 0xB8);
    (0x2B0, 0x36F); (0x374, 0x375); (0x37A, 0x37A); (0x384, 0x385);
    (0x387, 0x387); (0x483, 0x489); (0x559, 0x559); (0x55F, 0x55F);
    (0x591, 0x5BD); (0x5BF, 0x5BF); (0x5C1, 0x5C2); (0x5C4, 0x5C5);
    (0x5C7, 0x5C7); (0x5F4, 0x5F4); (0x600, 0x605); (0x610, 0x61A);
    (0x61C, 0x61C); (0x640, 0x640); (0x64B, 0x65F); (0x670, 0x670);
    (0x6D6, 0x6DD); (0x6DF, 0x6E8); (0x6EA, 0x6ED); (0x70F, 0x70F);
    (0x711, 0x711); (0x730, 0x74A); (0x7A6, 0x7B0); (0x7EB, 0x7F5);
    (0x7FA, 0x7FA); (0x7FD, 0x7FD); (0x816, 0x82D); (0x859, 0x85B);
    (0x888, 0x888); (0x890, 0x891); (0x898, 0x89F); (0x8C9, 0x902);
    (0x93A, 0x93A); (0x93C, 0x93C); (0x941, 0x948); (0x94D, 0x94D);
    (0x951, 0x957); (0x962, 0x963); (0x971, 0x971); (0x981, 0x981);
    (0x9BC, 0x9BC); (0x9C1, 0x9C4); (0x9CD, 0x9CD); (0x9E2, 0x9E3);
    (0x9FE, 0x9FE); (0xA01, 0xA02); (0xA3C, 0xA3C); (0xA41, 0xA42);
    (0xA47, 0xA48); (0xA4B, 0xA4D); (0xA51, 0xA51); (0xA70, 0xA71);
    (0xA75, 0xA75); (0xA81, 0xA82); (0xABC, 0xABC); (0xAC1, 0xAC5);
    (0xAC7, 0xAC8); (0xACD, 0xACD); (0xAE2, 0xAE3); (0xAFA, 0xAFF);
    (0xB01, 0xB01); (0xB3C, 0xB3C); (0xB3F, 0xB3F); (0xB41, 0xB44);
    (0xB4D, 0xB4D); (0xB55, 0xB56); (0xB62, 0xB63); (0xB82, 0xB82);
    (0xBC0, 0xBC0); (0xBCD, 0xBCD); (0xC00, 0xC00); (0xC04, 0xC04);
    (0xC3C, 0xC3C); (0xC3E, 0xC40); (0xC46, 0xC48); (0xC4A, 0xC4D);
    (0xC55, 0xC56); (0xC62, 0xC63); (0xC81, 0xC81); (0xCBC, 0xCBC);
    (0xCBF, 0xCBF); (0xCC6, 0xCC6); (0xCCC, 0xCCD); (0xCE2, 0xCE3);
    (0xD00, 0xD01); (0xD3B, 0xD3C); (0xD41, 0xD44); (0xD4D, 0xD4D);
    (0xD62, 0xD63); (0xD81, 0xD81); (0xDCA, 0xDCA); (0xDD2, 0xDD4);
    (0xDD6, 0xDD6); (0xE31, 0xE31); (0xE34, 0xE3A); (0xE46, 0xE4E);
    (0xEB1, 0xEB1); (0xEB4, 0xEBC); (0xEC6, 0xEC6); (0xEC8, 0xECD);
    (0xF18, 0xF19); (0xF35, 0xF35); (0xF37, 0xF37); (0xF39, 0xF39);
    (0xF71, 0xF7E); (0xF80, 0xF84); (0xF86, 0xF87); (0xF8D, 0xF97);
    (0xF99, 0xFBC); (0xFC6, 0xFC6); (0x102D, 0x1030); (0x1032, 0x1037);
    (0x1039, 0x103A); (0x103D, 0x103E); (0x1058, 0x1059); (0x105E, 0x1060);
    (0x1071, 0x1074); (0x1082, 0x1082); (0x1085, 0x1086); (0x108D, 0x108D);
    (0x109D, 0x109D); (0x10FC, 0x10FC); (0x135D, 0x135F); (0x1712, 0x1714);
    (0x1732, 0x1733); (0x1752, 0x1753); (0x1772, 0x1773); (0x17B4, 0x17B5);
    (0x17B7, 0x17BD); (0x17C6, 0x17C6); (0x17C9, 0x17D3); (0x17D7, 0x17D7);
    (0x17DD, 0x17DD); (0x180B, 0x180F); (0x1843, 0x1843); (0x1885, 0x1886);
    (0x18A9, 0x18A9); (0x1920, 0x1922); (0x1927, 0x1928); (0x1932, 0x1932);
    (0x1939, 0x193B); (0x1A17, 0x1A18); (0x1A1B, 0x1A1B); (0x1A56, 0x1A56);
    (0x1A58, 0x1A5E); (0x1A60, 0x1A60); (0x1A62, 0x1A62); (0x1A65, 0x1A6C);
    (0x1A73, 0x1A7C); (0x1A7F, 0x1A7F); (0x1AA7, 0x1AA7); (0x1AB0, 0x1ACE);
    (0x1B00, 0x1B03); (0x1B34, 0x1B34); (0x1B36, 0x1B3A); (0x1B3C, 0x1B3C);
    (0x1B42, 0x1B42); (0x1B6B, 0x1B73); (0x1B80, 0x1B81); (0x1BA2, 0x1BA5);
    (0x1BA8, 0x1BA9); (0x1BAB, 0x1BAD); (0x1BE6, 0x1BE6); (0x1BE8, 0x1BE9);
    (0x1BED, 0x1BED); (0x1BEF, 0x1BF1); (0x1C2C, 0x1C33); (0x1C36, 0x1C37);
    (0x1C78, 0x1C7D); (0x1CD0, 0x1CD2); (0x1CD4, 0x1CE0); (0x1CE2, 0x1CE8);
    (0x1CED, 0x1CED); (0x1CF4, 0x1CF4); (0x1CF8, 0x1CF9); (0x1D2C, 0x1D6A);
    (0x1D78, 0x1D78); (0x1D9B, 0x1DFF); (0x1FBD, 0x1FBD); (0x1FBF, 0x1FC1);
    (0x1FCD, 0x1FCF); (0x1FDD, 0x1FDF); (0x1FED, 0x1FEF); (0x1FFD, 0x1FFE);
    (0x200B, 0x200F); (0x2018, 0x2019); (0x2024, 0x2024); (0x2027, 0x2027);
    (0x202A, 0x202E); (0x2060, 0x2064); (0x2066, 0x206F); (0x2071, 0x2071);
    (0x207F, 0x207F); (0x2090, 0x209C); (0x20D0, 0x20F0); (0x2C7C, 0x2C7D);
    (0x2CEF, 0x2CF1); (0x2D6F, 0x2D6F); (0x2D7F, 0x2D7F); (0x2DE0, 0x2DFF);
    (0x2E2F, 0x2E2F); (0x3005, 0x3005); (0x302A, 0x302D); (0x3031, 0x3035);
    (0x303B, 0x303B); (0x3099, 0x309E); (0x30FC, 0x30FE); (0xA015, 0xA015);
    (0xA4F8, 0xA4FD); (0xA60C, 0xA60C); (0xA66F, 0xA672); (0xA674, 0xA67D);
    (0xA67F, 0xA67F); (0xA69C, 0xA69F); (0xA6F0, 0xA6F1); (0xA700, 0xA721);
    (0xA770, 0xA770); (0xA788, 0xA78A); (0xA7F2, 0xA7F4); (0xA7F8, 0xA7F9);
    (0xA802, 0xA802); (0xA806, 0xA806); (0xA80B, 0xA80B); (0xA825, 0xA826);
    (0xA82C, 0xA82C); (0xA8C4, 0xA8C5); (0xA8E0, 0xA8F1); (0xA8FF, 0xA8FF);
    (0xA926, 0xA92D); (0xA947, 0xA951); (0xA980, 0xA982); (0xA9B3, 0xA9B3);
    (0xA9B6, 0xA9B9); (0xA9BC, 0xA9BD); (0xA9CF, 0xA9CF); (0xA9E5, 0xA9E6);
    (0xAA29, 0xAA2E); (0xAA31, 0xAA32); (0xAA35, 0xAA36); (0xAA43, 0xAA43);
    (0xAA4C, 0xAA4C); (0xAA70, 0xAA70); (0xAA7C, 0xAA7C); (0xAAB0, 0xAAB0);
    (0xAAB2, 0xAAB4); (0xAAB7, 0xAAB8); (0xAABE, 0xAABF); (0xAAC1, 0xAAC1);
    (0xAADD, 0xAADD); (0xAAEC, 0xAAED); (0xAAF3, 0xAAF4); (0xAAF6, 0xAAF6);
    (0xAB5B, 0xAB5F); (0xAB69, 0xAB6B); (0xABE5, 0xABE5); (0xABE8, 0xABE8);
    (0xABED, 0xABED); (0xFB1E, 0xFB1E); (0xFBB2, 0xFBC2); (0xFE00, 0xFE0F);
    (0xFE13, 0xFE13); (0xFE20, 0xFE2F); (0xFE52, 0xFE52); (0xFE55, 0xFE55);
    (0xFEFF, 0xFEFF); (0xFF07, 0xFF07); (0xFF0E, 0xFF0E); (0xFF1A, 0xFF1A);
    (0xFF3E, 0xFF3E); (0xFF40, 0xFF40); (0xFF70, 0xFF70); (0xFF9E, 0xFF9F);
    (0xFFE3, 0xFFE3); (0xFFF9, 0xFFFB); (0x101FD, 0x101FD);
    (0x102E0, 0x102E0); (0x10376, 0x1037A); (0x10780, 0x10785);
    (0x10787, 0x107B0); (0x107B2, 0x107BA); (0x10A01, 0x10A03);
    (0x10A05, 0x10A06); (0x10A0C, 0x10A0F); (0x10A38, 0x10A3A);
    (0x10A3F, 0x10A3F); (0x10AE5, 0x10AE6); (0x10D24, 0x10D27);
    (0x10EAB, 0x10EAC); (0x10F46, 0x10F50); (0x10F82, 0x10F85);
    (0x11001, 0x11001); (0x11038, 0x11046); (0x11070, 0x11070);
    (0x11073, 0x11074); (0x1107F, 0x11081); (0x110B3, 0x110B6);
    (0x110B9, 0x110BA); (0x110BD, 0x110BD); (0x110C2, 0x110C2);
    (0x110CD, 0x110CD); (0x11100, 0x11102); (0x11127, 0x1112B);
    (0x1112D, 0x11134); (0x11173, 0x11173); (0x11180, 0x11181);
    (0x111B6, 0x111BE); (0x111C9, 0x111CC); (0x111CF, 0x111CF);
    (0x1122F, 0x11231); (0x11234, 0x11234); (0x11236, 0x11237);
    (0x1123E, 0x1123E); (0x112DF, 0x112DF); (0x112E3, 0x112EA);
    (0x11300, 0x11301); (0x1133B, 0x1133C); (0x11340, 0x11340);
    (0x11366, 0x1136C); (0x11370, 0x11374); (0x11438, 0x1143F);
    (0x11442, 0x11444); (0x11446, 0x11446); (0x1145E, 0x1145E);
    (0x114B3, 0x114B8); (0x114BA, 0x114BA); (0x114BF, 0x114C0);
    (0x114C2, 0x114C3); (0x115B2, 0x115B5); (0x115BC, 0x115BD);
    (0x115BF, 0x115C0); (0x115DC, 0x115DD); (0x11633, 0x1163A);
    (0x1163D, 0x1163D); (0x1163F, 0x11640); (0x116AB, 0x116AB);
    (0x116AD, 0x116AD); (0x116B0, 0x116B5); (0x116B7, 0x116B7);
    (0x1171D, 0x1171F); (0x11722, 0x11725); (0x11727, 0x1172B);
    (0x1182F, 0x11837); (0x11839, 0x1183A); (0x1193B, 0x1193C);
    (0x1193E, 0x1193E); (0x11943, 0x11943); (0x119D4, 0x119D7);
    (0x119DA, 0x119DB); (0x119E0, 0x119E0); (0x11A01, 0x11A0A);
    (0x11A33, 0x11A38); (0x11A3B, 0x11A3E); (0x11A47, 0x11A47);
    (0x11A51, 0x11A56); (0x11A59, 0x11A5B); (0x11A8A, 0x11A96);
    (0x11A98, 0x11A99); (0x11C30, 0x11C36); (0x11C38, 0x11C3D);
    (0x11C3F, 0x11C3F); (0x11C92, 0x11CA7); (0x11CAA, 0x11CB0);
    (0x11CB2, 0x11CB3); (0x11CB5, 0x11CB6); (0x11D31, 0x11D36);
    (0x11D3A, 0x11D3A); (0x11D3C, 0x11D3D); (0x11D3F, 0x11D45);
    (0x11D47, 0x11D47); (0x11D90, 0x11D91); (0x11D95, 0x11D95);
    (0x11D97, 0x11D97); (0x11EF3, 0x11EF4); (0x13430, 0x13438);
    (0x16AF0, 0x16AF4); (0x16B30, 0x16B36); (0x16B40, 0x16B43);
    (0x16F4F, 0x16F4F); (0x16F8F, 0x16F9F); (0x16FE0, 0x16FE1);
    (0x16FE3, 0x16FE4); (0x1AFF0, 0x1AFF3); (0x1AFF5, 0x1AFFB);
    (0x1AFFD, 0x1AFFE); (0x1BC9D, 0x1BC9E); (0x1BCA0, 0x1BCA3);
    (0x1CF00, 0x1CF2D); (0x1CF30, 0x1CF46); (0x1D167, 0x1D169);
    (0x1D173, 0x1D182); (0x1D185, 0x1D18B); (0x1D1AA, 0x1D1AD);
    (0x1D242, 0x1D244); (0x1DA00, 0x1DA36); (0x1DA3B, 0x1DA6C);
    (0x1DA75, 0x1DA75); (0x1DA84, 0x1DA84); (0x1DA9B, 0x1DA9F);
    (0x1DAA1, 0x1DAAF); (0x1E000, 0x1E006); (0x1E008, 0x1E018);
    (0x1E01B, 0x1E021); (0x1E023, 0x1E024); (0x1E026, 0x1E02A);
    (0x1E130, 0x1E13D); (0x1E2AE, 0x1E2AE); (0x1E2EC, 0x1E2EF);
    (0x1E8D0, 0x1E8D6); (0x1E944, 0x1E94B); (0x1F3FB, 0x1F3FF);
    (0xE0001, 0xE0001); (0xE0020, 0xE007F); (0xE0100, 0xE01EF)
  ]%N.

Definition in_run (c : codepoint) (r : N * N * N * N) : bool :=
  let '(first, last, step, _) := r in
  ((first <=? c) && (c <=? last) && ((c - first) mod step =? 0))%N.

Definition to_lower (c : codepoint) : codepoint :=
  match List.find (in_run c) lower_runs with
  | Some (first, _, _, image) => (image + (c - first))%N
  | None => c
  end.

(** The full mapping: one character has a longer image, the capital I
    with a dot above, which becomes an i and a combining dot. *)
Definition to_lower_full (c : codepoint) : pystr :=
  if (c =? 0x130)%N then [0x69; 0x307]%N else [to_lower c].

Definition is_cased (c : codepoint) : bool :=
  existsb (in_block c) cased_blocks.

Definition is_case_ignorable (c : codepoint) : bool :=
  existsb (in_block c) case_ignorable_blocks.

Fixpoint first_not_ignorable (s : pystr) : option codepoint :=
  match s with
  | c :: s' => if is_case_ignorable c then first_not_ignorable s' else Some c
  | [] => None
  end.

(** The image of a capital sigma: the final form when a cased character
    comes before it and none comes after it, case-ignorable characters
    being skipped on both sides. [before] is the text before the sigma,
    backwards. *)
Definition handle_capital_sigma (before after : pystr) : codepoint :=
  let final_sigma :=
    match first_not_ignorable before with
    | Some c => is_cased c
    | None => false
    end
    && match first_not_ignorable after with
       | Some c => negb (is_cased c)
       | None => true
       end in
  if final_sigma then 0x3C2%N else 0x3C3%N.

Fixpoint lower_from (before : pystr) (s : pystr) : pystr :=
  match s with
  | c :: s' =>
      (if (c =? 0x3A3)%N then [handle_capital_sigma before s']
       else to_lower_full c)
      ++ lower_from (c :: before) s'
  | [] => []
  end.

(** [s.lower()] *)
Definition lower (s : pystr) : pystr := lower_from [] s.

(** The white space that [int] takes off the ends of a text: that of
    [str.isspace] without the four separators U+001C to U+001F. *)
Definition is_int_space (c : codepoint) : bool :=
  is_space c && negb (in_block c (0x1C, 0x1F)%N).

Fixpoint lstrip_int (s : pystr) : pystr :=
  match s with
  | c :: s' => if is_int_space c then lstrip_int s' else s
  | [] => []
  end.

(** The digits of an integer literal: decimal digits, with single
    underscores between them. *)
Fixpoint int_digits (acc : Z) (after_digit : bool) (s : pystr) : option Z :=
  match s with
  | c :: s' =>
      if is_decimal c then int_digits (10 * acc + decimal_value c) true s'
      else if (c =? chr "_")%N && after_digit then int_digits acc false s'
      else None
  | [] => if after_digit then Some acc else None
  end.

(** The number of digits of a text, and the most that [int] reads:
    [sys.get_int_max_str_digits()], as the interpreter starts with it. *)
Fixpoint digit_count (s : pystr) : Z :=
  match s with
  | c :: s' => (if is_decimal c then 1 else 0) + digit_count s'
  | [] => 0
  end.

Definition int_max_str_digits : Z := 4300.

(** [int(s)] of any [str], in base 10: white space around, a sign, the
    digits. *)
Definition int_of_str (s : pystr) : result Z :=
  let t := rev (lstrip_int (rev (lstrip_int s))) in
  let signed :=
    match t with
    | c :: t' =>
        if (c =? chr "-")%N then option_map Z.opp (int_digits 0 false t')
        else if (c =? chr "+")%N then int_digits 0 false t'
        else int_digits 0 false t
    | [] => None
    end in
  match signed with
  | Some n =>
      if int_max_str_digits <? digit_count t then Raise ValueError
      else Return n
  | None => Raise ValueError
  end.

(** ["{:<w}".format(s)] and ["{:^w}".format(s)] *)
Definition ljust (w : nat) (s : pystr) : pystr :=
  s ++ replicate (w - length s) (chr " ").

Definition center (w : nat) (s : pystr) : pystr :=
  let pad := (w - length s)%nat in
  replicate (pad / 2) (chr " ") ++ s ++ replicate (pad - pad / 2) (chr " ").

(** ** [bot.py]: the commands

    The commands work on the global address book [contacts]. A Record
    that [contacts.find] returns is the object stored in the book: what a
    command does to it is done to the entry of the book, which the model
    writes back under the name that it was found by. *)

Module bot.

(** What a command returns, as [main] prints it. *)
Inductive value : Type :=
| VNone
| VStr (s : pystr)
| VPhones (phones : list Phone.t).   (* the list [rec.phones] *)

(** What the wrapper of [input_error] prints for the exceptions that it
    catches (it catches [KeyError] as well, which nothing here raises). *)
Inductive report : Set :=
| incorrect_values       (* ValueError *)
| missing_parameters.    (* IndexError *)

Inductive line : Type :=
| Prompt                 (* "Type a command>>> " *)
| Report (r : report)
| Printed (v : value).

(** The address book [contacts] and what has been written to the
    standard output. *)
Record world : Type := mk_world {
  contacts : AddressBook.t;
  stdout : list line
}.

Definition print (l : line) (w : world) : world :=
  mk_world (contacts w) (stdout w ++ [l]).

(** The decorator: the wrapper returns what [func] returns; for a
    [ValueError] and an [IndexError] it prints and returns [None]; every
    other exception passes through it. *)
Definition input_error (func : method AddressBook.t value)
  : method world value := fun w =>
  match func (contacts w) with
  | (c, Return v) => (mk_world c (stdout w), Return v)
  | (c, Raise ValueError) =>
      (print (Report incorrect_values) (mk_world c (stdout w)), Return VNone)
  | (c, Raise IndexError) =>
      (print (Report missing_parameters) (mk_world c (stdout w)), Return VNone)
  | (c, Raise e) => (mk_world c (stdout w), Raise e)
  end.

(** [args[i]] *)
Definition arg (args : list pystr) (i : nat) : result pystr :=
  match args !! i with
  | Some a => Return a
  | None => Raise IndexError
  end.

(** A block of calls [rec.m(...)] on the Record [rec] that was found
    under [name]: the Record of the book is the one that changes, also
    when the block raises. *)
Definition with_record {A} (name : pystr) (rec : ClientRecord.t)
    (block : method ClientRecord.t A) : method AddressBook.t A :=
  fun contacts =>
    let (rec', r) := block rec in
    (Dict.setitem name rec' contacts, r).

(** A call [obj.m(...)] on a local object: the object after the call. *)
Definition after {S A} (m : method S A) (obj : S) : result S :=
  let (obj', r) := m obj in
  (let? _ := r in Return obj')%py.

(** The functions as they are written, before the decorator. *)
Module raw.

Definition hello (args : list pystr) : method AddressBook.t value :=
  match args with
  | [] => ret (VStr (lit "How can I help you?"))
  | _ => raise TypeError
  end.

Definition add_contact (args : list pystr) : method AddressBook.t value :=
  (let! name := eval (arg args 0) in
   let! phone := eval (arg args 1) in
   let birthday := if (2 <? length args)%nat then args !! 2%nat else None in
   let new_record : method AddressBook.t value :=
     (let! rec := eval (ClientRecord.new name birthday) in
      let! rec := eval (after (ClientRecord.add_phone phone) rec) in
      let! _ := AddressBook.add_record rec in
      ret (VStr (lit "The contact with name '" ++ name ++ lit "', '" ++ phone
                 ++ lit "' and '" ++ str birthday
                 ++ lit "' has been successfully added"))) in
   let! contacts := get in
   match AddressBook.find name contacts with
   | Some rec =>
       match fst (ClientRecord.get_phone_by_number phone rec) with
       | None =>
           with_record name rec
             (let! add_birthday_str := ClientRecord.add_birthday birthday in
              let! add_phone_str := ClientRecord.add_phone phone in
              ret (VStr (lit "'" ++ add_birthday_str ++ lit "', '"
                         ++ add_phone_str ++ lit "'")))
       | Some _ => new_record
       end
   | None => new_record
   end)%py.

Definition change_phone (args : list pystr) : method AddressBook.t value :=
  (let! name := eval (arg args 0) in
   let! old_phone := eval (arg args 1) in
   let! new_phone := eval (arg args 2) in
   let! contacts := get in
   match AddressBook.find name contacts with
   | Some rec =>
       with_record name rec
         (let! _ := ClientRecord.edit_phone old_phone new_phone in ret VNone)
   | None => raise ValueError
   end)%py.

Definition find_contact_phone (args : list pystr)
  : method AddressBook.t value :=
  (let! name := eval (arg args 0) in
   let! contacts := get in
   match AddressBook.find name contacts with
   | Some rec => ret (VPhones (ClientRecord.phones rec))
   | None => raise ValueError
   end)%py.

(** A row of the table of [show_all]. *)
Definition row (counter : Z) (record : ClientRecord.t) : pystr :=
  let phones_str :=
    join (lit ",") (map Phone.value (ClientRecord.phones record)) in
  ljust 10 (str_int counter) ++ lit " | "
  ++ ljust 20 (Name.value (ClientRecord.name record)) ++ lit " | "
  ++ ljust 30 phones_str ++ lit " |" ++ [10%N].

Definition separator : pystr :=
  lit "---------------------------+++------------------------------------"
  ++ [10%N].

(** The inner loop of [show_all] over the Records of a chunk, and the
    outer one over the chunks; the state is the text and the counter. *)
Fixpoint show_records (record_list : list ClientRecord.t) (s : pystr)
    (counter : Z) : pystr * Z :=
  match record_list with
  | record :: rest => show_records rest (s ++ row counter record) (counter + 1)
  | [] => (s, counter)
  end.

Fixpoint show_chunks (records : list (list ClientRecord.t)) (s : pystr)
    (counter : Z) : pystr :=
  match records with
  | record_list :: rest =>
      let (s', counter') := show_records record_list s counter in
      show_chunks rest (s' ++ separator) counter'
  | [] => s
  end.

Definition header : pystr :=
  center 50 (lit "***Clients phone numbers***")
  ++ [10%N] ++ ljust 10 (lit "Number") ++ lit " | "
  ++ ljust 20 (lit "User name") ++ lit " | "
  ++ ljust 300 (lit "Phone number") ++ lit " |" ++ [10%N].

Definition show_all (args : list pystr) : method AddressBook.t value :=
  (let! record_num :=
     eval (match args with
           | [] => Return None
           | a :: _ => let? n := int_of_str a in Return (Some n)
           end) in
   let! contacts := get in
   let! records := eval (AddressBook.iterator record_num contacts) in
   ret (VStr (show_chunks records header 1)))%py.

Definition good_bye (args : list pystr) : method AddressBook.t value :=
  match args with
  | [] => ret (VStr (lit "Good bye!"))
  | _ => raise TypeError
  end.

(** [today] is what [datetime.today()] gives at the call. *)
Definition show_days_to_birthday (today : Datetime.datetime)
    (args : list pystr) : method AddressBook.t value :=
  (let! name := eval (arg args 0) in
   let! contacts := get in
   match AddressBook.find name contacts with
   | Some record =>
       let! days_to_birthday :=
         eval (ClientRecord.days_to_birthday today record) in
       ret (VStr (lit "Days to the next birthday for the contact '"
                  ++ Name.value (ClientRecord.name record) ++ lit "' is "
                  ++ str_int days_to_birthday ++ lit " days"))
   | None => raise ValueError
   end)%py.

Definition unknown (args : list pystr) : method AddressBook.t value :=
  match args with
  | [] => ret (VStr (lit "Unknown command. Try again."))
  | _ => raise TypeError
  end.

End raw.

(** The functions of the module, decorated. *)
Definition hello args := input_error (raw.hello args).
Definition add_contact args := input_error (raw.add_contact args).
Definition change_phone args := input_error (raw.change_phone args).
Definition find_contact_phone args := input_error (raw.find_contact_phone args).
Definition show_all args := input_error (raw.show_all args).
Definition good_bye args := input_error (raw.good_bye args).
Definition show_days_to_birthday today args :=
  input_error (raw.show_days_to_birthday today args).
Definition unknown args := input_error (raw.unknown args).

(** The functions of the module as [COMMANDS] holds them, and a call
    [func( *args)] of one; [today] is what [datetime.today()] gives
    during the call. *)
Inductive func : Set :=
| Hello | AddContact | ChangePhone | FindContactPhone | ShowAll | GoodBye
| ShowDaysToBirthday | Unknown.

Definition call (f : func) (today : Datetime.datetime) (args : list pystr)
  : method world value :=
  match f with
  | Hello => hello args
  | AddContact => add_contact args
  | ChangePhone => change_phone args
  | FindContactPhone => find_contact_phone args
  | ShowAll => show_all args
  | GoodBye => good_bye args
  | ShowDaysToBirthday => show_days_to_birthday today args
  | Unknown => unknown args
  end.

(** The dict [COMMANDS], in the order in which it is written. *)
Definition COMMANDS : Dict.t func :=
  [ (lit "hello", Hello);
    (lit "add", AddContact);
    (lit "change", ChangePhone);
    (lit "phone", FindContactPhone);
    (lit "show all", ShowAll);
    (lit "good bye", GoodBye);
    (lit "close", GoodBye);
    (lit "exit", GoodBye);
    (lit "show days to birthday", ShowDaysToBirthday) ].

(** The loop of [parse_cli_command] over [COMMANDS.items()]. Nothing in
    the function raises, so that its wrapper returns what it returns. *)
Fixpoint parse_loop (cli_input : pystr) (items : list (pystr * func))
  : pystr * func * list pystr :=
  match items with
  | (command_name, f) :: rest =>
      if startswith (lower cli_input) command_name
      then (command_name, f,
            split (strip_spaces (drop (length command_name) cli_input)))
      else parse_loop cli_input rest
  | [] => (lit "unknown", Unknown, [])
  end.

Definition parse_cli_command (cli_input : pystr)
  : pystr * func * list pystr :=
  if bool_decide (cli_input = lit ".")
  then match Dict.get (lit "good bye") COMMANDS with
       | Some f => (lit "good_bye", f, [])
       | None => (lit "unknown", Unknown, [])   (* not reached *)
       end
  else parse_loop cli_input COMMANDS.

(** How [main] ends: by [break], by an exception that leaves it, or by
    the [EOFError] of [input] when nothing more is typed. *)
Inductive outcome : Set :=
| Stopped
| Escaped (e : exn)
| EndOfInput.

(** [main], over the lines that are typed and the time at which each is
    handled. *)
Fixpoint main (typed : list (Datetime.datetime * pystr)) (w : world)
  : world * outcome :=
  match typed with
  | (today, cli_input) :: rest =>
      let w := print Prompt w in
      let '(func_name, f, func_args) := parse_cli_command cli_input in
      match call f today func_args w with
      | (w, Return v) =>
          let w := print (Printed v) w in
          if bool_decide (func_name ∈ [lit "good bye"; lit "close"; lit "exit"])
          then (w, Stopped)
          else main rest w
      | (w, Raise e) => (w, Escaped e)
      end
  | [] => (print Prompt w, EndOfInput)
  end.

End bot.

(** ** Notions of the statements *)

(** The number of chunks of [len] items by [n]. *)
Definition chunk_count (len n : Z) : Z :=
  if 0 <? len then 1 + (len - 1) / n else 0.

(** The year of the next birthday as the specification words it: the
    current year when today's (month, day) is strictly earlier than the
    birth (month, day), the following year otherwise. *)
Definition claimed_birthday_year (today birth : Datetime.date) : Z :=
  if (Datetime.month today <? Datetime.month birth)
     || ((Datetime.month today =? Datetime.month birth)
         && (Datetime.day today <? Datetime.day birth))
  then Datetime.year today
  else Datetime.year today + 1.

(** The count as the specification words it: the days from the current
    date to that occurrence of the birth (day, month). *)
Definition claimed_days_to_birthday (today birth : Datetime.date) : Z :=
  Datetime._ymd2ord (claimed_birthday_year today birth)
                    (Datetime.month birth) (Datetime.day birth)
  - Datetime.toordinal today.

(** The year the code takes: the current year when today's (month, day)
    is earlier than the birth (month, day) or equal to it, the following
    year otherwise. *)
Definition next_birthday_year (today birth : Datetime.date) : Z :=
  if (Datetime.month today <? Datetime.month birth)
     || ((Datetime.month today =? Datetime.month birth)
         && (Datetime.day today <=? Datetime.day birth))
  then Datetime.year today
  else Datetime.year today + 1.

(** The fields of the time of day are in their ranges. *)
Definition valid_time (t : Datetime.datetime) : bool :=
  (0 <=? Datetime.hour t) && (Datetime.hour t <? 24)
  && (0 <=? Datetime.minute t) && (Datetime.minute t <? 60)
  && (0 <=? Datetime.second t) && (Datetime.second t <? 60)
  && (0 <=? Datetime.microsecond t) && (Datetime.microsecond t <? 1000000).

(** The time of day is midnight sharp. *)
Definition is_midnight (t : Datetime.datetime) : bool :=
  (Datetime.hour t =? 0) && (Datetime.minute t =? 0)
  && (Datetime.second t =? 0) && (Datetime.microsecond t =? 0).

(** The texts a pattern matches. *)
Fixpoint lang (p : re.pattern) (m : pystr) : Prop :=
  match p with
  | re.One k => exists c, m = [c] /\ re.in_charset k c = true
  | re.Plus k => m <> [] /\ forallb (re.in_charset k) m = true
  | re.Seq p q => exists m1 m2, m = m1 ++ m2 /\ lang p m1 /\ lang q m2
  | re.Alt p q => lang p m \/ lang q m
  end.

Definition in_range (a b : ascii) (c : codepoint) : bool :=
  re.in_charset (re.Range (chr a) (chr b)) c.

Definition is_char (a : ascii) (c : codepoint) : bool :=
  re.in_charset (re.Char (chr a)) c.

(** The texts of a day that [strptime] reads for [%d]: one digit 1-9; or
    two characters, 01-09, a digit 1 or 2 and any decimal digit, 30 or 31,
    or a blank and a digit 1-9. *)
Definition is_day_text (t : pystr) : bool :=
  match t with
  | [c] => in_range "1" "9" c
  | [c1; c2] =>
      (is_char "3" c1 && in_range "0" "1" c2)
      || (in_range "1" "2" c1 && is_decimal c2)
      || (is_char "0" c1 && in_range "1" "9" c2)
      || (is_char " " c1 && in_range "1" "9" c2)
  | _ => false
  end.

(** The texts of a month that it reads for [%m]: one digit 1-9, or 01-09,
    or 10-12. *)
Definition is_month_text (t : pystr) : bool :=
  match t with
  | [c] => in_range "1" "9" c
  | [c1; c2] =>
      (is_char "1" c1 && in_range "0" "2" c2)
      || (is_char "0" c1 && in_range "1" "9" c2)
  | _ => false
  end.

(** The texts of a year that it reads for [%Y]: four decimal digits. *)
Definition is_year_text (t : pystr) : bool :=
  match t with
  | [c1; c2; c3; c4] =>
      is_decimal c1 && is_decimal c2 && is_decimal c3 && is_decimal c4
  | _ => false
  end.

(** The value of an ASCII digit. *)
Definition ascii_digit_value (c : codepoint) : Z := Z.of_N c - 48.

Definition hyphen : codepoint := chr "-".

(** The number a text of digits stands for, as [int] reads it. *)
Definition text_value (t : pystr) : Z := digits_value (strip t).

(** The numbers two and four ASCII digits stand for. *)
Definition two_digits (c1 c2 : codepoint) : Z :=
  10 * ascii_digit_value c1 + ascii_digit_value c2.

Definition four_digits (c1 c2 c3 c4 : codepoint) : Z :=
  1000 * ascii_digit_value c1 + 100 * ascii_digit_value c2
  + 10 * ascii_digit_value c3 + ascii_digit_value c4.

(** A Birthday that holds the date [d]. *)
Definition birthday_of (d : Datetime.date) : Birthday.t :=
  Birthday.mk (Some d) (Some d).

(** The format of the specification: two digits, a hyphen, two digits, a
    hyphen, four digits, the digits being ASCII digits. *)
Definition is_DD_MM_YYYY (s : pystr) : bool :=
  match s with
  | [d1; d2; h1; m1; m2; h2; y1; y2; y3; y4] =>
      forallb is_ascii_digit [d1; d2; m1; m2; y1; y2; y3; y4]
      && (h1 =? hyphen)%N && (h2 =? hyphen)%N
  | _ => false
  end.

(** The keys of a dict, in insertion order. *)
Definition dict_keys {V} (d : Dict.t V) : list pystr := map fst d.

(** The texts that the setter of [Phone.value] stores. *)
Definition valid_phone_text (s : pystr) : bool :=
  (length s =? 10)%nat && forallb is_decimal s.

(** Every Phone of the Record holds such a text. *)
Definition phones_valid (r : ClientRecord.t) : Prop :=
  Forall (fun p => valid_phone_text (Phone.value p) = true)
         (ClientRecord.phones r).

(** No key twice, and every Record under the key that is its name. *)
Definition keys_unique (book : AddressBook.t) : Prop :=
  NoDup (dict_keys book).

Definition keyed_by_name (book : AddressBook.t) : Prop :=
  Forall (fun kv => Name.value (ClientRecord.name (snd kv)) = fst kv) book.

(** The four decimal digits of a number below 10000, as ASCII digits. *)
Definition digits4 (y : Z) : pystr :=
  map (fun k => (chr "0" + Z.to_N (y / k mod 10))%N) [1000; 100; 10; 1].

(** Every Record of the book has valid phones. *)
Definition book_phones_valid (book : AddressBook.t) : Prop :=
  Forall (fun kv => phones_valid (snd kv)) book.

(** The rows of the table for the Records [l], numbered from [start]. *)
Fixpoint rows (start : Z) (l : list ClientRecord.t) : pystr :=
  match l with
  | record :: rest => bot.raw.row start record ++ rows (start + 1) rest
  | [] => []
  end.

(** The table of chunks of [n] Records each: the rows of every chunk,
    numbered on from chunk to chunk, and a separator after each. *)
Fixpoint table (n : Z) (k : Z) (chunks : list (list ClientRecord.t)) : pystr :=
  match chunks with
  | chunk :: rest =>
      rows (1 + k * n) chunk ++ bot.raw.separator ++ table n (k + 1) rest
  | [] => []
  end.

(** A capital ASCII letter read as the small one, every other character
    as it is. *)
Definition ascii_lower (c : codepoint) : codepoint :=
  if ((0x41 <=? c) && (c <=? 0x5A))%N then (c + 32)%N else c.

(** The text starts with the command name when its capital ASCII letters
    are read as small ones. *)
Definition names (cli_input command_name : pystr) : bool :=
  startswith (map ascii_lower cli_input) command_name.

(** The words of the text after the first characters, as many as the
    command name has. *)
Definition words_after (command_name cli_input : pystr) : list pystr :=
  split (strip_spaces (drop (length command_name) cli_input)).

(** A name of ASCII characters without the letter k, in which the letter
    i is not the last character. *)
Fixpoint plain (name : pystr) : bool :=
  match name with
  | p :: name' =>
      (p <? 128)%N && negb (p =? 0x6B)%N
      && (negb (p =? 0x69)%N || match name' with [] => false | _ => true end)
      && plain name'
  | [] => true
  end.

(** A word: not empty, and without white space. *)
Definition is_word (a : pystr) : Prop :=
  a <> [] /\ Forall (fun c => is_space c = false) a.

(** The three invariants of the book together. *)
Definition book_ok (book : AddressBook.t) : Prop :=
  keys_unique book /\ keyed_by_name book /\ book_phones_valid book.

(** The names on which [main] leaves its loop, and the names of the
    commands that take no argument. *)
Definition stop_names : list pystr :=
  [lit "good bye"; lit "close"; lit "exit"].


(** ** Sample data *)

(** Ten Arabic-Indic digits, U+0660 to U+0669. *)
Definition arabic_indic_digits : pystr :=
  [0x660; 0x661; 0x662; 0x663; 0x664; 0x665; 0x666; 0x667; 0x668; 0x669]%N.

Definition phone_a : pystr := lit "0123456789".
Definition phone_b : pystr := lit "1111111111".
Definition phone_c : pystr := lit "9999999999".

(** [Record("Bob")], and the same after [add_phone("0123456789")]. *)
Definition bob : ClientRecord.t :=
  ClientRecord.mk (Name.mk (lit "Bob") (lit "Bob")) [] (Birthday.mk None None).

Definition bob_a : ClientRecord.t :=
  ClientRecord.set_phones [Phone.mk phone_a phone_a] bob.

(** [Record("")] *)
Definition nameless : ClientRecord.t :=
  ClientRecord.mk (Name.mk [] []) [] (Birthday.mk None None).

(** [Record(s)] for the names A to E, and the address book after adding
    them in that order. *)
Definition record_named (s : pystr) : ClientRecord.t :=
  ClientRecord.mk (Name.mk s s) [] (Birthday.mk None None).

Definition rec_A : ClientRecord.t := record_named (lit "A").
Definition rec_B : ClientRecord.t := record_named (lit "B").
Definition rec_C : ClientRecord.t := record_named (lit "C").
Definition rec_D : ClientRecord.t := record_named (lit "D").
Definition rec_E : ClientRecord.t := record_named (lit "E").

Definition book_A_to_E : AddressBook.t :=
  fold_left (fun book r => fst (AddressBook.add_record r book))
            [rec_A; rec_B; rec_C; rec_D; rec_E] AddressBook.new.

(** [Record("Bob", "15-03-1990")] and [Record("Bob", "29-02-2000")]. *)
Definition born_on (d : Datetime.date) : ClientRecord.t :=
  ClientRecord.mk (Name.mk (lit "Bob") (lit "Bob")) []
                  (Birthday.mk (Some d) (Some d)).

Definition march_15_1990 : Datetime.date := Datetime.mk_date 1990 3 15.
Definition feb_29_2000 : Datetime.date := Datetime.mk_date 2000 2 29.

(** The start of a day, and noon of it. *)
Definition midnight (y m d : Z) : Datetime.datetime :=
  Datetime.mk_datetime (Datetime.mk_date y m d) 0 0 0 0.
Definition noon (y m d : Z) : Datetime.datetime :=
  Datetime.mk_datetime (Datetime.mk_date y m d) 12 0 0 0.

(** * Properties *)

(** ** The matcher *)

Section Matcher.

Variable k : re.charset.

(** Every match of [k+] is a non-empty prefix of characters of [k]. *)
Lemma plus_matches_sound s m r :
  In (m, r) (re.plus_matches k s) ->
  m ++ r = s /\ forallb (re.in_charset k) m = true /\ m <> [].
Proof.
  revert m r; induction s as [|c s' IH]; intros m r; simpl; [tauto|].
  destruct (re.in_charset k c) eqn:Hc; [|simpl; tauto].
  rewrite in_app_iff, in_map_iff.
  intros [[[m' r'] [Heq Hin]]|[Heq|[]]]; simpl in Heq.
  - injection Heq as <- <-.
    destruct (IH _ _ Hin) as (Happ & Hall & _).
    simpl; rewrite Hc, Hall, Happ; repeat split; congruence.
  - injection Heq as <- <-; simpl; rewrite Hc; repeat split; congruence.
Qed.

(** A text made of characters of [k] is the first match of [k+] on it. *)
Lemma plus_matches_all s :
  s <> [] -> forallb (re.in_charset k) s = true ->
  head (re.plus_matches k s) = Some (s, []).
Proof.
  induction s as [|c s' IH]; [congruence|].
  intros _; simpl; intros [Hc Hall]%andb_prop; rewrite Hc.
  destruct s' as [|c' s'']; [reflexivity|].
  specialize (IH ltac:(congruence) Hall).
  destruct (re.plus_matches k (c' :: s'')) as [|mr l]; [discriminate|].
  simpl in IH |- *; injection IH as ->; reflexivity.
Qed.

(** What [re.search] finds for [k+] is no longer than the text, and as
    long only when the whole text is made of characters of [k]. *)
Lemma search_plus_length s g :
  re.search (re.Plus k) s = Some g ->
  (length g <= length s)%nat
  /\ (length g = length s -> forallb (re.in_charset k) s = true).
Proof.
  revert g; induction s as [|c s' IH]; intros g.
  - simpl; discriminate.
  - cbn [re.search re.matches].
    destruct (head (re.plus_matches k (c :: s'))) as [[m r]|] eqn:Hhd.
    + intros [= <-]; simpl fst.
      assert (Hin : In (m, r) (re.plus_matches k (c :: s'))).
      { destruct (re.plus_matches k (c :: s')); [discriminate|].
        simpl in Hhd; injection Hhd as ->; left; reflexivity. }
      destruct (plus_matches_sound _ _ _ Hin) as (Happ & Hall & _).
      rewrite <- Happ, length_app; split; [lia|].
      intros Hlen; destruct r; [|simpl in Hlen; lia].
      rewrite app_nil_r; exact Hall.
    + intros Hs; destruct (IH _ Hs) as [Hle _]; simpl; split; lia.
Qed.

Lemma search_plus_all s :
  s <> [] -> forallb (re.in_charset k) s = true ->
  re.search (re.Plus k) s = Some s.
Proof.
  intros Hne Hall; destruct s as [|c s']; [congruence|].
  cbn [re.search re.matches].
  rewrite (plus_matches_all _ Hne Hall); reflexivity.
Qed.

End Matcher.

(** ** Phone *)

(** The setter of [Phone.value] as a decision on the text. *)
Lemma Phone_value_setter_eq (s : pystr) :
  Phone.value_setter s =
  if (length s =? 10)%nat && forallb is_decimal s
  then Return s else Raise ValueError.
Proof.
  unfold Phone.value_setter.
  destruct (length s =? 10)%nat eqn:Hlen; [|reflexivity]; simpl.
  apply Nat.eqb_eq in Hlen.
  destruct (forallb is_decimal s) eqn:Hall.
  - rewrite (search_plus_all re.Digit s); [|destruct s; [discriminate|congruence]|exact Hall].
    rewrite Nat.eqb_refl; reflexivity.
  - destruct (re.search (re.Plus re.Digit) s) as [g|] eqn:Hs.
    + destruct (length g =? length s)%nat eqn:Hg; [|reflexivity].
      apply Nat.eqb_eq in Hg.
      destruct (search_plus_length re.Digit s g Hs) as [_ H].
      specialize (H Hg); change (forallb is_decimal s = true) in H.
      congruence.
    + rewrite Hlen; reflexivity.
Qed.

(** C1, as the code has it: for every string [s], [Phone(s)] succeeds if
    and only if [s] has exactly 10 characters and every character is a
    decimal digit in the sense of [\d] (a character of the Unicode category
    Nd, of which the ASCII digits are the first ten); when it does not
    succeed it raises [ValueError], and when it succeeds the value of the
    Phone and its rendering are [s]. *)
Theorem Phone_new_iff_ten_decimal_digits (s : pystr) :
  ((exists p, Phone.new s = Return p)
   <-> length s = 10%nat /\ forallb is_decimal s = true)
  /\ ((forall p, Phone.new s <> Return p) -> Phone.new s = Raise ValueError)
  /\ (forall p, Phone.new s = Return p ->
        Phone.value p = s /\ Phone.__str__ p = s)
  /\ (length s = 10%nat -> forallb is_ascii_digit s = true ->
        exists p, Phone.new s = Return p).
Proof.
  assert (Hascii : forall c, is_ascii_digit c = true -> is_decimal c = true).
  { intros c H; unfold is_decimal, Nd_blocks; cbn [existsb].
    unfold is_ascii_digit in H; rewrite H; reflexivity. }
  unfold Phone.new; rewrite Phone_value_setter_eq.
  destruct (length s =? 10)%nat eqn:Hlen;
    [apply Nat.eqb_eq in Hlen|apply Nat.eqb_neq in Hlen];
    destruct (forallb is_decimal s) eqn:Hall; simpl;
    (split; [split; [intros [p Hp]; try discriminate; auto
                    |intros [? ?]; try congruence; eauto]|]);
    (split; [intros H; try reflexivity; exfalso; eapply H; reflexivity|]);
    (split; [intros p Hp; try discriminate; injection Hp as <-; auto|]);
    intros Hl Ha; try congruence; eauto.
  exfalso. rewrite forallb_forall in Ha.
  assert (forallb is_decimal s = true); [|congruence].
  apply forallb_forall; auto.
Qed.

(** [Phone] accepts ten digits that are not ASCII digits: the claim that
    it accepts a text if and only if it is ten ASCII digits fails on the
    Arabic-Indic digits. *)
Lemma Phone_ascii_only_counterexample :
  ~ ((exists p, Phone.new arabic_indic_digits = Return p)
     <-> length arabic_indic_digits = 10%nat
         /\ forallb is_ascii_digit arabic_indic_digits = true).
Proof.
  intros [H _].
  destruct H as [_ H]; [eexists; vm_compute; reflexivity|].
  vm_compute in H; discriminate.
Qed.

Lemma Phone_new_witness :
  exists p, Phone.new phone_a = Return p.
Proof.
  apply (proj2 (proj2 (proj2 (Phone_new_iff_ten_decimal_digits phone_a))));
    reflexivity.
Defined.

(** ** The phone list of a Record *)

(** The loop of [get_phone_by_number] finds the first Phone of that value
    and its index. *)
Lemma get_phone_by_number_from_find k (ps : list Phone.t) n :
  ClientRecord.get_phone_by_number_from k ps n =
  match list_find (fun p => Phone.value p = n) ps with
  | Some (i, p) => (Some p, Some (k + i)%nat)
  | None => (None, None)
  end.
Proof.
  revert k; induction ps as [|p ps IH]; intros k; [reflexivity|].
  cbn [ClientRecord.get_phone_by_number_from list_find].
  unfold bool_decide. destruct (decide_rel eq (Phone.value p) n) as [Heq|Hne].
  - rewrite decide_True by exact Heq. simpl. f_equal. f_equal. lia.
  - rewrite decide_False by exact Hne. rewrite IH.
    destruct (list_find _ ps) as [[i q]|]; simpl; [|reflexivity].
    do 2 f_equal; lia.
Qed.

Lemma find_phone_Some r n p :
  ClientRecord.find_phone n r = Some p <->
  exists i, ClientRecord.get_phone_by_number n r = (Some p, Some i)
            /\ ClientRecord.phones r !! i = Some p /\ Phone.value p = n
            /\ forall j q, ClientRecord.phones r !! j = Some q ->
                           (j < i)%nat -> Phone.value q <> n.
Proof.
  unfold ClientRecord.find_phone, ClientRecord.get_phone_by_number.
  rewrite get_phone_by_number_from_find.
  destruct (list_find _ _) as [[i q]|] eqn:Hf; simpl.
  - apply list_find_Some in Hf as (Hl & Hv & Hfirst). split.
    + intros [= <-]. exists i. auto.
    + intros (j & Heq & _). congruence.
  - split; [discriminate|]. intros (j & Heq & _). discriminate.
Qed.

Lemma find_phone_None r n :
  ClientRecord.find_phone n r = None <->
  ClientRecord.get_phone_by_number n r = (None, None)
  /\ forall j q, ClientRecord.phones r !! j = Some q -> Phone.value q <> n.
Proof.
  unfold ClientRecord.find_phone, ClientRecord.get_phone_by_number.
  rewrite get_phone_by_number_from_find.
  destruct (list_find _ _) as [[i q]|] eqn:Hf; simpl.
  - apply list_find_Some in Hf as (Hl & Hv & _). split; [discriminate|].
    intros [_ H]. exfalso. exact (H _ _ Hl Hv).
  - split; [|reflexivity]. intros _. split; [reflexivity|].
    apply list_find_None in Hf. rewrite Forall_forall in Hf.
    intros j q Hl. apply Hf. eapply list_elem_of_lookup_2, Hl.
Qed.

Lemma set_phones_same r : ClientRecord.set_phones (ClientRecord.phones r) r = r.
Proof. destruct r; reflexivity. Qed.

(** The setter of a Phone that raises leaves the object as it was, and one
    that returns changes [_Phone__value] only. *)
Lemma Phone_set_value_cases new_phone p :
  (Phone.value_setter new_phone = Return new_phone
   /\ Phone.set_value new_phone p
      = (Phone.mk new_phone (Phone._Field__value p), Return tt))
  \/ (Phone.value_setter new_phone = Raise ValueError
      /\ Phone.set_value new_phone p = (p, Raise ValueError)).
Proof.
  unfold Phone.set_value. rewrite Phone_value_setter_eq.
  destruct (_ && _); [left|right]; split; reflexivity.
Qed.

(** [remove_phone] on a number that no stored Phone has hands [None] to
    [list.pop]. *)
Lemma remove_phone_absent r n :
  ClientRecord.find_phone n r = None ->
  ClientRecord.remove_phone n r = (r, Raise TypeError).
Proof.
  intros [Hg _]%find_phone_None. unfold ClientRecord.remove_phone.
  rewrite Hg. simpl. rewrite set_phones_same. reflexivity.
Qed.

(** C5: on the Record of Bob with the one phone 0123456789,
    [remove_phone("9999999999")], a number that matches no stored Phone,
    is no silent no-op: the lookup yields the index [None], [list.pop]
    raises [TypeError] for it, and only the phone list stays as it was. *)
Theorem remove_phone_absent_raises_TypeError :
  ClientRecord.new (lit "Bob") None = Return bob
  /\ fst (ClientRecord.add_phone phone_a bob) = bob_a
  /\ ClientRecord.find_phone phone_c bob_a = None
  /\ ClientRecord.remove_phone phone_c bob_a = (bob_a, Raise TypeError).
Proof. repeat split; vm_compute; reflexivity. Qed.

(** Assigning the property [value] of a Phone never changes what
    [__str__] renders. *)
Lemma Phone_set_value_str new_phone p :
  Phone.__str__ (fst (Phone.set_value new_phone p)) = Phone.__str__ p.
Proof.
  destruct (Phone_set_value_cases new_phone p) as [[_ ->]|[_ ->]]; reflexivity.
Qed.

(** C6: after [edit_phone("0123456789", "1111111111")] on the Record of
    Bob the stored Phone has the value 1111111111, and rendering it with
    [str] still gives 0123456789: [Field.__str__] reads [_Field__value],
    which only the constructor writes, while the setter of [value] writes
    [_Phone__value]. The rendering does not reflect the stored value. *)
Theorem edit_phone_leaves_str_stale :
  ClientRecord.new (lit "Bob") None = Return bob
  /\ fst (ClientRecord.add_phone phone_a bob) = bob_a
  /\ ClientRecord.edit_phone phone_a phone_b bob_a
     = (ClientRecord.set_phones [Phone.mk phone_b phone_a] bob, Return tt)
  /\ Phone.value (Phone.mk phone_b phone_a) = phone_b
  /\ Phone.__str__ (Phone.mk phone_b phone_a) = phone_a
  /\ phone_a <> phone_b.
Proof. repeat split; try (vm_compute; reflexivity). discriminate. Qed.

(** The rendering of the Record reads the property [value] and shows the
    new number. *)
Example Record_str_after_edit_phone :
  ClientRecord.__str__ bob_a = lit "Contact name: Bob, phones: 0123456789"
  /\ ClientRecord.__str__ (fst (ClientRecord.edit_phone phone_a phone_b bob_a))
     = lit "Contact name: Bob, phones: 1111111111".
Proof. split; vm_compute; reflexivity. Qed.

(** What a call of [edit_phone] does, case by case. *)
Lemma edit_phone_cases old new r :
  (ClientRecord.find_phone old r = None
   /\ ClientRecord.edit_phone old new r = (r, Raise ValueError))
  \/ (exists i p,
        ClientRecord.get_phone_by_number old r = (Some p, Some i)
        /\ ClientRecord.phones r !! i = Some p
        /\ Phone.value p = old
        /\ (forall j q, ClientRecord.phones r !! j = Some q ->
                        (j < i)%nat -> Phone.value q <> old)
        /\ ((Phone.value_setter new = Return new
             /\ ClientRecord.edit_phone old new r
                = (ClientRecord.set_phones
                     (<[i := Phone.mk new (Phone._Field__value p)]>
                        (ClientRecord.phones r)) r,
                   Return tt))
            \/ (Phone.value_setter new = Raise ValueError
                /\ ClientRecord.edit_phone old new r = (r, Raise ValueError)))).
Proof.
  destruct (ClientRecord.find_phone old r) as [p|] eqn:Hf.
  - right. apply find_phone_Some in Hf as (i & Hg & Hl & Hv & Hfirst).
    exists i, p. repeat (split; [assumption|]).
    unfold ClientRecord.edit_phone, ClientRecord.set_phone_value.
    rewrite Hg, Hl.
    destruct (Phone_set_value_cases new p) as [[Hs ->]|[Hs ->]]; [left|right];
      (split; [exact Hs|]); [reflexivity|].
    rewrite list_insert_id by exact Hl. rewrite set_phones_same. reflexivity.
  - left. split; [reflexivity|].
    apply find_phone_None in Hf as [Hg _].
    unfold ClientRecord.edit_phone. rewrite Hg. reflexivity.
Qed.

(** C8, as the code has it: after a successful [edit_phone(old, new)] the
    Phone at the first index where [old] was found has the value [new],
    in place, and nothing else of the Record has changed; [find_phone(new)]
    returns a Phone whose value is [new]; and [find_phone(old)] is absent
    exactly when [old] differs from [new] and no Phone at another index
    had the value [old]. *)
Theorem edit_phone_then_find_phone old new r r' :
  ClientRecord.edit_phone old new r = (r', Return tt) ->
  exists i p,
    ClientRecord.get_phone_by_number old r = (Some p, Some i)
    /\ ClientRecord.phones r !! i = Some p
    /\ r' = ClientRecord.set_phones
              (<[i := Phone.mk new (Phone._Field__value p)]>
                 (ClientRecord.phones r)) r
    /\ (exists q, ClientRecord.find_phone new r' = Some q /\ Phone.value q = new)
    /\ (ClientRecord.find_phone old r' = None
        <-> old <> new
            /\ forall j q, ClientRecord.phones r !! j = Some q ->
                           Phone.value q = old -> j = i).
Proof.
  intros He.
  destruct (edit_phone_cases old new r)
    as [[_ H]|(i & p & Hg & Hl & Hv & Hfirst & [[_ H]|[_ H]])];
    rewrite H in He; try discriminate.
  injection He as <-. exists i, p. repeat (split; [assumption || reflexivity|]).
  assert (Hi : (i < length (ClientRecord.phones r))%nat)
    by (eapply lookup_lt_Some, Hl).
  set (p' := Phone.mk new (Phone._Field__value p)).
  assert (Hl' : ClientRecord.phones
                  (ClientRecord.set_phones (<[i:=p']> (ClientRecord.phones r)) r)
                !! i = Some p')
    by (simpl; apply list_lookup_insert_eq, Hi).
  split.
  - destruct (ClientRecord.find_phone new _) as [q|] eqn:Hq.
    + exists q. split; [reflexivity|].
      apply find_phone_Some in Hq as (_ & _ & _ & Hqv & _). exact Hqv.
    + apply find_phone_None in Hq as [_ Hq]. exfalso.
      exact (Hq _ _ Hl' eq_refl).
  - rewrite find_phone_None. split.
    + intros [_ Hno]. split.
      * intros ->. exact (Hno _ _ Hl' eq_refl).
      * intros j q Hj Hqv. destruct (decide (j = i)) as [|Hne]; [assumption|].
        exfalso. refine (Hno j q _ Hqv). simpl.
        rewrite list_lookup_insert_ne by congruence. exact Hj.
    + intros [Hne Honly]. split.
      * destruct (ClientRecord.find_phone old
                    (ClientRecord.set_phones (<[i:=p']> (ClientRecord.phones r)) r))
          as [q|] eqn:Hq.
        -- exfalso. apply find_phone_Some in Hq as (j & _ & Hj & Hqv & _).
           simpl in Hj. destruct (decide (i = j)) as [<-|Hij].
           ++ rewrite list_lookup_insert_eq in Hj by exact Hi.
              injection Hj as <-. simpl in Hqv. congruence.
           ++ rewrite list_lookup_insert_ne in Hj by exact Hij.
              specialize (Honly _ _ Hj Hqv). congruence.
        -- apply find_phone_None in Hq as [Hq _]. exact Hq.
      * intros j q Hj Hqv. simpl in Hj. destruct (decide (i = j)) as [<-|Hij].
        -- rewrite list_lookup_insert_eq in Hj by exact Hi.
           injection Hj as <-. simpl in Hqv. congruence.
        -- rewrite list_lookup_insert_ne in Hj by exact Hij.
           specialize (Honly _ _ Hj Hqv). congruence.
Qed.

Lemma edit_phone_then_find_phone_witness :
  exists i p,
    ClientRecord.get_phone_by_number phone_a bob_a = (Some p, Some i)
    /\ ClientRecord.phones bob_a !! i = Some p
    /\ ClientRecord.set_phones [Phone.mk phone_b phone_a] bob
       = ClientRecord.set_phones
              (<[i := Phone.mk phone_b (Phone._Field__value p)]>
                 (ClientRecord.phones bob_a)) bob_a
    /\ (exists q, ClientRecord.find_phone phone_b
                    (ClientRecord.set_phones [Phone.mk phone_b phone_a] bob)
                  = Some q /\ Phone.value q = phone_b)
    /\ (ClientRecord.find_phone phone_a
          (ClientRecord.set_phones [Phone.mk phone_b phone_a] bob) = None
        <-> phone_a <> phone_b
            /\ forall j q, ClientRecord.phones bob_a !! j = Some q ->
                           Phone.value q = phone_a -> j = i).
Proof.
  apply (edit_phone_then_find_phone phone_a phone_b bob_a). reflexivity.
Defined.

(** [edit_phone(old, old)] succeeds and [find_phone(old)] still returns
    the Phone: the claim that it is absent after every successful edit
    fails. *)
Lemma edit_phone_same_number_counterexample :
  ClientRecord.edit_phone phone_a phone_a bob_a = (bob_a, Return tt)
  /\ ClientRecord.find_phone phone_a bob_a = Some (Phone.mk phone_a phone_a)
  /\ ClientRecord.find_phone phone_a bob_a <> None.
Proof. repeat split; try (vm_compute; reflexivity). discriminate. Qed.

(** The same with a number stored twice, which [add_phone] allows: the
    edit replaces the first of the two and [find_phone] finds the second. *)
Example edit_phone_duplicate_number :
  let twice := ClientRecord.set_phones
                 [Phone.mk phone_a phone_a; Phone.mk phone_a phone_a] bob in
  fst (ClientRecord.add_phone phone_a bob_a) = twice
  /\ ClientRecord.edit_phone phone_a phone_b twice
     = (ClientRecord.set_phones
          [Phone.mk phone_b phone_a; Phone.mk phone_a phone_a] bob, Return tt)
  /\ ClientRecord.find_phone phone_a
       (ClientRecord.set_phones
          [Phone.mk phone_b phone_a; Phone.mk phone_a phone_a] bob)
     = Some (Phone.mk phone_a phone_a).
Proof. repeat split; vm_compute; reflexivity. Qed.

(** ** Failures leave the state alone *)

(** C9: a call of [add_phone], [edit_phone], [add_birthday] or
    [add_record] that raises leaves the Record, respectively the address
    book, exactly as it was before the call. *)
Theorem failed_mutation_changes_nothing :
  (forall phone_num r e,
      snd (ClientRecord.add_phone phone_num r) = Raise e ->
      fst (ClientRecord.add_phone phone_num r) = r)
  /\ (forall old_phone new_phone r e,
         snd (ClientRecord.edit_phone old_phone new_phone r) = Raise e ->
         fst (ClientRecord.edit_phone old_phone new_phone r) = r)
  /\ (forall birthday r e,
         snd (ClientRecord.add_birthday birthday r) = Raise e ->
         fst (ClientRecord.add_birthday birthday r) = r)
  /\ (forall record book e,
         snd (AddressBook.add_record record book) = Raise e ->
         fst (AddressBook.add_record record book) = book).
Proof.
  repeat split.
  - intros n r e. unfold ClientRecord.add_phone, bind, eval.
    destruct (Phone.new n); simpl; [discriminate|reflexivity].
  - intros old new r e.
    destruct (edit_phone_cases old new r)
      as [[_ ->]|(i & p & _ & _ & _ & _ & [[_ ->]|[_ ->]])]; simpl;
      [reflexivity|discriminate|reflexivity].
  - intros b r e. unfold ClientRecord.add_birthday, bind, eval.
    destruct (Birthday.new b); simpl; [discriminate|reflexivity].
  - intros record book e. unfold AddressBook.add_record.
    destruct (negb _); simpl; [discriminate|reflexivity].
Qed.

Lemma failed_mutation_changes_nothing_witness :
  fst (ClientRecord.edit_phone phone_a (lit "12345") bob_a) = bob_a.
Proof.
  apply (proj1 (proj2 failed_mutation_changes_nothing)
               phone_a (lit "12345") bob_a ValueError).
  reflexivity.
Defined.

(** ** The address book *)

Lemma Dict_get_contains {V} key (d : Dict.t V) :
  Dict.contains key d = true <-> exists v, Dict.get key d = Some v.
Proof.
  unfold Dict.contains, Dict.get.
  induction d as [|kv d IH]; simpl.
  - split; [discriminate|intros [v [=]]].
  - destruct (bool_decide (kv.1 = key)); simpl; [|exact IH].
    split; eauto.
Qed.

Lemma Dict_get_setitem {V} key (v : V) (d : Dict.t V) :
  Dict.get key (Dict.setitem key v d) = Some v.
Proof.
  unfold Dict.get. induction d as [|kv d IH]; simpl.
  - rewrite bool_decide_eq_true_2; reflexivity.
  - destruct (bool_decide (kv.1 = key)) eqn:Hk; simpl.
    + rewrite bool_decide_eq_true_2; reflexivity.
    + rewrite Hk. exact IH.
Qed.

(** A new key goes to the end of the dict. *)
Lemma Dict_setitem_new {V} key (v : V) (d : Dict.t V) :
  Dict.contains key d = false -> Dict.setitem key v d = d ++ [(key, v)].
Proof.
  unfold Dict.contains. induction d as [|kv d IH]; simpl; [reflexivity|].
  destruct (bool_decide (kv.1 = key)); simpl; [discriminate|].
  intros H. rewrite (IH H). reflexivity.
Qed.

(** C2: when a Record is already present under the name key of [record],
    [add_record(record)] raises [RecordAlreadyExistsException], the
    address book is unchanged, and the key still leads to the Record that
    was there before. *)
Theorem add_record_existing_name (book : AddressBook.t)
    (original record : ClientRecord.t) :
  AddressBook.find (Name.value (ClientRecord.name record)) book = Some original ->
  AddressBook.add_record record book = (book, Raise RecordAlreadyExistsException)
  /\ AddressBook.find (Name.value (ClientRecord.name record))
       (fst (AddressBook.add_record record book)) = Some original.
Proof.
  intros Hf. unfold AddressBook.add_record.
  assert (Hc : Dict.contains (Name.value (ClientRecord.name record)) book = true)
    by (apply Dict_get_contains; eauto).
  rewrite Hc. simpl. split; [reflexivity|exact Hf].
Qed.

Lemma add_record_existing_name_witness :
  AddressBook.add_record bob_a [(lit "Bob", bob)]
  = ([(lit "Bob", bob)], Raise RecordAlreadyExistsException)
  /\ AddressBook.find (lit "Bob")
       (fst (AddressBook.add_record bob_a [(lit "Bob", bob)])) = Some bob.
Proof.
  apply (add_record_existing_name [(lit "Bob", bob)] bob bob_a). reflexivity.
Defined.

(** C10: [Name(s)] returns for every string [s], the empty one too, and
    stores [s] as it is; so [Record(s)] returns for every [s], and
    [add_record] inserts the Record of the empty name under the empty key
    into every address book that does not have that key. *)
Theorem Name_accepts_every_string :
  (forall s, Name.new s = Return (Name.mk s s))
  /\ (forall s, exists r, ClientRecord.new s None = Return r
                          /\ Name.value (ClientRecord.name r) = s)
  /\ ClientRecord.new [] None = Return nameless
  /\ (forall book, Dict.contains [] book = false ->
        AddressBook.add_record nameless book = (book ++ [([], nameless)], Return tt)
        /\ AddressBook.find [] (fst (AddressBook.add_record nameless book))
           = Some nameless).
Proof.
  split; [reflexivity|]. split; [intros s; eexists; split; reflexivity|].
  split; [reflexivity|]. intros book Hc.
  unfold AddressBook.add_record, AddressBook.find. cbn [nameless ClientRecord.name Name.value Name._Name__value].
  rewrite Hc. cbn [negb fst]. rewrite Dict_get_setitem, Dict_setitem_new by exact Hc.
  split; reflexivity.
Qed.

Lemma Name_accepts_every_string_witness :
  AddressBook.add_record nameless AddressBook.new = ([([], nameless)], Return tt)
  /\ AddressBook.find [] (fst (AddressBook.add_record nameless AddressBook.new))
     = Some nameless.
Proof.
  apply (proj2 (proj2 (proj2 Name_accepts_every_string)) AddressBook.new).
  reflexivity.
Defined.

(** ** Chunked iteration *)

(** A slice of [n] items from a non-negative start. *)
Lemma py_slice_chunk {A} (l : list A) (i n : Z) :
  0 <= i -> 0 <= n ->
  py_slice l i (i + n) = take (Z.to_nat n) (drop (Z.to_nat i) l).
Proof.
  intros Hi Hn. unfold py_slice, slice_index.
  rewrite (proj2 (Z.ltb_ge i 0)), (proj2 (Z.ltb_ge (i + n) 0)) by lia.
  destruct (Z_le_gt_dec (i + n) (Z.of_nat (length l))) as [H1|H1].
  - rewrite !Z.min_l by lia. do 2 f_equal. lia.
  - destruct (Z_le_gt_dec i (Z.of_nat (length l))) as [H2|H2].
    + rewrite (Z.min_l i), (Z.min_r (i + n)) by lia.
      rewrite !take_ge; [reflexivity|rewrite length_drop; lia..].
    + rewrite !Z.min_r by lia.
      rewrite (drop_ge l (Z.to_nat i)) by lia.
      rewrite Z.sub_diag, take_0, take_nil. reflexivity.
Qed.

(** Cutting a list into [cnt] pieces of [n] items gives the list back. *)
Lemma concat_chunks {A} (n cnt : nat) (l : list A) :
  (length l <= cnt * n)%nat ->
  concat (map (fun k => take n (drop (k * n) l)) (seq 0 cnt)) = l.
Proof.
  revert l; induction cnt as [|cnt IH]; intros l Hlen.
  - destruct l; [reflexivity|simpl in Hlen; lia].
  - rewrite <- cons_seq, <- seq_shift. cbn [map concat]. rewrite map_map.
    rewrite Nat.mul_0_l, drop_0.
    transitivity (take n l ++ drop n l); [|apply take_drop]. f_equal.
    rewrite <- (IH (drop n l)) at 1 by (rewrite length_drop; lia).
    f_equal. apply map_ext. intros k. rewrite drop_drop. reflexivity.
Qed.

Lemma chunk_count_bounds len n :
  0 <= len -> 1 <= n ->
  0 <= chunk_count len n
  /\ len <= chunk_count len n * n
  /\ (0 < len -> (chunk_count len n - 1) * n < len)
  /\ (len = 0 -> chunk_count len n = 0).
Proof.
  intros Hlen Hn. unfold chunk_count.
  destruct (0 <? len) eqn:Hpos; [apply Z.ltb_lt in Hpos|apply Z.ltb_ge in Hpos].
  - pose proof (Z.div_mod (len - 1) n ltac:(lia)) as Hdm.
    pose proof (Z.mod_pos_bound (len - 1) n ltac:(lia)) as Hmod.
    pose proof (Z.div_pos (len - 1) n ltac:(lia) ltac:(lia)) as Hq.
    repeat split; nia.
  - repeat split; lia.
Qed.

(** What the generator yields for a positive chunk size. *)
Lemma iterator_positive (book : AddressBook.t) (n : Z) :
  1 <= n ->
  AddressBook.iterator (Some n) book =
  Return (map (fun k => take (Z.to_nat n) (drop (k * Z.to_nat n) (Dict.values book)))
              (seq 0 (Z.to_nat (chunk_count (Z.of_nat (length (Dict.values book))) n)))).
Proof.
  intros Hn. unfold AddressBook.iterator, py_range. cbv zeta.
  rewrite !(proj2 (Z.eqb_neq n 0)), ?(proj2 (Z.ltb_lt 0 n)) by lia.
  cbv beta iota delta [result_bind]. f_equal. rewrite map_map. unfold chunk_count.
  rewrite Z.sub_0_r. apply map_ext. intros k.
  rewrite py_slice_chunk by lia. do 2 f_equal. lia.
Qed.

(** A Record that [add_record] accepts becomes the last value of the dict. *)
Lemma add_record_values record (book book' : AddressBook.t) :
  AddressBook.add_record record book = (book', Return tt) ->
  Dict.values book' = Dict.values book ++ [record].
Proof.
  unfold AddressBook.add_record.
  destruct (Dict.contains _ book) eqn:Hc; simpl; [discriminate|].
  intros [= <-]. rewrite Dict_setitem_new by exact Hc.
  unfold Dict.values. rewrite map_app. reflexivity.
Qed.

(** C3: for every address book and every chunk size [n >= 1] the
    generator of [iterator(n)] yields chunks that, one after the other,
    make up the Records of the book in insertion order: the chunk of
    index [k] is the [n] Records from position [k * n] on, every chunk
    has between 1 and [n] Records and every chunk but the last has [n].
    A chunk size of zero or none behaves as 1. *)
Theorem iterator_yields_chunks (book : AddressBook.t) :
  AddressBook.iterator None book = AddressBook.iterator (Some 1) book
  /\ AddressBook.iterator (Some 0) book = AddressBook.iterator (Some 1) book
  /\ (forall record book',
         AddressBook.add_record record book = (book', Return tt) ->
         Dict.values book' = Dict.values book ++ [record])
  /\ forall n, 1 <= n ->
       exists chunks,
         AddressBook.iterator (Some n) book = Return chunks
         /\ concat chunks = Dict.values book
         /\ forall k c, chunks !! k = Some c ->
              c = take (Z.to_nat n) (drop (k * Z.to_nat n) (Dict.values book))
              /\ (1 <= length c <= Z.to_nat n)%nat
              /\ (S k < length chunks -> length c = Z.to_nat n)%nat.
Proof.
  split; [reflexivity|]. split; [reflexivity|].
  split; [intros record book'; apply add_record_values|].
  intros n Hn. eexists. split; [apply iterator_positive, Hn|].
  set (l := Dict.values book).
  destruct (chunk_count_bounds (Z.of_nat (length l)) n ltac:(lia) Hn)
    as (Hc0 & Hcover & Hlast & Hempty).
  set (cnt := chunk_count (Z.of_nat (length l)) n) in *. clearbody cnt l.
  assert (Hcn : Z.of_nat (Z.to_nat cnt * Z.to_nat n) = cnt * n)
    by (rewrite Nat2Z.inj_mul, !Z2Nat.id; lia).
  split.
  - apply concat_chunks. lia.
  - intros k c Hk. rewrite length_map, length_seq.
    rewrite list_lookup_fmap in Hk.
    destruct (seq 0 (Z.to_nat cnt) !! k) as [k'|] eqn:Hseq; [|discriminate].
    apply lookup_seq in Hseq as [-> Hlt]. simpl in Hk. injection Hk as <-.
    split; [reflexivity|].
    rewrite length_take, length_drop.
    assert (Hpos : 0 < Z.of_nat (length l)) by lia.
    specialize (Hlast Hpos).
    assert (Hk : Z.of_nat k * n < Z.of_nat (length l)) by nia.
    assert (Hkn : Z.of_nat (k * Z.to_nat n) = Z.of_nat k * n)
      by (rewrite Nat2Z.inj_mul, Z2Nat.id; lia).
    split; [lia|]. intros Hnext.
    assert (Z.of_nat (S k) * n < Z.of_nat (length l)) by nia.
    lia.
Qed.

Lemma iterator_yields_chunks_witness :
  exists chunks,
    AddressBook.iterator (Some 2) book_A_to_E = Return chunks
    /\ concat chunks = Dict.values book_A_to_E
    /\ forall k c, chunks !! k = Some c ->
         c = take 2 (drop (k * 2) (Dict.values book_A_to_E))
         /\ (1 <= length c <= 2)%nat
         /\ (S k < length chunks -> length c = 2)%nat.
Proof.
  apply (proj2 (proj2 (proj2 (iterator_yields_chunks book_A_to_E))) 2). lia.
Defined.

(** The Records A to E by chunks of two. *)
Example iterator_A_to_E_by_two :
  Dict.values book_A_to_E = [rec_A; rec_B; rec_C; rec_D; rec_E]
  /\ AddressBook.iterator (Some 2) book_A_to_E
     = Return [[rec_A; rec_B]; [rec_C; rec_D]; [rec_E]]
  /\ AddressBook.iterator None book_A_to_E
     = Return [[rec_A]; [rec_B]; [rec_C]; [rec_D]; [rec_E]].
Proof. repeat split; vm_compute; reflexivity. Qed.

(** ** The birthday countdown *)

(** The days of the difference between a midnight and a time of the day
    [t]: the days between the two dates, less one unless [t] is midnight
    too. *)
Lemma days_sub_midnight (d : Datetime.date) (t : Datetime.datetime) :
  valid_time t = true ->
  Datetime.days (Datetime.sub (Datetime.mk_datetime d 0 0 0 0) t)
  = Datetime.toordinal d - Datetime.toordinal (Datetime.date_ t)
    - (if is_midnight t then 0 else 1).
Proof.
  unfold valid_time, is_midnight, Datetime.sub, Datetime.timedelta_new.
  destruct t as [td h m s us]; cbn [Datetime.days Datetime.hour Datetime.minute
    Datetime.second Datetime.microsecond Datetime.date_].
  intros Hv. repeat (apply andb_prop in Hv as [Hv ?]).
  repeat match goal with
         | H : (_ <=? _) = true |- _ => apply Z.leb_le in H
         | H : (_ <? _) = true |- _ => apply Z.ltb_lt in H
         end.
  set (a := (0 - us) / 1000000).
  assert (Ha : a = if us =? 0 then 0 else -1).
  { subst a. destruct (us =? 0) eqn:E;
      [apply Z.eqb_eq in E; subst; reflexivity|apply Z.eqb_neq in E].
    symmetry. apply (Z.div_unique _ _ _ (1000000 - us)); lia. }
  set (b := (0 + 0 * 60 + 0 * 3600 - (s + m * 60 + h * 3600) + a) / 86400).
  assert (Hb : b = if (h =? 0) && (m =? 0) && (s =? 0) && (us =? 0) then 0 else -1).
  { subst b. rewrite Ha.
    destruct (h =? 0) eqn:Eh, (m =? 0) eqn:Em, (s =? 0) eqn:Es, (us =? 0) eqn:Eu;
      cbn [andb];
      repeat match goal with
             | H : (_ =? _) = true |- _ => apply Z.eqb_eq in H
             | H : (_ =? _) = false |- _ => apply Z.eqb_neq in H
             end; subst; try reflexivity;
      symmetry;
      match goal with
      | |- _ = ?x / _ => apply (Z.div_unique _ _ _ (86400 + x)); lia
      end. }
  rewrite Hb. destruct (_ && _); lia.
Qed.

(** The test of the code on today's and the birth (month, day). *)
Lemma next_birthday_year_code (today birth : Datetime.date) :
  (if (Datetime.month birth <? Datetime.month today)
      || ((Datetime.month today =? Datetime.month birth)
          && (Datetime.day birth <? Datetime.day today))
   then Datetime.year today + 1 else Datetime.year today)
  = next_birthday_year today birth.
Proof.
  unfold next_birthday_year.
  destruct (Datetime.month birth <? Datetime.month today) eqn:E1,
           (Datetime.month today =? Datetime.month birth) eqn:E2,
           (Datetime.day birth <? Datetime.day today) eqn:E3,
           (Datetime.month today <? Datetime.month birth) eqn:E4,
           (Datetime.day today <=? Datetime.day birth) eqn:E5;
    cbn [orb andb]; try reflexivity; exfalso; lia.
Qed.

(** What [days_to_birthday] returns at any date and time: the target year
    is the current year when today's (month, day) is not later than the
    birth (month, day); when the birth (day, month) is a date of that year
    the result is the days between the two dates, less one unless [today]
    is a midnight; otherwise the call raises. *)
Lemma days_to_birthday_eq (r : ClientRecord.t)
    (today : Datetime.datetime) (birth : Datetime.date) :
  Birthday.value (ClientRecord.birthday r) = Some birth ->
  valid_time today = true ->
  let y := next_birthday_year (Datetime.date_ today) birth in
  ClientRecord.days_to_birthday today r =
  if Datetime._check_date_fields y (Datetime.month birth) (Datetime.day birth)
  then Return (Datetime._ymd2ord y (Datetime.month birth) (Datetime.day birth)
               - Datetime.toordinal (Datetime.date_ today)
               - (if is_midnight today then 0 else 1))
  else Raise ValueError.
Proof.
  intros Hb Hv y. unfold ClientRecord.days_to_birthday. rewrite Hb. cbv zeta.
  rewrite next_birthday_year_code. fold y.
  unfold Datetime.datetime_new, Datetime.date_new.
  destruct (Datetime._check_date_fields y _ _); [|reflexivity].
  cbn [result_bind]. rewrite days_sub_midnight by exact Hv. reflexivity.
Qed.

(** ** The calendar *)

Lemma div_pred (y k : Z) :
  0 < k -> (y - 1) / k = y / k - (if y mod k =? 0 then 1 else 0).
Proof.
  intros Hk. pose proof (Z.div_mod y k ltac:(lia)) as Hdm.
  pose proof (Z.mod_pos_bound y k Hk) as Hb.
  destruct (y mod k =? 0) eqn:E;
    [apply Z.eqb_eq in E|apply Z.eqb_neq in E]; symmetry.
  - apply (Z.div_unique _ _ _ (k - 1)); lia.
  - apply (Z.div_unique _ _ _ (y mod k - 1)); lia.
Qed.

(** A year has 365 days, and one more when it is a leap year. *)
Lemma days_before_year_succ y :
  Datetime._days_before_year (y + 1)
  = Datetime._days_before_year y + 365 + (if Datetime._is_leap y then 1 else 0).
Proof.
  unfold Datetime._days_before_year, Datetime._is_leap. cbv zeta.
  replace (y + 1 - 1) with y by lia.
  rewrite (div_pred y 4), (div_pred y 100), (div_pred y 400) by lia.
  assert (H100 : (y mod 100) mod 4 = y mod 4)
    by (apply Z.mod_mod_divide; exists 25; reflexivity).
  assert (H400 : (y mod 400) mod 100 = y mod 100)
    by (apply Z.mod_mod_divide; exists 4; reflexivity).
  destruct (y mod 4 =? 0) eqn:E4, (y mod 100 =? 0) eqn:E100,
           (y mod 400 =? 0) eqn:E400; cbn [andb orb negb];
    repeat match goal with
           | H : (_ =? _) = true |- _ => apply Z.eqb_eq in H
           | H : (_ =? _) = false |- _ => apply Z.eqb_neq in H
           end; try lia.
  all: exfalso.
  all: try (rewrite E400 in H400; change (0 mod 100) with 0 in H400; congruence).
  all: rewrite E100 in H100; change (0 mod 4) with 0 in H100; congruence.
Qed.

Ltac month_cases m :=
  let H := fresh in
  assert (H : m = 1 \/ m = 2 \/ m = 3 \/ m = 4 \/ m = 5 \/ m = 6 \/ m = 7
              \/ m = 8 \/ m = 9 \/ m = 10 \/ m = 11 \/ m = 12) by lia;
  repeat (destruct H as [H|H]); subst m.

(** The day of the year of a date is between 1 and the length of the year. *)
Lemma day_of_year_bounds y m d :
  1 <= m <= 12 -> 1 <= d <= Datetime._days_in_month y m ->
  1 <= Datetime._days_before_month y m + d
    <= 365 + (if Datetime._is_leap y then 1 else 0).
Proof.
  unfold Datetime._days_in_month, Datetime._days_before_month.
  intros Hm. month_cases m; destruct (Datetime._is_leap y); simpl; lia.
Qed.

(** Within a year the day of the year grows with (month, day). *)
Lemma day_of_year_mono y m1 d1 m2 d2 :
  1 <= m1 <= 12 -> 1 <= d1 <= Datetime._days_in_month y m1 ->
  1 <= m2 <= 12 -> 1 <= d2 <= Datetime._days_in_month y m2 ->
  m1 < m2 \/ (m1 = m2 /\ d1 <= d2) ->
  Datetime._days_before_month y m1 + d1 <= Datetime._days_before_month y m2 + d2
  /\ (m1 = m2 /\ d1 = d2
      \/ Datetime._days_before_month y m1 + d1
         < Datetime._days_before_month y m2 + d2).
Proof.
  unfold Datetime._days_in_month, Datetime._days_before_month.
  intros Hm1 Hd1 Hm2 Hd2 Hle.
  month_cases m1; month_cases m2; destruct (Datetime._is_leap y);
    simpl in *; lia.
Qed.

Lemma check_date_fields_iff y m d :
  Datetime._check_date_fields y m d = true <->
  1 <= y <= 9999 /\ 1 <= m <= 12 /\ 1 <= d <= Datetime._days_in_month y m.
Proof.
  unfold Datetime._check_date_fields, Datetime.MINYEAR, Datetime.MAXYEAR.
  rewrite !andb_true_iff, !Z.leb_le. tauto.
Qed.

(** C4, as the code has it: for a Record with a birthday set and the
    current date and time [today], the target year is the current year
    when today's (month, day) is earlier than or equal to the birth
    (month, day) and the following year otherwise. When the birth
    (day, month) is a date of the target year, and [today] is not a time
    after midnight of the birthday itself, [days_to_birthday()] returns
    the number of whole days, rounded down, from [today] to the midnight
    that starts that date: the days between the two dates when [today] is
    a midnight, one less at any later time of the day; it is not
    negative. *)
Theorem days_to_birthday_whole_days (r : ClientRecord.t)
    (today : Datetime.datetime) (birth : Datetime.date) :
  Birthday.value (ClientRecord.birthday r) = Some birth ->
  Datetime._check_date_fields (Datetime.year (Datetime.date_ today))
                              (Datetime.month (Datetime.date_ today))
                              (Datetime.day (Datetime.date_ today)) = true ->
  valid_time today = true ->
  let y := next_birthday_year (Datetime.date_ today) birth in
  Datetime._check_date_fields y (Datetime.month birth) (Datetime.day birth)
  = true ->
  is_midnight today = true
  \/ Datetime.month (Datetime.date_ today) <> Datetime.month birth
  \/ Datetime.day (Datetime.date_ today) <> Datetime.day birth ->
  exists n,
    ClientRecord.days_to_birthday today r = Return n
    /\ n = Datetime._ymd2ord y (Datetime.month birth) (Datetime.day birth)
           - Datetime.toordinal (Datetime.date_ today)
           - (if is_midnight today then 0 else 1)
    /\ 0 <= n.
Proof.
  intros Hb Ht Hv y Hc Hnot. eexists. split; [|split; [reflexivity|]].
  - rewrite (days_to_birthday_eq r today birth Hb Hv). fold y. rewrite Hc.
    reflexivity.
  - apply check_date_fields_iff in Ht as (_ & Htm & Htd).
    apply check_date_fields_iff in Hc as (_ & Hbm & Hbd).
    unfold Datetime.toordinal, Datetime._ymd2ord.
    destruct today as [[ty tm td] h mi s us]. destruct birth as [by_ bm bd].
    cbn [Datetime.date_ Datetime.year Datetime.month Datetime.day] in *.
    unfold next_birthday_year in y.
    cbn [Datetime.date_ Datetime.year Datetime.month Datetime.day] in y.
    destruct ((tm <? bm) || ((tm =? bm) && (td <=? bd))) eqn:E; subst y.
    + assert (Hle : tm < bm \/ (tm = bm /\ td <= bd)).
      { apply orb_prop in E as [E|[E1 E2]%andb_prop]; lia. }
      destruct (day_of_year_mono ty tm td bm bd Htm Htd Hbm Hbd Hle)
        as [Hmono Hstrict].
      destruct (is_midnight _); lia.
    + pose proof (days_before_year_succ ty) as Hy.
      pose proof (day_of_year_bounds ty tm td Htm Htd).
      pose proof (day_of_year_bounds (ty + 1) bm bd Hbm Hbd).
      destruct (is_midnight _); lia.
Qed.

Lemma days_to_birthday_whole_days_witness :
  exists n,
    ClientRecord.days_to_birthday (noon 2024 3 10) (born_on march_15_1990)
    = Return n
    /\ n = Datetime._ymd2ord 2024 3 15
           - Datetime.toordinal (Datetime.mk_date 2024 3 10)
           - (if is_midnight (noon 2024 3 10) then 0 else 1)
    /\ 0 <= n.
Proof.
  apply (days_to_birthday_whole_days (born_on march_15_1990)
           (noon 2024 3 10) march_15_1990);
    first [reflexivity | right; right; discriminate].
Defined.

(** On the birthday itself the code counts to the same day, not to the
    following year as the claim words it: at midnight of 2024-03-15 a
    birthday on 15 March is 0 days away, where the claim gives the 365
    days to 2025-03-15. *)
Lemma days_to_birthday_on_the_day_counterexample :
  ClientRecord.new (lit "Bob") (Some (lit "15-03-1990"))
  = Return (born_on march_15_1990)
  /\ ClientRecord.days_to_birthday (midnight 2024 3 15) (born_on march_15_1990)
     = Return 0
  /\ claimed_days_to_birthday (Datetime.date_ (midnight 2024 3 15)) march_15_1990
     = 365
  /\ ClientRecord.days_to_birthday (midnight 2024 3 15) (born_on march_15_1990)
     <> Return (claimed_days_to_birthday (Datetime.date_ (midnight 2024 3 15))
                                         march_15_1990).
Proof. repeat split; try (vm_compute; reflexivity). vm_compute. discriminate. Qed.

(** The countdown on the days of the specification's example, at the
    start of the day and at noon, and for a birthday on 29 February. *)
Example days_to_birthday_examples :
  ClientRecord.days_to_birthday (midnight 2024 3 10) (born_on march_15_1990) = Return 5
  /\ ClientRecord.days_to_birthday (noon 2024 3 10) (born_on march_15_1990) = Return 4
  /\ ClientRecord.days_to_birthday (midnight 2024 3 20) (born_on march_15_1990) = Return 360
  /\ Datetime.toordinal (Datetime.mk_date 2025 3 15)
     - Datetime.toordinal (Datetime.mk_date 2024 3 20) = 360
  /\ ClientRecord.days_to_birthday (noon 2024 3 15) (born_on march_15_1990) = Return (-1)
  /\ ClientRecord.days_to_birthday (midnight 2025 1 1) (born_on feb_29_2000) = Raise ValueError
  /\ ClientRecord.days_to_birthday (midnight 2024 3 10) bob = Raise ValueError.
Proof. repeat split; vm_compute; reflexivity. Qed.

(** ** The matcher finds the texts of the pattern *)

Lemma plus_matches_complete k m r :
  m <> [] -> forallb (re.in_charset k) m = true ->
  In (m, r) (re.plus_matches k (m ++ r)).
Proof.
  induction m as [|c m IH]; [congruence|].
  intros _; simpl; intros [Hc Hall]%andb_prop. rewrite Hc.
  apply in_app_iff. destruct m as [|c' m'].
  - right. left. reflexivity.
  - left. apply in_map_iff. exists (c' :: m', r). split; [reflexivity|].
    apply IH; [congruence|exact Hall].
Qed.

(** The matches of a pattern at the start of a text are the splits of the
    text into a text of the pattern and a rest. *)
Lemma matches_lang p : forall s m r,
  In (m, r) (re.matches p s) <-> lang p m /\ s = m ++ r.
Proof.
  induction p as [k|k|p IHp q IHq|p IHp q IHq]; intros s m r; simpl.
  - destruct s as [|c s']; simpl.
    + split; [tauto|]. intros [(c & -> & _) H]. discriminate.
    + destruct (re.in_charset k c) eqn:Hc; simpl.
      * split.
        -- intros [[= <- <-]|[]]. split; [exists c; auto|reflexivity].
        -- intros [(c' & -> & _) [= -> ->]]. left. reflexivity.
      * split; [tauto|]. intros [(c' & -> & Hc') [= -> ->]]. congruence.
  - split.
    + intros (Happ & Hall & Hne)%plus_matches_sound. auto.
    + intros [[Hne Hall] ->]. apply plus_matches_complete; assumption.
  - rewrite in_flat_map. split.
    + intros ([m1 r1] & H1 & H2). apply in_map_iff in H2 as ([m2 r2] & Heq & H2).
      simpl in Heq, H2. injection Heq as <- <-.
      apply IHp in H1 as [L1 ->]. apply IHq in H2 as [L2 ->].
      split; [exists m1, m2; auto|]. rewrite <- app_assoc. reflexivity.
    + intros [(m1 & m2 & -> & L1 & L2) ->]. exists (m1, m2 ++ r). split.
      * apply IHp. split; [exact L1|]. rewrite <- app_assoc. reflexivity.
      * apply in_map_iff. exists (m2, r). split; [reflexivity|].
        apply IHq. auto.
  - rewrite in_app_iff, IHp, IHq. tauto.
Qed.

(** ** The texts of the directives *)

Ltac split_tests :=
  repeat match goal with
         | H : (_ || _) = true |- _ => apply orb_prop in H as [H|H]
         | H : (_ && _) = true |- _ => apply andb_prop in H as [? ?]
         end.

Ltac break_lang :=
  repeat match goal with
         | H : _ \/ _ |- _ => destruct H as [H|H]
         | H : exists _, _ |- _ => destruct H as [? H]
         | H : _ /\ _ |- _ => destruct H as [? ?]
         end; subst.

Ltac use_tests :=
  unfold is_char, in_range;
  change (re.in_charset re.Digit) with is_decimal in *;
  repeat match goal with
         | H : _ = true |- _ => rewrite H; clear H
         end;
  rewrite ?orb_true_r; reflexivity.

Lemma lang_one k c : lang (re.One k) [c] <-> re.in_charset k c = true.
Proof.
  simpl. split; [intros (c' & [= <-] & H); exact H|eauto].
Qed.

Lemma lang_two k1 k2 c1 c2 :
  lang (re.Seq (re.One k1) (re.One k2)) [c1; c2]
  <-> re.in_charset k1 c1 = true /\ re.in_charset k2 c2 = true.
Proof.
  simpl. split.
  - intros (m1 & m2 & Heq & (a & -> & Ha) & (b & -> & Hb)).
    simpl in Heq. injection Heq as -> ->. auto.
  - intros [H1 H2]. exists [c1], [c2]. eauto 10.
Qed.

Lemma lang_re_d m : lang Datetime.re_d m <-> is_day_text m = true.
Proof.
  unfold Datetime.re_d, re.char, re.range, re.digit. split.
  - cbn [lang]. intros H. break_lang; cbn [app is_day_text]; use_tests.
  - destruct m as [|c1 [|c2 [|c3 m]]]; cbn [is_day_text]; try discriminate;
      intros H; cbn [lang]; fold (lang (re.One (re.Range (chr "1") (chr "9"))) [c1]).
    + right. right. right. left. apply lang_one. exact H.
    + split_tests.
      * left. apply lang_two. auto.
      * right. left. apply lang_two. auto.
      * right. right. left. apply lang_two. auto.
      * right. right. right. right. apply lang_two. auto.
Qed.

Lemma lang_re_m m : lang Datetime.re_m m <-> is_month_text m = true.
Proof.
  unfold Datetime.re_m, re.char, re.range. split.
  - cbn [lang]. intros H. break_lang; cbn [app is_month_text]; use_tests.
  - destruct m as [|c1 [|c2 [|c3 m]]]; cbn [is_month_text]; try discriminate;
      intros H; cbn [lang].
    + right. right. apply lang_one. exact H.
    + split_tests.
      * left. apply lang_two. auto.
      * right. left. apply lang_two. auto.
Qed.

Lemma lang_re_Y m : lang Datetime.re_Y m <-> is_year_text m = true.
Proof.
  unfold Datetime.re_Y, re.digit. split.
  - cbn [lang]. intros H. break_lang; cbn [app is_year_text]; use_tests.
  - destruct m as [|c1 [|c2 [|c3 [|c4 [|c5 m]]]]]; cbn [is_year_text];
      try discriminate.
    intros H. split_tests. cbn [lang].
    exists [c1], [c2; c3; c4]. split; [reflexivity|]. split; [eauto|].
    exists [c2], [c3; c4]. split; [reflexivity|]. split; [eauto|].
    exists [c3], [c4]. eauto 10.
Qed.

Lemma lang_re_hyphen m : lang Datetime.re_hyphen m <-> m = [hyphen].
Proof.
  unfold Datetime.re_hyphen, re.char. cbn [lang re.in_charset]. split.
  - intros (c & -> & ->%N.eqb_eq). reflexivity.
  - intros ->. exists hyphen. split; [reflexivity|apply N.eqb_refl].
Qed.

Ltac hyphen_test :=
  match goal with
  | H : is_char _ hyphen = true |- _ => vm_compute in H; discriminate H
  | H : in_range _ _ hyphen = true |- _ => vm_compute in H; discriminate H
  | H : is_decimal hyphen = true |- _ => vm_compute in H; discriminate H
  end.

(** No text of a day or of a month has a hyphen in it. *)
Lemma day_text_no_hyphen t : is_day_text t = true -> ~ In hyphen t.
Proof.
  destruct t as [|c1 [|c2 [|c3 t]]]; cbn [is_day_text]; try discriminate;
    intros H Hin; split_tests; simpl in Hin;
    repeat (destruct Hin as [->|Hin]); try contradiction; hyphen_test.
Qed.

Lemma month_text_no_hyphen t : is_month_text t = true -> ~ In hyphen t.
Proof.
  destruct t as [|c1 [|c2 [|c3 t]]]; cbn [is_month_text]; try discriminate;
    intros H Hin; split_tests; simpl in Hin;
    repeat (destruct Hin as [->|Hin]); try contradiction; hyphen_test.
Qed.

Lemma year_text_length t : is_year_text t = true -> length t = 4%nat.
Proof.
  destruct t as [|c1 [|c2 [|c3 [|c4 [|c5 t]]]]]; cbn [is_year_text];
    try discriminate; reflexivity.
Qed.

(** ** The pattern of the date format *)

Lemma format_matches_iff s d m y rest :
  In (d, m, y, rest) (Datetime.format_matches s) <->
  is_day_text d = true /\ is_month_text m = true /\ is_year_text y = true
  /\ s = d ++ hyphen :: m ++ hyphen :: y ++ rest.
Proof.
  unfold Datetime.format_matches. split.
  - intros ([d0 r1] & Hd & H)%in_flat_map.
    apply in_flat_map in H as ([h1 r2] & Hh1 & H).
    apply in_flat_map in H as ([m0 r3] & Hm & H).
    apply in_flat_map in H as ([h2 r4] & Hh2 & H).
    apply in_map_iff in H as ([y0 r5] & Heq & Hy).
    cbn [fst snd] in *. injection Heq as -> -> -> ->.
    apply matches_lang in Hd as [Ld ->], Hh1 as [Lh1 ->], Hm as [Lm ->],
      Hh2 as [Lh2 ->], Hy as [Ly ->].
    apply lang_re_hyphen in Lh1 as ->, Lh2 as ->.
    rewrite <- lang_re_d, <- lang_re_m, <- lang_re_Y. auto.
  - intros (Hd & Hm & Hy & ->).
    apply in_flat_map. exists (d, hyphen :: m ++ hyphen :: y ++ rest).
    split; [apply matches_lang; split; [apply lang_re_d, Hd|reflexivity]|].
    apply in_flat_map. exists ([hyphen], m ++ hyphen :: y ++ rest).
    split; [apply matches_lang; split; [apply lang_re_hyphen|]; reflexivity|].
    apply in_flat_map. exists (m, hyphen :: y ++ rest).
    split; [apply matches_lang; split; [apply lang_re_m, Hm|reflexivity]|].
    apply in_flat_map. exists ([hyphen], y ++ rest).
    split; [apply matches_lang; split; [apply lang_re_hyphen|]; reflexivity|].
    apply in_map_iff. exists (y, rest). split; [reflexivity|].
    apply matches_lang. split; [apply lang_re_Y, Hy|reflexivity].
Qed.

(** A text is cut at its first hyphen in one way only. *)
Lemma split_first {A} (h : A) (a a' b b' : list A) :
  ~ In h a -> ~ In h a' -> a ++ h :: b = a' ++ h :: b' -> a = a' /\ b = b'.
Proof.
  revert a'; induction a as [|x a IH]; intros [|x' a'] Ha Ha' Heq;
    simpl in *.
  - injection Heq as ->. auto.
  - injection Heq as <- _. tauto.
  - injection Heq as -> _. tauto.
  - injection Heq as -> Heq.
    destruct (IH a' ltac:(tauto) ltac:(tauto) Heq) as [-> ->]. auto.
Qed.

(** The pattern of the format matches a text in at most one way. *)
Lemma format_matches_unique s x x' :
  In x (Datetime.format_matches s) -> In x' (Datetime.format_matches s) ->
  x = x'.
Proof.
  destruct x as [[[d m] y] rest], x' as [[[d' m'] y'] rest'].
  intros (Hd & Hm & Hy & ->)%format_matches_iff
         (Hd' & Hm' & Hy' & Heq)%format_matches_iff.
  apply split_first in Heq as [-> Heq]; auto using day_text_no_hyphen.
  apply split_first in Heq as [-> Heq]; auto using month_text_no_hyphen.
  apply year_text_length in Hy, Hy'.
  apply app_inj_1 in Heq as [-> ->]; [reflexivity|congruence].
Qed.

Lemma format_matches_head s x :
  head (Datetime.format_matches s) = Some x <-> In x (Datetime.format_matches s).
Proof.
  split.
  - destruct (Datetime.format_matches s); [discriminate|].
    intros [= ->]. left. reflexivity.
  - intros Hin. destruct (Datetime.format_matches s) as [|x' l] eqn:Hl;
      [contradiction|].
    simpl. f_equal. apply (format_matches_unique s); rewrite Hl;
      [left; reflexivity|exact Hin].
Qed.

Lemma int_raises s e : int s = Raise e -> e = ValueError.
Proof. unfold int. destruct (_ && _); congruence. Qed.

(** [strptime] on the format of the birthdays: the dates it returns, and
    [ValueError] for everything else. *)
Lemma strptime_Return s dt :
  Datetime.strptime s = Return dt <->
  exists d m y dv mv yv,
    s = d ++ hyphen :: m ++ hyphen :: y
    /\ is_day_text d = true /\ is_month_text m = true /\ is_year_text y = true
    /\ int d = Return dv /\ int m = Return mv /\ int y = Return yv
    /\ Datetime._check_date_fields yv mv dv = true
    /\ dt = Datetime.mk_datetime (Datetime.mk_date yv mv dv) 0 0 0 0.
Proof.
  unfold Datetime.strptime, Datetime.datetime_new, Datetime.date_new. split.
  - destruct (head (Datetime.format_matches s)) as [[[[d m] y] rest]|] eqn:Hh;
      [|discriminate].
    apply format_matches_head, format_matches_iff in Hh as (Hd & Hm & Hy & ->).
    destruct rest; [|discriminate]. cbn [length Nat.eqb negb].
    destruct (int y) as [yv|] eqn:Ey; [|discriminate].
    destruct (int m) as [mv|] eqn:Em; [|discriminate].
    destruct (int d) as [dv|] eqn:Ed; [|discriminate].
    cbn [result_bind].
    destruct (Datetime._check_date_fields yv mv dv) eqn:Hc; [|discriminate].
    cbn [result_bind]. intros [= <-].
    exists d, m, y, dv, mv, yv. rewrite app_nil_r. auto 10.
  - intros (d & m & y & dv & mv & yv & -> & Hd & Hm & Hy & Ed & Em & Ey & Hc & ->).
    assert (Hh : head (Datetime.format_matches (d ++ hyphen :: m ++ hyphen :: y))
                 = Some (d, m, y, [])).
    { apply format_matches_head, format_matches_iff.
      rewrite app_nil_r. auto. }
    rewrite Hh. cbn [length Nat.eqb negb]. rewrite Ey, Em, Ed.
    cbn [result_bind]. rewrite Hc. reflexivity.
Qed.

Lemma strptime_raises s e : Datetime.strptime s = Raise e -> e = ValueError.
Proof.
  unfold Datetime.strptime, Datetime.datetime_new, Datetime.date_new.
  destruct (head _) as [[[[d m] y] rest]|]; [|congruence].
  destruct (negb _); [congruence|].
  destruct (int y) eqn:Ey; [|apply int_raises in Ey; cbn; congruence].
  destruct (int m) eqn:Em; [|apply int_raises in Em; cbn; congruence].
  destruct (int d) eqn:Ed; [|apply int_raises in Ed; cbn; congruence].
  cbn [result_bind]. destruct (Datetime._check_date_fields _ _ _); cbn; congruence.
Qed.

(** ** Birthday *)

Lemma is_decimal_not_space c :
  is_decimal c = true -> (c =? chr " ")%N = false.
Proof.
  intros H. destruct (N.eqb_spec c (chr " ")) as [->|]; [|reflexivity].
  vm_compute in H. discriminate.
Qed.

Lemma in_range_decimal (a b : ascii) c :
  (chr "0" <=? chr a)%N = true -> (chr b <=? chr "9")%N = true ->
  in_range a b c = true -> is_decimal c = true.
Proof.
  unfold in_range, re.in_charset, is_decimal, Nd_blocks. cbn [existsb].
  unfold in_block at 1. cbn [fst snd].
  intros Ha%N.leb_le Hb%N.leb_le [H1%N.leb_le H2%N.leb_le]%andb_prop.
  change 48%N with (chr "0"). change 57%N with (chr "9").
  rewrite (proj2 (N.leb_le _ _)), (proj2 (N.leb_le _ _)) by lia. reflexivity.
Qed.

Ltac decimal_tests :=
  repeat match goal with
         | H : in_range ?a ?b ?c = true |- _ =>
             apply (in_range_decimal a b c eq_refl eq_refl) in H
         | H : is_char ?a ?c = true |- _ =>
             apply N.eqb_eq in H; subst c
         end.

Lemma lstrip_decimal t : forallb is_decimal t = true -> lstrip t = t.
Proof.
  destruct t as [|c t]; [reflexivity|]. cbn [lstrip forallb].
  intros [Hc _]%andb_prop. rewrite (is_decimal_not_space c Hc). reflexivity.
Qed.

Lemma forallb_rev {A} (f : A -> bool) l :
  forallb f l = true -> forallb f (rev l) = true.
Proof.
  rewrite !forallb_forall. intros H x Hx. apply H, in_rev, Hx.
Qed.

Lemma strip_decimal t : forallb is_decimal t = true -> strip t = t.
Proof.
  intros H. unfold strip. rewrite (lstrip_decimal t H).
  rewrite (lstrip_decimal (rev t)) by (apply forallb_rev, H).
  apply rev_involutive.
Qed.

(** [int] converts a text of decimal digits. *)
Lemma int_decimal t :
  t <> [] -> forallb is_decimal t = true ->
  int t = Return (text_value t) /\ text_value t = digits_value t.
Proof.
  intros Hne H. unfold int, text_value. rewrite (strip_decimal t H), H.
  destruct t; [congruence|]. split; reflexivity.
Qed.

(** [int] converts every text that the patterns of the format capture. *)
Lemma int_day_text d : is_day_text d = true -> int d = Return (text_value d).
Proof.
  destruct d as [|c1 [|c2 [|c3 t]]]; cbn [is_day_text]; try discriminate;
    intros H; split_tests; decimal_tests;
    try (apply int_decimal; [discriminate|]; cbn [forallb];
         repeat match goal with
                | H : is_decimal _ = true |- _ => rewrite H; clear H
                end; reflexivity).
  unfold int, text_value, strip. cbn [lstrip]. rewrite N.eqb_refl.
  rewrite (is_decimal_not_space c2 H0). cbn [rev app lstrip].
  rewrite (is_decimal_not_space c2 H0).
  cbn [rev app forallb length Nat.eqb negb]. rewrite H0. reflexivity.
Qed.

Lemma int_month_text m : is_month_text m = true -> int m = Return (text_value m).
Proof.
  destruct m as [|c1 [|c2 [|c3 t]]]; cbn [is_month_text]; try discriminate;
    intros H; split_tests; decimal_tests;
    apply int_decimal; [discriminate| |discriminate| |discriminate|];
    cbn [forallb];
    repeat match goal with
           | H : is_decimal _ = true |- _ => rewrite H; clear H
           end; reflexivity.
Qed.

Lemma int_year_text y : is_year_text y = true -> int y = Return (text_value y).
Proof.
  destruct y as [|c1 [|c2 [|c3 [|c4 [|c5 t]]]]]; cbn [is_year_text];
    try discriminate.
  intros H; split_tests. apply int_decimal; [discriminate|]. cbn [forallb].
  repeat match goal with H : is_decimal _ = true |- _ => rewrite H; clear H end.
  reflexivity.
Qed.

(** The dates that [Birthday] accepts. *)
Lemma Birthday_new_Return s b :
  Birthday.new (Some s) = Return b <->
  exists d m y,
    s = d ++ hyphen :: m ++ hyphen :: y
    /\ is_day_text d = true /\ is_month_text m = true /\ is_year_text y = true
    /\ Datetime._check_date_fields (text_value y) (text_value m) (text_value d)
       = true
    /\ b = birthday_of (Datetime.mk_date (text_value y) (text_value m)
                                         (text_value d)).
Proof.
  unfold Birthday.new, Birthday.value_setter. split.
  - destruct (Datetime.strptime s) as [dt|] eqn:Hs; [|discriminate].
    apply strptime_Return in Hs
      as (d & m & y & dv & mv & yv & -> & Hd & Hm & Hy & Ed & Em & Ey & Hc & ->).
    rewrite (int_day_text d Hd) in Ed. rewrite (int_month_text m Hm) in Em.
    rewrite (int_year_text y Hy) in Ey.
    injection Ed as <-. injection Em as <-. injection Ey as <-.
    cbn. intros [= <-]. exists d, m, y. auto 10.
  - intros (d & m & y & -> & Hd & Hm & Hy & Hc & ->).
    rewrite (proj2 (strptime_Return _
               (Datetime.mk_datetime
                  (Datetime.mk_date (text_value y) (text_value m) (text_value d))
                  0 0 0 0))); [reflexivity|].
    exists d, m, y, (text_value d), (text_value m), (text_value y).
    auto 12 using int_day_text, int_month_text, int_year_text.
Qed.

Lemma Birthday_new_raises s e : Birthday.new s = Raise e -> e = ValueError.
Proof.
  unfold Birthday.new, Birthday.value_setter.
  destruct s as [s|]; [|discriminate].
  destruct (Datetime.strptime s); cbn; congruence.
Qed.

(** The ASCII digits. *)
Lemma ascii_digit_cases c :
  is_ascii_digit c = true ->
  (c = 48 \/ c = 49 \/ c = 50 \/ c = 51 \/ c = 52
   \/ c = 53 \/ c = 54 \/ c = 55 \/ c = 56 \/ c = 57)%N.
Proof.
  unfold is_ascii_digit, in_block. cbn [fst snd].
  intros [H1%N.leb_le H2%N.leb_le]%andb_prop. lia.
Qed.

Ltac ascii_cases H :=
  apply ascii_digit_cases in H;
  repeat (destruct H as [H|H]); subst.

Lemma ascii_digit_decimal c :
  is_ascii_digit c = true ->
  is_decimal c = true /\ decimal_value c = ascii_digit_value c /\ c <> hyphen.
Proof.
  intros H. ascii_cases H; repeat split; discriminate.
Qed.

(** Two ASCII digits are the text of a day when they stand for 1 to 31,
    and of a month when they stand for 1 to 12. *)
Lemma day_two_digits d1 d2 :
  is_ascii_digit d1 = true -> is_ascii_digit d2 = true ->
  (is_day_text [d1; d2] = true <-> 1 <= two_digits d1 d2 <= 31)
  /\ text_value [d1; d2] = two_digits d1 d2.
Proof.
  intros H1 H2. ascii_cases H1; ascii_cases H2;
    (split; [|reflexivity]); unfold two_digits, ascii_digit_value;
    (split; intros H; [first [discriminate H|simpl; lia]
                      |first [reflexivity|exfalso; simpl in H; lia]]).
Qed.

Lemma month_two_digits m1 m2 :
  is_ascii_digit m1 = true -> is_ascii_digit m2 = true ->
  (is_month_text [m1; m2] = true <-> 1 <= two_digits m1 m2 <= 12)
  /\ text_value [m1; m2] = two_digits m1 m2.
Proof.
  intros H1 H2. ascii_cases H1; ascii_cases H2;
    (split; [|reflexivity]); unfold two_digits, ascii_digit_value;
    (split; intros H; [first [discriminate H|simpl; lia]
                      |first [reflexivity|exfalso; simpl in H; lia]]).
Qed.

Lemma year_four_digits y1 y2 y3 y4 :
  is_ascii_digit y1 = true -> is_ascii_digit y2 = true ->
  is_ascii_digit y3 = true -> is_ascii_digit y4 = true ->
  is_year_text [y1; y2; y3; y4] = true
  /\ text_value [y1; y2; y3; y4] = four_digits y1 y2 y3 y4.
Proof.
  intros (D1 & V1 & _)%ascii_digit_decimal (D2 & V2 & _)%ascii_digit_decimal
         (D3 & V3 & _)%ascii_digit_decimal (D4 & V4 & _)%ascii_digit_decimal.
  assert (Hy : is_year_text [y1; y2; y3; y4] = true)
    by (cbn [is_year_text]; rewrite D1, D2, D3, D4; reflexivity).
  split; [exact Hy|].
  destruct (int_decimal [y1; y2; y3; y4]) as [_ ->];
    [discriminate|cbn [forallb]; rewrite D1, D2, D3, D4; reflexivity|].
  unfold digits_value, four_digits. cbn [fold_left]. rewrite V1, V2, V3, V4.
  lia.
Qed.

(** What makes the fields a date bounds the month and the day. *)
Lemma check_date_fields_bounds y m d :
  Datetime._check_date_fields y m d = true ->
  1 <= y <= 9999 /\ 1 <= m <= 12 /\ 1 <= d <= 31.
Proof.
  unfold Datetime._check_date_fields, Datetime.MINYEAR, Datetime.MAXYEAR.
  intros H. repeat (apply andb_prop in H as [H ?]).
  repeat match goal with H : (_ <=? _) = true |- _ => apply Z.leb_le in H end.
  assert (Hm : m = 1 \/ m = 2 \/ m = 3 \/ m = 4 \/ m = 5 \/ m = 6 \/ m = 7
               \/ m = 8 \/ m = 9 \/ m = 10 \/ m = 11 \/ m = 12) by lia.
  assert (Datetime._days_in_month y m <= 31).
  { unfold Datetime._days_in_month.
    repeat (destruct Hm as [Hm|Hm]); subst m;
      destruct (Datetime._is_leap y); simpl; lia. }
  lia.
Qed.

(** C7, as the code has it: [Birthday(s)] succeeds exactly for the texts
    day-month-year with hyphens between them where the day is written
    with one or two characters (1-9, 01-09, 10-29 with any decimal digit
    in the second place, 30, 31, or a blank and 1-9), the month with one
    or two (1-9, 01-09, 10-12), the year with four decimal digits, and the
    three numbers are a date of the years 1 to 9999; the stored value is
    that date. Every other text raises [ValueError]. In particular a text
    in the format DD-MM-YYYY of ASCII digits is accepted if and only if
    it denotes such a date. *)
Theorem Birthday_new_iff_date_text (s : pystr) :
  (forall b,
      Birthday.new (Some s) = Return b <->
      exists d m y,
        s = d ++ hyphen :: m ++ hyphen :: y
        /\ is_day_text d = true /\ is_month_text m = true
        /\ is_year_text y = true
        /\ Datetime._check_date_fields (text_value y) (text_value m)
                                       (text_value d) = true
        /\ b = birthday_of (Datetime.mk_date (text_value y) (text_value m)
                                             (text_value d)))
  /\ ((forall b, Birthday.new (Some s) <> Return b) ->
      Birthday.new (Some s) = Raise ValueError)
  /\ (forall d1 d2 m1 m2 y1 y2 y3 y4,
         s = [d1; d2; hyphen; m1; m2; hyphen; y1; y2; y3; y4] ->
         forallb is_ascii_digit [d1; d2; m1; m2; y1; y2; y3; y4] = true ->
         Birthday.new (Some s) =
         if Datetime._check_date_fields (four_digits y1 y2 y3 y4)
                                        (two_digits m1 m2) (two_digits d1 d2)
         then Return (birthday_of (Datetime.mk_date (four_digits y1 y2 y3 y4)
                                                    (two_digits m1 m2)
                                                    (two_digits d1 d2)))
         else Raise ValueError).
Proof.
  assert (Hraise : (forall b, Birthday.new (Some s) <> Return b) ->
                   Birthday.new (Some s) = Raise ValueError).
  { intros Hno. destruct (Birthday.new (Some s)) as [b|e] eqn:Hb.
    - exfalso. exact (Hno b eq_refl).
    - apply Birthday_new_raises in Hb as ->. reflexivity. }
  split; [intros b; apply Birthday_new_Return|]. split; [exact Hraise|].
  intros d1 d2 m1 m2 y1 y2 y3 y4 Hs Hall. cbn [forallb] in Hall.
  repeat (apply andb_prop in Hall as [? Hall]). clear Hall.
  destruct (day_two_digits d1 d2) as [Hd Vd]; [assumption..|].
  destruct (month_two_digits m1 m2) as [Hm Vm]; [assumption..|].
  destruct (year_four_digits y1 y2 y3 y4) as [Hy Vy]; [assumption..|].
  destruct (Datetime._check_date_fields _ _ _) eqn:Hc.
  - apply Birthday_new_Return. exists [d1; d2], [m1; m2], [y1; y2; y3; y4].
    rewrite Vd, Vm, Vy.
    apply check_date_fields_bounds in Hc as Hb.
    split; [exact Hs|]. split; [apply Hd; lia|]. split; [apply Hm; lia|]. auto.
  - apply Hraise. intros b (d & m & y & Heq & Td & Tm & Ty & Hc' & _)%Birthday_new_Return.
    rewrite Hs in Heq.
    change ([d1; d2; hyphen; m1; m2; hyphen; y1; y2; y3; y4])
      with ([d1; d2] ++ hyphen :: [m1; m2] ++ hyphen :: [y1; y2; y3; y4]) in Heq.
    assert (Hnd : ~ In hyphen [d1; d2]).
    { intros [->|[->|[]]];
        match goal with H : is_ascii_digit hyphen = true |- _ => discriminate H end. }
    assert (Hnm : ~ In hyphen [m1; m2]).
    { intros [->|[->|[]]];
        match goal with H : is_ascii_digit hyphen = true |- _ => discriminate H end. }
    apply split_first in Heq as [<- Heq]; auto using day_text_no_hyphen.
    apply split_first in Heq as [<- <-]; auto using month_text_no_hyphen.
    congruence.
Qed.

Lemma Birthday_new_iff_date_text_witness :
  Birthday.new (Some (lit "05-03-1990"))
  = Return (birthday_of (Datetime.mk_date 1990 3 5)).
Proof.
  apply (proj2 (proj2 (Birthday_new_iff_date_text (lit "05-03-1990")))
               (chr "0") (chr "5") (chr "0") (chr "3")
               (chr "1") (chr "9") (chr "9") (chr "0"));
    reflexivity.
Defined.

(** [Birthday("5-3-1990")] succeeds although the text has a one-digit day
    and a one-digit month: the claim that the construction succeeds for
    the texts of the format DD-MM-YYYY only fails on it. *)
Lemma Birthday_one_digit_day_counterexample :
  Birthday.new (Some (lit "5-3-1990"))
  = Return (birthday_of (Datetime.mk_date 1990 3 5))
  /\ is_DD_MM_YYYY (lit "5-3-1990") = false.
Proof. split; vm_compute; reflexivity. Qed.

(** More texts: a blank before the day, a date that does not exist, text
    left over, no birthday at all, and the rendering of the stored date. *)
Example Birthday_examples :
  Birthday.new (Some (lit " 5-03-1990"))
  = Return (birthday_of (Datetime.mk_date 1990 3 5))
  /\ Birthday.new (Some (lit "31-02-2021")) = Raise ValueError
  /\ Birthday.new (Some (lit "30-02-2020")) = Raise ValueError
  /\ Birthday.new (Some (lit "05-03-1990 ")) = Raise ValueError
  /\ Birthday.new (Some (lit "1990-03-05")) = Raise ValueError
  /\ Birthday.new (Some (lit "29-02-2000"))
     = Return (birthday_of (Datetime.mk_date 2000 2 29))
  /\ Birthday.new None = Return (Birthday.mk None None)
  /\ Birthday.__str__ (Birthday.mk None None) = lit "None"
  /\ Birthday.__str__ (birthday_of (Datetime.mk_date 1990 3 5))
     = lit "1990-03-05".
Proof. repeat split; vm_compute; reflexivity. Qed.

(** * Further properties *)

(** ** Lookup, insertion and deletion in the address book *)

Lemma Dict_get_app {V} key (d1 d2 : Dict.t V) :
  Dict.get key (d1 ++ d2) =
  match Dict.get key d1 with
  | Some v => Some v
  | None => Dict.get key d2
  end.
Proof.
  unfold Dict.get. induction d1 as [|kv d1 IH]; simpl; [reflexivity|].
  destruct (bool_decide (kv.1 = key)); simpl; [reflexivity|exact IH].
Qed.

Lemma Dict_contains_false {V} key (d : Dict.t V) :
  Dict.contains key d = false <-> Dict.get key d = None.
Proof.
  pose proof (Dict_get_contains key d) as H.
  destruct (Dict.contains key d), (Dict.get key d) as [v|]; split; intros E;
    try reflexivity; try discriminate.
  - destruct (proj1 H eq_refl) as [v E']. discriminate.
  - assert (true = false) by (symmetry; apply H; eauto). discriminate.
Qed.

Lemma Dict_contains_keys {V} key (d : Dict.t V) :
  Dict.contains key d = true <-> In key (dict_keys d).
Proof.
  unfold Dict.contains, dict_keys. induction d as [|kv d IH]; simpl.
  - split; [discriminate|tauto].
  - rewrite orb_true_iff, IH, bool_decide_eq_true. tauto.
Qed.

Lemma Dict_get_remove_eq {V} key (d : Dict.t V) :
  Dict.get key (Dict.remove key d) = None.
Proof.
  unfold Dict.get, Dict.remove, Dict.t. induction d as [|kv d IH]; [reflexivity|].
  rewrite filter_cons. destruct (decide (kv.1 <> key)) as [Hne|Heq]; [|exact IH].
  simpl. rewrite bool_decide_eq_false_2 by exact Hne. exact IH.
Qed.

Lemma Dict_get_remove_ne {V} key other (d : Dict.t V) :
  other <> key -> Dict.get other (Dict.remove key d) = Dict.get other d.
Proof.
  intros Hne. unfold Dict.get, Dict.remove, Dict.t.
  induction d as [|kv d IH]; [reflexivity|].
  rewrite filter_cons. destruct (decide (kv.1 <> key)) as [Hk|Hk]; simpl.
  - destruct (bool_decide (kv.1 = other)); simpl; [reflexivity|exact IH].
  - rewrite bool_decide_eq_false_2; [exact IH|].
    intros Heq. apply Hk. rewrite Heq. exact Hne.
Qed.

Lemma Dict_remove_absent {V} key (d : Dict.t V) :
  Dict.contains key d = false -> Dict.remove key d = d.
Proof.
  unfold Dict.contains, Dict.remove, Dict.t. induction d as [|kv d IH]; [reflexivity|].
  simpl. intros [Hk Hd]%orb_false_elim. apply bool_decide_eq_false in Hk.
  rewrite filter_cons_True by exact Hk. rewrite (IH Hd). reflexivity.
Qed.

(** X1: [delete(name)] never raises; afterwards [find(name)] is absent and
    every other name is found as before; an absent name leaves the book
    as it is, so deleting twice is deleting once. *)
Theorem delete_removes_the_name (name : pystr) (book : AddressBook.t) :
  exists book',
    AddressBook.delete name book = (book', Return tt)
    /\ AddressBook.find name book' = None
    /\ (forall other, other <> name ->
          AddressBook.find other book' = AddressBook.find other book)
    /\ (AddressBook.find name book = None -> book' = book)
    /\ AddressBook.delete name book' = (book', Return tt).
Proof.
  unfold AddressBook.delete, AddressBook.find.
  destruct (Dict.get name book) as [r|] eqn:Hg.
  - exists (Dict.remove name book). rewrite Dict_get_remove_eq.
    split; [reflexivity|]. split; [reflexivity|].
    split; [intros other Hne; apply Dict_get_remove_ne, Hne|].
    split; [discriminate|reflexivity].
  - exists book. rewrite Hg. auto.
Qed.

(** X2: [add_record] of a Record whose name is not yet a key returns, puts
    the Record last, and afterwards [find] returns that Record for its
    name and what it returned before for every other name; [delete] of the
    name then gives the book back as it was. *)
Theorem add_record_then_find (record : ClientRecord.t) (book : AddressBook.t) :
  let key := Name.value (ClientRecord.name record) in
  AddressBook.find key book = None ->
  AddressBook.add_record record book = (book ++ [(key, record)], Return tt)
  /\ AddressBook.find key (book ++ [(key, record)]) = Some record
  /\ (forall other, other <> key ->
        AddressBook.find other (book ++ [(key, record)])
        = AddressBook.find other book)
  /\ AddressBook.delete key (book ++ [(key, record)]) = (book, Return tt).
Proof.
  intros key Hf. unfold AddressBook.find in *.
  assert (Hc : Dict.contains key book = false) by (apply Dict_contains_false, Hf).
  assert (Hlast : Dict.get key [(key, record)] = Some record).
  { unfold Dict.get. simpl. rewrite bool_decide_eq_true_2; reflexivity. }
  split; [|split; [|split]].
  - unfold AddressBook.add_record. fold key. rewrite Hc. cbn [negb].
    rewrite Dict_setitem_new by exact Hc. reflexivity.
  - rewrite Dict_get_app, Hf. exact Hlast.
  - intros other Hne. rewrite Dict_get_app.
    destruct (Dict.get other book); [reflexivity|].
    unfold Dict.get. simpl. rewrite bool_decide_eq_false_2 by congruence.
    reflexivity.
  - unfold AddressBook.delete. rewrite Dict_get_app, Hf, Hlast.
    unfold Dict.remove, AddressBook.t, Dict.t. rewrite filter_app.
    change (filter _ book) with (Dict.remove key book). rewrite (Dict_remove_absent key book Hc).
    rewrite filter_cons_False by (simpl; tauto).
    rewrite filter_nil, app_nil_r. reflexivity.
Qed.

Lemma add_record_then_find_witness :
  AddressBook.add_record bob_a [(lit "A", rec_A)]
  = ([(lit "A", rec_A); (lit "Bob", bob_a)], Return tt)
  /\ AddressBook.find (lit "Bob") [(lit "A", rec_A); (lit "Bob", bob_a)]
     = Some bob_a
  /\ (forall other, other <> lit "Bob" ->
        AddressBook.find other [(lit "A", rec_A); (lit "Bob", bob_a)]
        = AddressBook.find other [(lit "A", rec_A)])
  /\ AddressBook.delete (lit "Bob") [(lit "A", rec_A); (lit "Bob", bob_a)]
     = ([(lit "A", rec_A)], Return tt).
Proof.
  apply (add_record_then_find bob_a [(lit "A", rec_A)]). reflexivity.
Defined.

(** X3: the address book keeps its two invariants, no name twice among the
    keys and every Record stored under its own name, through every call
    of [add_record] and [delete], whether the call returns or raises; the
    empty book has them. *)
Theorem book_invariants_kept :
  (keys_unique AddressBook.new /\ keyed_by_name AddressBook.new)
  /\ (forall record book,
         keys_unique book -> keyed_by_name book ->
         keys_unique (fst (AddressBook.add_record record book))
         /\ keyed_by_name (fst (AddressBook.add_record record book)))
  /\ (forall name book,
         keys_unique book -> keyed_by_name book ->
         keys_unique (fst (AddressBook.delete name book))
         /\ keyed_by_name (fst (AddressBook.delete name book))).
Proof.
  split; [split; [apply NoDup_nil_2|apply Forall_nil_2]|]. split.
  - intros record book Hu Hk. unfold AddressBook.add_record. cbv zeta.
    destruct (Dict.contains _ book) eqn:Hc; cbn [negb fst]; [auto|].
    rewrite Dict_setitem_new by exact Hc. split.
    + unfold keys_unique, dict_keys in *. rewrite map_app. simpl.
      apply NoDup_app. split; [exact Hu|]. split; [|apply NoDup_singleton].
      intros x Hx [<-|[]]%list_elem_of_In. apply list_elem_of_In in Hx.
      apply Dict_contains_keys in Hx. congruence.
    + apply Forall_app. split; [exact Hk|].
      apply Forall_singleton. reflexivity.
  - intros name book Hu Hk. unfold AddressBook.delete.
    destruct (Dict.get name book); cbn [fst]; [|auto].
    unfold Dict.remove, AddressBook.t, Dict.t in *. split.
    + unfold keys_unique, dict_keys in *.
      clear Hk. induction book as [|kv book IH]; [exact Hu|].
      simpl in Hu. apply NoDup_cons in Hu as [Hnot Hu].
      rewrite filter_cons. destruct (decide (kv.1 <> name)); [|auto].
      simpl. apply NoDup_cons. split; [|auto].
      intros Hin. apply Hnot.
      apply list_elem_of_fmap in Hin as (kv' & -> & Hin).
      apply list_elem_of_filter in Hin as [_ Hin].
      apply list_elem_of_fmap. eauto.
    + unfold keyed_by_name in *. apply Forall_forall.
      intros kv [_ Hin]%list_elem_of_filter.
      rewrite Forall_forall in Hk. auto.
Qed.

Lemma book_invariants_kept_witness :
  keys_unique (fst (AddressBook.add_record bob_a [(lit "Bob", bob)]))
  /\ keyed_by_name (fst (AddressBook.add_record bob_a [(lit "Bob", bob)])).
Proof.
  apply (proj1 (proj2 book_invariants_kept) bob_a [(lit "Bob", bob)]).
  - apply NoDup_singleton.
  - apply Forall_singleton. reflexivity.
Defined.

(** X4: in a book with these invariants [find(name)] returns a Record of
    that very name or nothing, and it returns nothing exactly when
    [add_record] of a Record of that name would succeed. *)
Theorem find_returns_the_named_record (name : pystr) (book : AddressBook.t) :
  keyed_by_name book ->
  (forall r, AddressBook.find name book = Some r ->
             Name.value (ClientRecord.name r) = name)
  /\ (AddressBook.find name book = None <->
      forall r, Name.value (ClientRecord.name r) = name ->
                snd (AddressBook.add_record r book) = Return tt).
Proof.
  intros Hk. split.
  - intros r Hf. unfold AddressBook.find, Dict.get in Hf.
    destruct (find _ book) as [kv|] eqn:Hfind; [|discriminate].
    simpl in Hf. injection Hf as <-.
    apply find_some in Hfind as [Hin Hkey]. apply bool_decide_eq_true in Hkey.
    unfold keyed_by_name in Hk. rewrite Forall_forall in Hk.
    rewrite <- Hkey. apply Hk.
    apply list_elem_of_In, Hin.
  - unfold AddressBook.find, AddressBook.add_record. split.
    + intros Hf r <-. apply Dict_contains_false in Hf. rewrite Hf. reflexivity.
    + intros H. apply Dict_contains_false.
      specialize (H (record_named name) eq_refl).
      cbn [record_named ClientRecord.name Name.value Name._Name__value] in H.
      destruct (Dict.contains name book); [discriminate|reflexivity].
Qed.

Lemma find_returns_the_named_record_witness :
  AddressBook.find (lit "C") book_A_to_E = Some rec_C
  /\ Name.value (ClientRecord.name rec_C) = lit "C".
Proof.
  split; [reflexivity|].
  apply (proj1 (find_returns_the_named_record (lit "C") book_A_to_E
                  ltac:(repeat constructor)) rec_C).
  reflexivity.
Defined.

(** ** The phone list *)

Lemma find_phone_app r (ps qs : list Phone.t) n :
  ClientRecord.find_phone n (ClientRecord.set_phones (ps ++ qs) r) =
  match ClientRecord.find_phone n (ClientRecord.set_phones ps r) with
  | Some p => Some p
  | None => ClientRecord.find_phone n (ClientRecord.set_phones qs r)
  end.
Proof.
  unfold ClientRecord.find_phone, ClientRecord.get_phone_by_number.
  cbn [ClientRecord.set_phones ClientRecord.phones].
  rewrite !get_phone_by_number_from_find.
  destruct (list_find _ ps) as [[i p]|] eqn:Hps.
  - rewrite (list_find_app_l _ _ _ _ _ Hps). reflexivity.
  - rewrite (list_find_app_r _ _ _ Hps).
    destruct (list_find _ qs) as [[j q]|]; reflexivity.
Qed.

Lemma valid_phone_text_new n :
  Phone.new n = if valid_phone_text n then Return (Phone.mk n n)
                else Raise ValueError.
Proof.
  unfold Phone.new, valid_phone_text. rewrite Phone_value_setter_eq.
  destruct (_ && _); reflexivity.
Qed.

(** What [add_phone] does: it appends the Phone of an accepted number and
    returns the message; for any other number it raises and the Record is
    as it was. *)
Lemma add_phone_cases (n : pystr) (r : ClientRecord.t) :
  (valid_phone_text n = true ->
   ClientRecord.add_phone n r
   = (ClientRecord.set_phones (ClientRecord.phones r ++ [Phone.mk n n]) r,
      Return (lit "Phone number '" ++ n
              ++ lit "' was successfully added to the contact '"
              ++ Name.value (ClientRecord.name r) ++ lit "'")))
  /\ (valid_phone_text n = false ->
      ClientRecord.add_phone n r = (r, Raise ValueError)).
Proof.
  unfold ClientRecord.add_phone, bind, eval, get, put, ret.
  rewrite valid_phone_text_new. split; intros Hv; rewrite Hv; reflexivity.
Qed.

(** X5: [add_phone(n)] appends a Phone of the value [n] at the end of the
    list when [n] is ten decimal digits, also when that number is stored
    already, and reports it; otherwise it raises [ValueError]. After a
    successful call [find_phone(n)] finds a Phone of that value, and the
    search for any other number gives what it gave before. *)
Theorem add_phone_appends (n : pystr) (r : ClientRecord.t) :
  (valid_phone_text n = true ->
   let r' := ClientRecord.set_phones
               (ClientRecord.phones r ++ [Phone.mk n n]) r in
   ClientRecord.add_phone n r
   = (r', Return (lit "Phone number '" ++ n
                  ++ lit "' was successfully added to the contact '"
                  ++ Name.value (ClientRecord.name r) ++ lit "'"))
   /\ (exists p, ClientRecord.find_phone n r' = Some p /\ Phone.value p = n)
   /\ (forall m, m <> n ->
         ClientRecord.find_phone m r' = ClientRecord.find_phone m r))
  /\ (valid_phone_text n = false ->
      ClientRecord.add_phone n r = (r, Raise ValueError)).
Proof.
  unfold ClientRecord.add_phone, bind, eval, get, put, ret.
  rewrite valid_phone_text_new. split; intros Hv; rewrite Hv; [|reflexivity].
  split; [reflexivity|].
  assert (Hsame : ClientRecord.set_phones (ClientRecord.phones r) r = r)
    by apply set_phones_same.
  split.
  - rewrite find_phone_app, Hsame.
    destruct (ClientRecord.find_phone n r) as [p|] eqn:Hf.
    + exists p. split; [reflexivity|].
      apply find_phone_Some in Hf as (_ & _ & _ & Hp & _). exact Hp.
    + exists (Phone.mk n n). split; [|reflexivity].
      unfold ClientRecord.find_phone, ClientRecord.get_phone_by_number. simpl.
      rewrite bool_decide_eq_true_2; reflexivity.
  - intros m Hne. rewrite find_phone_app, Hsame.
    destruct (ClientRecord.find_phone m r); [reflexivity|].
    unfold ClientRecord.find_phone, ClientRecord.get_phone_by_number. simpl.
    rewrite bool_decide_eq_false_2 by congruence. reflexivity.
Qed.

Lemma add_phone_appends_witness :
  ClientRecord.add_phone phone_b bob_a
  = (ClientRecord.set_phones
       [Phone.mk phone_a phone_a; Phone.mk phone_b phone_b] bob,
     Return (lit "Phone number '1111111111' was successfully added to the contact 'Bob'")).
Proof.
  apply (proj1 (add_phone_appends phone_b bob_a) eq_refl).
Defined.

(** X6: the lookup of [get_phone_by_number] returns either nothing for the
    Phone and for the index, when no stored Phone has the number, or the
    first Phone of the list that has it together with its index. *)
Theorem get_phone_by_number_first_match (n : pystr) (r : ClientRecord.t) :
  (ClientRecord.get_phone_by_number n r = (None, None)
   /\ forall j q, ClientRecord.phones r !! j = Some q -> Phone.value q <> n)
  \/ (exists i p,
        ClientRecord.get_phone_by_number n r = (Some p, Some i)
        /\ ClientRecord.phones r !! i = Some p
        /\ Phone.value p = n
        /\ forall j q, ClientRecord.phones r !! j = Some q ->
                       (j < i)%nat -> Phone.value q <> n).
Proof.
  destruct (ClientRecord.find_phone n r) as [p|] eqn:Hf.
  - right. apply find_phone_Some in Hf as (i & H). exists i, p. exact H.
  - left. apply find_phone_None, Hf.
Qed.

(** X7: [remove_phone(n)] on a stored number removes the first Phone that
    has it and nothing else: the Phones before and after it keep their
    order, the list gets one shorter, name and birthday stay. On a number
    that is not stored it raises [TypeError] and changes nothing. *)
Theorem remove_phone_removes_first (n : pystr) (r : ClientRecord.t) :
  (forall p, ClientRecord.find_phone n r = Some p ->
     exists i,
       ClientRecord.phones r !! i = Some p
       /\ (forall j q, ClientRecord.phones r !! j = Some q ->
                       (j < i)%nat -> Phone.value q <> n)
       /\ ClientRecord.remove_phone n r
          = (ClientRecord.set_phones
               (take i (ClientRecord.phones r)
                ++ drop (S i) (ClientRecord.phones r)) r,
             Return tt)
       /\ S (length (take i (ClientRecord.phones r)
                     ++ drop (S i) (ClientRecord.phones r)))
          = length (ClientRecord.phones r))
  /\ (ClientRecord.find_phone n r = None ->
      ClientRecord.remove_phone n r = (r, Raise TypeError)).
Proof.
  split; [|apply remove_phone_absent].
  intros p (i & Hg & Hl & _ & Hfirst)%find_phone_Some. exists i.
  split; [exact Hl|]. split; [exact Hfirst|].
  unfold ClientRecord.remove_phone, pop. rewrite Hg, Hl.
  rewrite delete_take_drop. split; [reflexivity|].
  rewrite <- delete_take_drop, length_delete by eauto.
  apply lookup_lt_Some in Hl. lia.
Qed.

Lemma remove_phone_removes_first_witness :
  exists i,
    ClientRecord.phones bob_a !! i = Some (Phone.mk phone_a phone_a)
    /\ (forall j q, ClientRecord.phones bob_a !! j = Some q ->
                    (j < i)%nat -> Phone.value q <> phone_a)
    /\ ClientRecord.remove_phone phone_a bob_a
       = (ClientRecord.set_phones
            (take i (ClientRecord.phones bob_a)
             ++ drop (S i) (ClientRecord.phones bob_a)) bob_a,
          Return tt)
    /\ S (length (take i (ClientRecord.phones bob_a)
                  ++ drop (S i) (ClientRecord.phones bob_a)))
       = length (ClientRecord.phones bob_a).
Proof.
  apply (proj1 (remove_phone_removes_first phone_a bob_a)). reflexivity.
Defined.

(** X8: adding a number that is not stored and removing it again gives
    the Record back as it was. *)
Theorem add_phone_then_remove_phone (n : pystr) (r : ClientRecord.t) :
  valid_phone_text n = true ->
  ClientRecord.find_phone n r = None ->
  ClientRecord.remove_phone n (fst (ClientRecord.add_phone n r))
  = (r, Return tt).
Proof.
  intros Hv Hf.
  rewrite (proj1 (add_phone_cases n r) Hv). cbn [fst].
  apply find_phone_None in Hf as [_ Hno].
  set (ps := ClientRecord.phones r) in *.
  assert (Hg : ClientRecord.get_phone_by_number n
                 (ClientRecord.set_phones (ps ++ [Phone.mk n n]) r)
               = (Some (Phone.mk n n), Some (length ps))).
  { unfold ClientRecord.get_phone_by_number.
    cbn [ClientRecord.set_phones ClientRecord.phones].
    rewrite get_phone_by_number_from_find.
    assert (Hnone : list_find (fun p => Phone.value p = n) ps = None).
    { apply list_find_None, Forall_forall. intros q Hq.
      apply list_elem_of_lookup in Hq as [j Hj]. eauto. }
    rewrite (list_find_app_r _ _ _ Hnone). cbn.
    rewrite decide_True by reflexivity. reflexivity. }
  unfold ClientRecord.remove_phone, pop. rewrite Hg.
  cbn [ClientRecord.set_phones ClientRecord.phones].
  rewrite list_lookup_middle by reflexivity.
  rewrite delete_middle, app_nil_r. cbn [result_bind].
  subst ps. destruct r. reflexivity.
Qed.

Lemma add_phone_then_remove_phone_witness :
  ClientRecord.remove_phone phone_b (fst (ClientRecord.add_phone phone_b bob_a))
  = (bob_a, Return tt).
Proof.
  apply (add_phone_then_remove_phone phone_b bob_a); reflexivity.
Defined.






(** ** Birthdays *)

(** X11: a Birthday never holds an impossible date: what [Birthday(b)]
    stores is no date when [b] is [None], and otherwise a date whose
    fields pass the check of [date(year, month, day)]; what [str] renders
    right after the construction is that stored value. *)
Theorem Birthday_stores_real_dates (b : option pystr) (bd : Birthday.t) :
  Birthday.new b = Return bd ->
  match Birthday.value bd with
  | None => b = None
  | Some d =>
      b <> None
      /\ Datetime._check_date_fields (Datetime.year d) (Datetime.month d)
                                     (Datetime.day d) = true
  end
  /\ Birthday.__str__ bd = str (Birthday.value bd).
Proof.
  destruct b as [s|].
  - intros (d & m & y & _ & _ & _ & _ & Hc & ->)%Birthday_new_Return.
    cbn. repeat split; [discriminate|exact Hc].
  - cbn. intros [= <-]. cbn. auto.
Qed.

Lemma Birthday_stores_real_dates_witness :
  match Birthday.value (birthday_of (Datetime.mk_date 1990 3 5)) with
  | None => Some (lit "05-03-1990") = None
  | Some d =>
      Some (lit "05-03-1990") <> None
      /\ Datetime._check_date_fields (Datetime.year d) (Datetime.month d)
                                     (Datetime.day d) = true
  end
  /\ Birthday.__str__ (birthday_of (Datetime.mk_date 1990 3 5))
     = str (Birthday.value (birthday_of (Datetime.mk_date 1990 3 5))).
Proof.
  apply (Birthday_stores_real_dates (Some (lit "05-03-1990"))). reflexivity.
Defined.

(** X12: [add_birthday(b)] that returns replaces the birthday by the new
    one and leaves the name and the phones alone; with [None] it always
    returns and erases the birthday, so that [days_to_birthday] raises
    [ValueError] afterwards, at any time. *)
Theorem add_birthday_replaces (b : option pystr) (r : ClientRecord.t) :
  (forall r' msg,
      ClientRecord.add_birthday b r = (r', Return msg) ->
      Birthday.new b = Return (ClientRecord.birthday r')
      /\ ClientRecord.name r' = ClientRecord.name r
      /\ ClientRecord.phones r' = ClientRecord.phones r
      /\ msg = lit "Birthday '" ++ str b
               ++ lit "' was successfully added to the birthday '"
               ++ Name.value (ClientRecord.name r) ++ lit "'")
  /\ (exists msg,
        ClientRecord.add_birthday None r
        = (ClientRecord.mk (ClientRecord.name r) (ClientRecord.phones r)
                           (Birthday.mk None None), Return msg))
  /\ (forall today,
        ClientRecord.days_to_birthday today
          (fst (ClientRecord.add_birthday None r)) = Raise ValueError).
Proof.
  unfold ClientRecord.add_birthday, bind, eval, get, put, ret.
  split; [|split; [eexists; reflexivity|reflexivity]].
  intros r' msg. destruct (Birthday.new b) as [bd|]; [|discriminate].
  intros [= <- <-]. auto.
Qed.

Lemma add_birthday_replaces_witness :
  Birthday.new (Some (lit "05-03-1990"))
  = Return (ClientRecord.birthday (born_on (Datetime.mk_date 1990 3 5)))
  /\ ClientRecord.name (born_on (Datetime.mk_date 1990 3 5))
     = ClientRecord.name bob
  /\ ClientRecord.phones (born_on (Datetime.mk_date 1990 3 5))
     = ClientRecord.phones bob
  /\ lit "Birthday '05-03-1990' was successfully added to the birthday 'Bob'"
     = lit "Birthday '" ++ str (Some (lit "05-03-1990"))
       ++ lit "' was successfully added to the birthday '"
       ++ Name.value (ClientRecord.name bob) ++ lit "'".
Proof.
  apply (proj1 (add_birthday_replaces (Some (lit "05-03-1990")) bob)).
  reflexivity.
Defined.

(** A month has the same length in every year, February apart. *)
Lemma days_in_month_years y y' m :
  m <> 2 -> Datetime._days_in_month y m = Datetime._days_in_month y' m.
Proof.
  intros Hm. unfold Datetime._days_in_month.
  rewrite (proj2 (Z.eqb_neq m 2) Hm). reflexivity.
Qed.

Lemma days_in_february y :
  Datetime._days_in_month y 2 = if Datetime._is_leap y then 29 else 28.
Proof. unfold Datetime._days_in_month. destruct (Datetime._is_leap y); reflexivity. Qed.

(** X13: for a Record whose birthday is a real date, at a valid date and
    time, [days_to_birthday] raises, and then [ValueError], in two cases
    only: the birthday is 29 February and the target year is no leap
    year, or the target year is past 9999. In every other case it returns
    a number. *)
Theorem days_to_birthday_raises_iff (r : ClientRecord.t)
    (today : Datetime.datetime) (birth : Datetime.date) :
  Birthday.value (ClientRecord.birthday r) = Some birth ->
  Datetime._check_date_fields (Datetime.year birth) (Datetime.month birth)
                              (Datetime.day birth) = true ->
  Datetime._check_date_fields (Datetime.year (Datetime.date_ today))
                              (Datetime.month (Datetime.date_ today))
                              (Datetime.day (Datetime.date_ today)) = true ->
  valid_time today = true ->
  let y := next_birthday_year (Datetime.date_ today) birth in
  let fails :=
    (Datetime.month birth = 2 /\ Datetime.day birth = 29
     /\ Datetime._is_leap y = false)
    \/ y = 10000 in
  (fails -> ClientRecord.days_to_birthday today r = Raise ValueError)
  /\ (~ fails -> exists n, ClientRecord.days_to_birthday today r = Return n).
Proof.
  intros Hb Hbirth Htoday Hv y fails.
  rewrite (days_to_birthday_eq r today birth Hb Hv). fold y.
  apply check_date_fields_iff in Hbirth as (_ & Hbm & Hbd).
  apply check_date_fields_iff in Htoday as (Hty & _ & _).
  assert (Hy : Datetime.year (Datetime.date_ today) <= y
               <= Datetime.year (Datetime.date_ today) + 1).
  { subst y. unfold next_birthday_year. destruct (_ || _); lia. }
  destruct (Datetime._check_date_fields y _ _) eqn:Hc.
  - split; [|eauto]. intros Hf. exfalso.
    apply check_date_fields_iff in Hc as (Hy' & _ & Hd).
    destruct Hf as [(Hm & Hd29 & Hleap)|Hf]; [|lia].
    rewrite Hm, days_in_february, Hleap in Hd. lia.
  - split; [reflexivity|]. intros Hnf. exfalso. apply Hnf. subst fails.
    destruct (Z.eq_dec y 10000) as [|Hny]; [right; assumption|left].
    assert (Hnot : ~ (1 <= y <= 9999 /\ 1 <= Datetime.month birth <= 12
                      /\ 1 <= Datetime.day birth
                         <= Datetime._days_in_month y (Datetime.month birth))).
    { intros H. apply check_date_fields_iff in H. congruence. }
    destruct (Z.eq_dec (Datetime.month birth) 2) as [Hm|Hm].
    + rewrite Hm in *. rewrite days_in_february in Hbd, Hnot.
      destruct (Datetime._is_leap y), (Datetime._is_leap (Datetime.year birth));
        exfalso; apply Hnot; lia.
    + exfalso. apply Hnot.
      rewrite (days_in_month_years y (Datetime.year birth)) by exact Hm. lia.
Qed.

Lemma days_to_birthday_raises_iff_witness :
  ClientRecord.days_to_birthday (midnight 2025 1 1) (born_on feb_29_2000)
  = Raise ValueError.
Proof.
  apply (proj1 (days_to_birthday_raises_iff (born_on feb_29_2000)
                  (midnight 2025 1 1) feb_29_2000
                  eq_refl eq_refl eq_refl eq_refl)).
  left. repeat split.
Defined.

(** Two years in a row are not both leap years. *)
Lemma leap_then_next_not y :
  Datetime._is_leap y = true -> Datetime._is_leap (y + 1) = false.
Proof.
  unfold Datetime._is_leap. intros [H4 _]%andb_prop. apply Z.eqb_eq in H4.
  assert (H : (y + 1) mod 4 = 1).
  { rewrite Z.add_mod, H4 by lia. reflexivity. }
  rewrite H. reflexivity.
Qed.

(** X14: the countdown is never more than 365 days: under the conditions
    in which it is the count of whole days to the next birthday, the
    number that [days_to_birthday] returns is between 0 and 365. *)
Theorem days_to_birthday_at_most_a_year (r : ClientRecord.t)
    (today : Datetime.datetime) (birth : Datetime.date) (n : Z) :
  Birthday.value (ClientRecord.birthday r) = Some birth ->
  Datetime._check_date_fields (Datetime.year (Datetime.date_ today))
                              (Datetime.month (Datetime.date_ today))
                              (Datetime.day (Datetime.date_ today)) = true ->
  valid_time today = true ->
  is_midnight today = true
  \/ Datetime.month (Datetime.date_ today) <> Datetime.month birth
  \/ Datetime.day (Datetime.date_ today) <> Datetime.day birth ->
  ClientRecord.days_to_birthday today r = Return n ->
  0 <= n <= 365.
Proof.
  intros Hb Ht Hv Hnot.
  rewrite (days_to_birthday_eq r today birth Hb Hv).
  destruct (Datetime._check_date_fields (next_birthday_year _ _) _ _) eqn:Hc;
    [|discriminate].
  intros [= Hn]. rewrite <- Hn. clear Hn n.
  apply check_date_fields_iff in Ht as (_ & Htm & Htd).
  apply check_date_fields_iff in Hc as (_ & Hbm & Hbd).
  unfold Datetime.toordinal, Datetime._ymd2ord.
  destruct today as [[ty tm td] h mi s us]. destruct birth as [by_ bm bd].
  cbn [Datetime.date_ Datetime.year Datetime.month Datetime.day] in *.
  unfold next_birthday_year in *.
  cbn [Datetime.date_ Datetime.year Datetime.month Datetime.day] in *.
  destruct ((tm <? bm) || ((tm =? bm) && (td <=? bd))) eqn:E.
  - assert (Hle : tm < bm \/ (tm = bm /\ td <= bd)).
    { apply orb_prop in E as [E|[E1 E2]%andb_prop]; lia. }
    destruct (day_of_year_mono ty tm td bm bd Htm Htd Hbm Hbd Hle)
      as [Hmono Hstrict].
    pose proof (day_of_year_bounds ty tm td Htm Htd).
    pose proof (day_of_year_bounds ty bm bd Hbm Hbd).
    destruct (is_midnight _), (Datetime._is_leap ty); lia.
  - assert (Hlt : bm < tm \/ (bm = tm /\ bd < td)).
    { apply orb_false_elim in E as [E1 E2]. apply Z.ltb_ge in E1.
      apply andb_false_iff in E2 as [E2|E2];
        [apply Z.eqb_neq in E2|apply Z.leb_gt in E2]; lia. }
    pose proof (days_before_year_succ ty) as Hy.
    pose proof (day_of_year_bounds ty tm td Htm Htd) as Bt.
    pose proof (day_of_year_bounds (ty + 1) bm bd Hbm Hbd) as Bb.
    assert (Hcmp : Datetime._days_before_month (ty + 1) bm + bd
                   <= Datetime._days_before_month ty tm + td
                      - (if Datetime._is_leap ty then 1 else 0)).
    { pose proof (leap_then_next_not ty) as Hl.
      unfold Datetime._days_in_month, Datetime._days_before_month in *.
      destruct (Datetime._is_leap ty) eqn:L1;
        [rewrite (Hl eq_refl) in *|destruct (Datetime._is_leap (ty + 1))];
        month_cases tm; month_cases bm; simpl in *; lia. }
    destruct (is_midnight _), (Datetime._is_leap ty); lia.
Qed.

Lemma days_to_birthday_at_most_a_year_witness :
  0 <= 360 <= 365.
Proof.
  apply (days_to_birthday_at_most_a_year (born_on march_15_1990)
           (midnight 2024 3 20) march_15_1990 360);
    first [reflexivity | left; reflexivity].
Defined.

(** ** The rendering of a birthday *)

Lemma format_0d_4 y : 0 <= y <= 9999 -> format_0d 4 y = digits4 y.
Proof.
  intros Hy.
  assert (Hall : forallb (fun k => bool_decide (format_0d 4 (Z.of_nat k)
                                                = digits4 (Z.of_nat k)))
                         (seq 0 (Z.to_nat 10000)) = true)
    by (vm_compute; reflexivity).
  rewrite forallb_forall in Hall.
  specialize (Hall (Z.to_nat y)). rewrite Z2Nat.id in Hall by lia.
  eapply bool_decide_eq_true_1, Hall, in_seq. lia.
Qed.

Lemma digits4_four_digits y1 y2 y3 y4 :
  is_ascii_digit y1 = true -> is_ascii_digit y2 = true ->
  is_ascii_digit y3 = true -> is_ascii_digit y4 = true ->
  0 <= four_digits y1 y2 y3 y4 <= 9999
  /\ digits4 (four_digits y1 y2 y3 y4) = [y1; y2; y3; y4].
Proof.
  unfold is_ascii_digit, in_block, four_digits, ascii_digit_value, digits4.
  cbn [fst snd map]. change (chr "0") with 48%N.
  intros [A1%N.leb_le B1%N.leb_le]%andb_prop [A2%N.leb_le B2%N.leb_le]%andb_prop
         [A3%N.leb_le B3%N.leb_le]%andb_prop [A4%N.leb_le B4%N.leb_le]%andb_prop.
  set (v := 1000 * (Z.of_N y1 - 48) + 100 * (Z.of_N y2 - 48)
            + 10 * (Z.of_N y3 - 48) + (Z.of_N y4 - 48)).
  assert (H1 : v / 1000 mod 10 = Z.of_N y1 - 48)
    by (subst v; Z.div_mod_to_equations; lia).
  assert (H2 : v / 100 mod 10 = Z.of_N y2 - 48)
    by (subst v; Z.div_mod_to_equations; lia).
  assert (H3 : v / 10 mod 10 = Z.of_N y3 - 48)
    by (subst v; Z.div_mod_to_equations; lia).
  assert (H4 : v / 1 mod 10 = Z.of_N y4 - 48)
    by (subst v; Z.div_mod_to_equations; lia).
  rewrite H1, H2, H3, H4. split; [subst v; lia|].
  repeat f_equal; lia.
Qed.

Lemma format_0d_2 c1 c2 :
  is_ascii_digit c1 = true -> is_ascii_digit c2 = true ->
  format_0d 2 (two_digits c1 c2) = [c1; c2].
Proof.
  intros H1 H2. ascii_cases H1; ascii_cases H2; reflexivity.
Qed.

(** A text in the format DD-MM-YYYY of ASCII digits is accepted when it
    denotes a date, and then that date is stored. *)
Lemma Birthday_new_DD_MM_YYYY d1 d2 m1 m2 y1 y2 y3 y4 b :
  forallb is_ascii_digit [d1; d2; m1; m2; y1; y2; y3; y4] = true ->
  Birthday.new (Some [d1; d2; hyphen; m1; m2; hyphen; y1; y2; y3; y4])
  = Return b ->
  b = birthday_of (Datetime.mk_date (four_digits y1 y2 y3 y4)
                                    (two_digits m1 m2) (two_digits d1 d2)).
Proof.
  intros Hall. cbn [forallb] in Hall.
  repeat (apply andb_prop in Hall as [? Hall]). clear Hall.
  destruct (day_two_digits d1 d2) as [_ Vd]; [assumption..|].
  destruct (month_two_digits m1 m2) as [_ Vm]; [assumption..|].
  destruct (year_four_digits y1 y2 y3 y4) as [_ Vy]; [assumption..|].
  intros (d & m & y & Heq & Td & Tm & Ty & _ & ->)%Birthday_new_Return.
  change ([d1; d2; hyphen; m1; m2; hyphen; y1; y2; y3; y4])
    with ([d1; d2] ++ hyphen :: [m1; m2] ++ hyphen :: [y1; y2; y3; y4]) in Heq.
  assert (Hnd : ~ In hyphen [d1; d2]).
  { intros [->|[->|[]]];
      match goal with H : is_ascii_digit hyphen = true |- _ => discriminate H end. }
  assert (Hnm : ~ In hyphen [m1; m2]).
  { intros [->|[->|[]]];
      match goal with H : is_ascii_digit hyphen = true |- _ => discriminate H end. }
  apply split_first in Heq as [<- Heq]; auto using day_text_no_hyphen.
  apply split_first in Heq as [<- <-]; auto using month_text_no_hyphen.
  rewrite Vd, Vm, Vy. reflexivity.
Qed.

(** X15: a birthday given as DD-MM-YYYY in ASCII digits is rendered by
    [str] as YYYY-MM-DD with the same digits. *)
Theorem Birthday_str_is_year_month_day d1 d2 m1 m2 y1 y2 y3 y4 b :
  forallb is_ascii_digit [d1; d2; m1; m2; y1; y2; y3; y4] = true ->
  Birthday.new (Some [d1; d2; hyphen; m1; m2; hyphen; y1; y2; y3; y4])
  = Return b ->
  Birthday.__str__ b = [y1; y2; y3; y4; hyphen; m1; m2; hyphen; d1; d2].
Proof.
  intros Hall Hb. rewrite (Birthday_new_DD_MM_YYYY _ _ _ _ _ _ _ _ _ Hall Hb).
  cbn [forallb] in Hall. repeat (apply andb_prop in Hall as [? Hall]).
  cbv [Birthday.__str__ birthday_of Birthday._Field__value str str_option
       str_date Datetime.isoformat Datetime.year Datetime.month Datetime.day].
  destruct (digits4_four_digits y1 y2 y3 y4) as [Hy Hd4]; [assumption..|].
  rewrite (format_0d_4 _ Hy), Hd4, !format_0d_2 by assumption. reflexivity.
Qed.

Lemma Birthday_str_is_year_month_day_witness :
  Birthday.__str__ (birthday_of (Datetime.mk_date 1990 3 5))
  = lit "1990-03-05".
Proof.
  apply (Birthday_str_is_year_month_day
           (chr "0") (chr "5") (chr "0") (chr "3")
           (chr "1") (chr "9") (chr "9") (chr "0")); reflexivity.
Defined.

Lemma digits4_not_hyphen y c : In c (digits4 y) -> c <> hyphen.
Proof.
  unfold digits4. cbn [map In]. change (chr "0") with 48%N.
  change hyphen with 45%N. intros H. repeat (destruct H as [<-|H]); lia.
Qed.

(** X16: what [str] renders for a stored birthday is never accepted as a
    birthday: [Birthday(str(d))] raises [ValueError] for every date [d]. *)
Theorem Birthday_rejects_its_rendering (d : Datetime.date) :
  Datetime._check_date_fields (Datetime.year d) (Datetime.month d)
                              (Datetime.day d) = true ->
  Birthday.new (Some (str d)) = Raise ValueError.
Proof.
  intros (Hy & _ & _)%check_date_fields_iff.
  destruct (Birthday.new (Some (str d))) as [b|e] eqn:Hb;
    [exfalso|apply Birthday_new_raises in Hb as ->; reflexivity].
  apply Birthday_new_Return in Hb as (dt & mt & yt & Heq & Td & _).
  cbv [str str_date Datetime.isoformat] in Heq.
  rewrite format_0d_4 in Heq by lia.
  pose proof (digits4_not_hyphen (Datetime.year d)) as Hno.
  unfold digits4 in Heq, Hno. cbn [map app In] in Heq, Hno.
  destruct dt as [|c1 [|c2 [|c3 dt]]]; cbn [is_day_text] in Td;
    try discriminate; cbn [app] in Heq.
  - injection Heq as _ Heq _. eapply Hno; [|exact Heq]. auto.
  - injection Heq as _ _ Heq _. eapply Hno; [|exact Heq]. auto.
Qed.

Lemma Birthday_rejects_its_rendering_witness :
  Birthday.new (Some (lit "1990-03-05")) = Raise ValueError.
Proof.
  apply (Birthday_rejects_its_rendering (Datetime.mk_date 1990 3 5)).
  reflexivity.
Defined.

(** ** The iterator at its edges *)

(** X17: [iterator] never raises, whatever the chunk size: a negative one
    yields no chunk at all, an empty book yields none either, and every
    other call yields chunks that make up all the values. *)
Theorem iterator_never_raises (record_num : option Z) (book : AddressBook.t) :
  exists chunks,
    AddressBook.iterator record_num book = Return chunks
    /\ (match record_num with
        | Some n => n < 0
        | None => False
        end -> chunks = [])
    /\ (book = [] -> chunks = [])
    /\ (match record_num with
        | Some n => 0 <= n
        | None => True
        end -> concat chunks = Dict.values book).
Proof.
  destruct record_num as [n|].
  - destruct (Z.ltb_spec n 0) as [Hneg|Hpos].
    + exists []. unfold AddressBook.iterator, py_range. cbv zeta.
      rewrite !(proj2 (Z.eqb_neq n 0)), (proj2 (Z.ltb_ge 0 n)) by lia.
      rewrite (proj2 (Z.ltb_ge _ 0)) by lia.
      split; [reflexivity|]. split; [reflexivity|]. split; [reflexivity|lia].
    + set (n' := if n =? 0 then 1 else n).
      assert (Hn' : 1 <= n') by (subst n'; destruct (Z.eqb_spec n 0); lia).
      assert (Heq : AddressBook.iterator (Some n) book
                    = AddressBook.iterator (Some n') book).
      { subst n'. destruct (Z.eqb_spec n 0) as [->|]; reflexivity. }
      rewrite Heq, (iterator_positive book n' Hn'). eexists.
      split; [reflexivity|]. split; [lia|]. split.
      * intros ->. reflexivity.
      * intros _. apply concat_chunks.
        destruct (chunk_count_bounds (Z.of_nat (length (Dict.values book))) n'
                    ltac:(lia) Hn') as (Hc0 & Hcover & _).
        assert (Z.of_nat (Z.to_nat (chunk_count
                   (Z.of_nat (length (Dict.values book))) n') * Z.to_nat n')
                = chunk_count (Z.of_nat (length (Dict.values book))) n' * n')
          by (rewrite Nat2Z.inj_mul, !Z2Nat.id; lia).
        lia.
  - change (AddressBook.iterator None book)
      with (AddressBook.iterator (Some 1) book).
    rewrite (iterator_positive book 1 ltac:(lia)). eexists.
    split; [reflexivity|]. split; [tauto|]. split.
    + intros ->. reflexivity.
    + intros _. apply concat_chunks.
      destruct (chunk_count_bounds (Z.of_nat (length (Dict.values book))) 1
                  ltac:(lia) ltac:(lia)) as (Hc0 & Hcover & _).
      lia.
Qed.

Lemma iterator_never_raises_witness :
  exists chunks,
    AddressBook.iterator (Some (-2)) book_A_to_E = Return chunks
    /\ chunks = [].
Proof.
  destruct (iterator_never_raises (Some (-2)) book_A_to_E)
    as (chunks & Hi & Hneg & _).
  exists chunks. split; [exact Hi|]. apply Hneg. lia.
Defined.

(** ** The commands *)

Lemma Dict_setitem_same {V} key (v : V) (d : Dict.t V) :
  Dict.get key d = Some v -> Dict.setitem key v d = d.
Proof.
  unfold Dict.get. induction d as [|kv d IH]; simpl; [discriminate|].
  destruct (bool_decide (kv.1 = key)) eqn:Hk; simpl.
  - intros [= <-]. apply bool_decide_eq_true in Hk. destruct kv. simpl in *.
    congruence.
  - intros H. rewrite (IH H). reflexivity.
Qed.

Lemma Dict_get_setitem_ne {V} key other (v : V) (d : Dict.t V) :
  other <> key -> Dict.get other (Dict.setitem key v d) = Dict.get other d.
Proof.
  intros Hne. unfold Dict.get. induction d as [|kv d IH]; simpl.
  - rewrite bool_decide_eq_false_2 by congruence. reflexivity.
  - destruct (bool_decide (kv.1 = key)) eqn:Hk; simpl.
    + apply bool_decide_eq_true in Hk.
      rewrite !bool_decide_eq_false_2 by congruence. reflexivity.
    + destruct (bool_decide (kv.1 = other)); simpl; [reflexivity|exact IH].
Qed.

Lemma Dict_keys_setitem {V} key (v : V) (d : Dict.t V) :
  Dict.contains key d = true -> dict_keys (Dict.setitem key v d) = dict_keys d.
Proof.
  unfold Dict.contains, dict_keys. induction d as [|kv d IH]; simpl;
    [discriminate|].
  destruct (bool_decide (kv.1 = key)) eqn:Hk; simpl.
  - intros _. apply bool_decide_eq_true in Hk. congruence.
  - intros H. rewrite (IH H). reflexivity.
Qed.

(** Writing a Record back under a key keeps a property of all entries. *)
Lemma Forall_setitem {V} (P : pystr * V -> Prop) key (v : V) (d : Dict.t V) :
  Forall P d -> P (key, v) -> Forall P (Dict.setitem key v d).
Proof.
  intros Hd Hv. induction Hd as [|kv d Hkv Hd IH]; simpl.
  - apply Forall_singleton, Hv.
  - destruct (bool_decide (kv.1 = key)); apply Forall_cons; auto.
Qed.

(** The path of [add_contact] that makes a new Record. *)
Lemma add_contact_new_record name phone birthday (c : AddressBook.t) :
  Dict.contains name c = false ->
  (let! rec := eval (ClientRecord.new name birthday) in
   let! rec := eval (bot.after (ClientRecord.add_phone phone) rec) in
   let! _ := AddressBook.add_record rec in
   ret (bot.VStr (lit "The contact with name '" ++ name ++ lit "', '" ++ phone
                  ++ lit "' and '" ++ str birthday
                  ++ lit "' has been successfully added")))%py c
  = match Birthday.new birthday with
    | Return bd =>
        if valid_phone_text phone
        then (c ++ [(name, ClientRecord.mk (Name.mk name name)
                                           [Phone.mk phone phone] bd)],
              Return (bot.VStr
                        (lit "The contact with name '" ++ name ++ lit "', '"
                         ++ phone ++ lit "' and '" ++ str birthday
                         ++ lit "' has been successfully added")))
        else (c, Raise ValueError)
    | Raise _ => (c, Raise ValueError)
    end.
Proof.
  intros Hc. unfold bind, eval, ret, ClientRecord.new, Name.new,
    Name.value_setter. cbn [result_bind].
  destruct (Birthday.new birthday) as [bd|e] eqn:Hbd; cbn [result_bind].
  - unfold bot.after. destruct (valid_phone_text phone) eqn:Hv.
    + rewrite (proj1 (add_phone_cases phone
                        (ClientRecord.mk (Name.mk name name) [] bd)) Hv).
      cbn [result_bind ClientRecord.set_phones ClientRecord.phones
           ClientRecord.name ClientRecord.birthday app].
      unfold AddressBook.add_record. cbv zeta.
      cbn [ClientRecord.set_phones ClientRecord.name ClientRecord.birthday
           Name.value Name._Name__value app].
      rewrite Hc. cbn [negb]. rewrite Dict_setitem_new by exact Hc.
      reflexivity.
    + rewrite (proj2 (add_phone_cases phone
                        (ClientRecord.mk (Name.mk name name) [] bd)) Hv).
      reflexivity.
  - apply Birthday_new_raises in Hbd as ->. reflexivity.
Qed.

(** [add_contact] on a name and a phone, by the cases of its test. *)
Lemma raw_add_contact_eq name phone rest (c : AddressBook.t) :
  bot.raw.add_contact (name :: phone :: rest) c =
  let birthday := head rest in
  let new_record :=
    (let! rec := eval (ClientRecord.new name birthday) in
     let! rec := eval (bot.after (ClientRecord.add_phone phone) rec) in
     let! _ := AddressBook.add_record rec in
     ret (bot.VStr (lit "The contact with name '" ++ name ++ lit "', '"
                    ++ phone ++ lit "' and '" ++ str birthday
                    ++ lit "' has been successfully added")))%py in
  match AddressBook.find name c with
  | Some rec =>
      match ClientRecord.find_phone phone rec with
      | None =>
          bot.with_record name rec
            (let! add_birthday_str := ClientRecord.add_birthday birthday in
             let! add_phone_str := ClientRecord.add_phone phone in
             ret (bot.VStr (lit "'" ++ add_birthday_str ++ lit "', '"
                            ++ add_phone_str ++ lit "'")))%py c
      | Some _ => new_record c
      end
  | None => new_record c
  end.
Proof.
  unfold bot.raw.add_contact, bot.arg. cbn [lookup list_lookup].
  unfold bind at 1 2 3, eval at 1 2, get. cbv zeta.
  replace (if (2 <? length (name :: phone :: rest))%nat
           then rest !! 0%nat else None) with (head rest)
    by (destruct rest; reflexivity).
  destruct (AddressBook.find name c) as [rec|]; [|reflexivity].
  unfold ClientRecord.find_phone.
  destruct (ClientRecord.get_phone_by_number phone rec).1; reflexivity.
Qed.

Lemma input_error_Return func (w : bot.world) c v :
  func (bot.contacts w) = (c, Return v) ->
  bot.input_error func w = (bot.mk_world c (bot.stdout w), Return v).
Proof. unfold bot.input_error. intros ->. reflexivity. Qed.

Lemma input_error_ValueError func (w : bot.world) c :
  func (bot.contacts w) = (c, Raise ValueError) ->
  bot.input_error func w
  = (bot.print (bot.Report bot.incorrect_values)
       (bot.mk_world c (bot.stdout w)), Return bot.VNone).
Proof. unfold bot.input_error. intros ->. reflexivity. Qed.

Lemma world_same (w : bot.world) :
  bot.mk_world (bot.contacts w) (bot.stdout w) = w.
Proof. destruct w. reflexivity. Qed.

(** X18: [add_contact] with a new name: when the phone is ten decimal
    digits and the birthday, if one is given, is accepted, the book gets a
    Record of that name with that one phone and that birthday at its end,
    and the command reports it; when the phone or the birthday is not
    accepted, the command prints that the values are incorrect, returns
    [None] and leaves the book as it was. *)
Theorem add_contact_new_name (name phone : pystr) (rest : list pystr)
    (w : bot.world) :
  AddressBook.find name (bot.contacts w) = None ->
  let birthday := head rest in
  match Birthday.new birthday with
  | Return bd =>
      if valid_phone_text phone
      then bot.add_contact (name :: phone :: rest) w
           = (bot.mk_world
                (bot.contacts w
                 ++ [(name, ClientRecord.mk (Name.mk name name)
                                            [Phone.mk phone phone] bd)])
                (bot.stdout w),
              Return (bot.VStr
                        (lit "The contact with name '" ++ name ++ lit "', '"
                         ++ phone ++ lit "' and '" ++ str birthday
                         ++ lit "' has been successfully added")))
      else bot.add_contact (name :: phone :: rest) w
           = (bot.print (bot.Report bot.incorrect_values) w, Return bot.VNone)
  | Raise _ =>
      bot.add_contact (name :: phone :: rest) w
      = (bot.print (bot.Report bot.incorrect_values) w, Return bot.VNone)
  end.
Proof.
  intros Hf birthday.
  pose proof (raw_add_contact_eq name phone rest (bot.contacts w)) as Heq.
  cbv zeta in Heq. rewrite Hf in Heq. fold birthday in Heq.
  rewrite add_contact_new_record in Heq by (apply Dict_contains_false, Hf).
  unfold bot.add_contact.
  destruct (Birthday.new birthday) as [bd|e];
    [destruct (valid_phone_text phone)|].
  - apply input_error_Return, Heq.
  - rewrite (input_error_ValueError _ _ _ Heq), world_same. reflexivity.
  - rewrite (input_error_ValueError _ _ _ Heq), world_same. reflexivity.
Qed.

Lemma add_contact_new_name_witness :
  bot.add_contact [lit "Bob"; phone_a] (bot.mk_world [] [])
  = (bot.mk_world [(lit "Bob", bob_a)] [],
     Return (bot.VStr (lit "The contact with name 'Bob', '0123456789' and 'None' has been successfully added"))).
Proof.
  apply (add_contact_new_name (lit "Bob") phone_a [] (bot.mk_world [] [])).
  reflexivity.
Defined.

(** The block of [add_contact] on a Record that is there. *)
Lemma add_contact_block birthday phone (rec : ClientRecord.t) :
  (let! add_birthday_str := ClientRecord.add_birthday birthday in
   let! add_phone_str := ClientRecord.add_phone phone in
   ret (bot.VStr (lit "'" ++ add_birthday_str ++ lit "', '"
                  ++ add_phone_str ++ lit "'")))%py rec
  = match Birthday.new birthday with
    | Return bd =>
        let rec1 := ClientRecord.mk (ClientRecord.name rec)
                                    (ClientRecord.phones rec) bd in
        if valid_phone_text phone
        then (ClientRecord.set_phones
                (ClientRecord.phones rec ++ [Phone.mk phone phone]) rec1,
              Return (bot.VStr
                (lit "'"
                 ++ (lit "Birthday '" ++ str birthday
                     ++ lit "' was successfully added to the birthday '"
                     ++ Name.value (ClientRecord.name rec) ++ lit "'")
                 ++ lit "', '"
                 ++ (lit "Phone number '" ++ phone
                     ++ lit "' was successfully added to the contact '"
                     ++ Name.value (ClientRecord.name rec) ++ lit "'")
                 ++ lit "'")))
        else (rec1, Raise ValueError)
    | Raise _ => (rec, Raise ValueError)
    end.
Proof.
  unfold bind at 1. unfold ClientRecord.add_birthday at 1.
  unfold bind at 1, eval at 1.
  destruct (Birthday.new birthday) as [bd|e] eqn:Hbd.
  - unfold bind at 1, get at 1. unfold bind at 1, put at 1, ret at 1.
    cbv zeta. unfold bind at 1.
    destruct (valid_phone_text phone) eqn:Hv.
    + rewrite (proj1 (add_phone_cases phone
                  (ClientRecord.mk (ClientRecord.name rec)
                                   (ClientRecord.phones rec) bd)) Hv).
      reflexivity.
    + rewrite (proj2 (add_phone_cases phone _) Hv). reflexivity.
  - apply Birthday_new_raises in Hbd as ->. reflexivity.
Qed.

(** [raw.add_contact] on the name of a Record that is there, with a
    number that the Record does not have. *)
Lemma raw_add_contact_existing (name phone : pystr) (rest : list pystr)
    (rec : ClientRecord.t) (contacts : AddressBook.t) :
  AddressBook.find name contacts = Some rec ->
  ClientRecord.find_phone phone rec = None ->
  bot.raw.add_contact (name :: phone :: rest) contacts
  = match Birthday.new (head rest) with
    | Return bd =>
        let rec1 := ClientRecord.mk (ClientRecord.name rec)
                                    (ClientRecord.phones rec) bd in
        if valid_phone_text phone
        then (Dict.setitem name
                (ClientRecord.set_phones
                   (ClientRecord.phones rec ++ [Phone.mk phone phone]) rec1)
                contacts,
              Return (bot.VStr
                (lit "'"
                 ++ (lit "Birthday '" ++ str (head rest)
                     ++ lit "' was successfully added to the birthday '"
                     ++ Name.value (ClientRecord.name rec) ++ lit "'")
                 ++ lit "', '"
                 ++ (lit "Phone number '" ++ phone
                     ++ lit "' was successfully added to the contact '"
                     ++ Name.value (ClientRecord.name rec) ++ lit "'")
                 ++ lit "'")))
        else (Dict.setitem name rec1 contacts, Raise ValueError)
    | Raise _ => (contacts, Raise ValueError)
    end.
Proof.
  intros Hf Hp.
  pose proof (raw_add_contact_eq name phone rest contacts) as Heq.
  cbv zeta in Heq. rewrite Hf, Hp in Heq.
  unfold bot.with_record in Heq. rewrite add_contact_block in Heq.
  rewrite Heq.
  destruct (Birthday.new (head rest)) as [bd|e];
    [cbv zeta; destruct (valid_phone_text phone); reflexivity|].
  rewrite (Dict_setitem_same _ _ _ Hf). reflexivity.
Qed.

(** X19: [add_contact] with the name of a Record that is there and a
    number that this Record does not have: when the birthday, if one is
    given, is accepted, the birthday of the Record is replaced by it, by
    no birthday when none is given, and then the number is appended when
    it is ten decimal digits; when it is not, the command prints that the
    values are incorrect and returns [None], and the birthday stays
    replaced. When the birthday is not accepted the book stays as it
    was. The Record keeps its place in the book. *)
Theorem add_contact_existing_name (name phone : pystr) (rest : list pystr)
    (rec : ClientRecord.t) (w : bot.world) :
  AddressBook.find name (bot.contacts w) = Some rec ->
  ClientRecord.find_phone phone rec = None ->
  let birthday := head rest in
  match Birthday.new birthday with
  | Return bd =>
      if valid_phone_text phone
      then exists msg,
          bot.add_contact (name :: phone :: rest) w
          = (bot.mk_world
               (Dict.setitem name
                  (ClientRecord.mk (ClientRecord.name rec)
                     (ClientRecord.phones rec ++ [Phone.mk phone phone]) bd)
                  (bot.contacts w))
               (bot.stdout w),
             Return (bot.VStr msg))
      else bot.add_contact (name :: phone :: rest) w
           = (bot.mk_world
                (Dict.setitem name
                   (ClientRecord.mk (ClientRecord.name rec)
                                    (ClientRecord.phones rec) bd)
                   (bot.contacts w))
                (bot.stdout w ++ [bot.Report bot.incorrect_values]),
              Return bot.VNone)
  | Raise _ =>
      bot.add_contact (name :: phone :: rest) w
      = (bot.print (bot.Report bot.incorrect_values) w, Return bot.VNone)
  end.
Proof.
  intros Hf Hp birthday.
  pose proof (raw_add_contact_existing name phone rest rec _ Hf Hp) as Heq.
  fold birthday in Heq. unfold bot.add_contact.
  destruct (Birthday.new birthday) as [bd|e];
    [cbv zeta in Heq; destruct (valid_phone_text phone)|].
  - eexists. apply input_error_Return, Heq.
  - rewrite (input_error_ValueError _ _ _ Heq). reflexivity.
  - rewrite (input_error_ValueError _ _ _ Heq), world_same. reflexivity.
Qed.

Lemma add_contact_existing_name_witness :
  exists msg,
    bot.add_contact [lit "Bob"; phone_b; lit "05-03-1990"]
                    (bot.mk_world [(lit "Bob", bob_a)] [])
    = (bot.mk_world
         (Dict.setitem (lit "Bob")
            (ClientRecord.mk (ClientRecord.name bob_a)
               (ClientRecord.phones bob_a ++ [Phone.mk phone_b phone_b])
               (birthday_of (Datetime.mk_date 1990 3 5)))
            [(lit "Bob", bob_a)])
         [],
       Return (bot.VStr msg)).
Proof.
  apply (add_contact_existing_name (lit "Bob") phone_b [lit "05-03-1990"]
           bob_a (bot.mk_world [(lit "Bob", bob_a)] []));
    reflexivity.
Defined.

(** X20: [add_contact] without a birthday on the name of a Record that is
    there, with a number that the Record does not have, erases the
    birthday of the Record, whether the number is accepted or not:
    afterwards the Record found under the name has no birthday. *)
Theorem add_contact_erases_birthday (name phone : pystr)
    (rec : ClientRecord.t) (w : bot.world) :
  AddressBook.find name (bot.contacts w) = Some rec ->
  ClientRecord.find_phone phone rec = None ->
  exists w' v rec',
    bot.add_contact [name; phone] w = (w', Return v)
    /\ AddressBook.find name (bot.contacts w') = Some rec'
    /\ Birthday.value (ClientRecord.birthday rec') = None
    /\ ClientRecord.name rec' = ClientRecord.name rec.
Proof.
  intros Hf Hp.
  pose proof (raw_add_contact_existing name phone [] rec _ Hf Hp) as Heq.
  change (Birthday.new (head [])) with (Return (Birthday.mk None None)) in Heq.
  cbv beta iota zeta in Heq. unfold bot.add_contact.
  destruct (valid_phone_text phone).
  - rewrite (input_error_Return _ _ _ _ Heq). do 3 eexists.
    split; [reflexivity|].
    cbn [bot.contacts]. unfold AddressBook.find. rewrite Dict_get_setitem.
    split; [reflexivity|]. split; reflexivity.
  - rewrite (input_error_ValueError _ _ _ Heq). do 3 eexists.
    split; [reflexivity|].
    cbn [bot.contacts bot.print]. unfold AddressBook.find.
    rewrite Dict_get_setitem.
    split; [reflexivity|]. split; reflexivity.
Qed.

Lemma add_contact_erases_birthday_witness :
  exists w' v rec',
    bot.add_contact [lit "Bob"; phone_a]
      (bot.mk_world [(lit "Bob", born_on march_15_1990)] [])
    = (w', Return v)
    /\ AddressBook.find (lit "Bob") (bot.contacts w') = Some rec'
    /\ Birthday.value (ClientRecord.birthday rec') = None
    /\ ClientRecord.name rec' = ClientRecord.name (born_on march_15_1990).
Proof.
  apply (add_contact_erases_birthday (lit "Bob") phone_a
           (born_on march_15_1990)
           (bot.mk_world [(lit "Bob", born_on march_15_1990)] []));
    reflexivity.
Defined.

(** X21: [add_contact] with the name of a Record that is there and a
    number that this Record has already: when the birthday, if one is
    given, is accepted, the command makes a second Record of that name
    and [add_record] raises [RecordAlreadyExistsException], which the
    wrapper of [input_error] does not catch: the exception leaves the
    command, nothing is printed and the book is as it was. *)
Theorem add_contact_stored_phone_raises (name phone : pystr)
    (rest : list pystr) (rec : ClientRecord.t) (p : Phone.t) (bd : Birthday.t)
    (w : bot.world) :
  AddressBook.find name (bot.contacts w) = Some rec ->
  ClientRecord.find_phone phone rec = Some p ->
  valid_phone_text phone = true ->
  Birthday.new (head rest) = Return bd ->
  bot.add_contact (name :: phone :: rest) w
  = (w, Raise RecordAlreadyExistsException).
Proof.
  intros Hf Hp Hv Hbd.
  pose proof (raw_add_contact_eq name phone rest (bot.contacts w)) as Heq.
  cbv zeta in Heq. rewrite Hf, Hp in Heq.
  unfold bind at 1, eval at 1, ClientRecord.new, Name.new, Name.value_setter
    in Heq.
  cbn [result_bind] in Heq. rewrite Hbd in Heq. cbn [result_bind] in Heq.
  unfold bind at 1, eval at 1, bot.after in Heq.
  pose proof (proj1 (add_phone_cases phone
              (ClientRecord.mk (Name.mk name name) [] bd)) Hv) as Ha.
  rewrite Ha in Heq. cbn [result_bind] in Heq.
  unfold bind at 1, AddressBook.add_record in Heq. cbv zeta in Heq.
  cbn [ClientRecord.set_phones ClientRecord.name Name.value Name._Name__value]
    in Heq.
  rewrite (proj2 (Dict_get_contains name (bot.contacts w)))
    in Heq by eauto.
  cbn [negb] in Heq.
  unfold bot.add_contact, bot.input_error. rewrite Heq, world_same.
  reflexivity.
Qed.

Lemma add_contact_stored_phone_raises_witness :
  bot.add_contact [lit "Bob"; phone_a] (bot.mk_world [(lit "Bob", bob_a)] [])
  = (bot.mk_world [(lit "Bob", bob_a)] [], Raise RecordAlreadyExistsException).
Proof.
  apply (add_contact_stored_phone_raises (lit "Bob") phone_a [] bob_a
           (Phone.mk phone_a phone_a) (Birthday.mk None None)
           (bot.mk_world [(lit "Bob", bob_a)] []));
    reflexivity.
Defined.

(** What the wrapper does to the book. *)
Lemma input_error_contacts func (w : bot.world) :
  bot.contacts (fst (bot.input_error func w)) = fst (func (bot.contacts w)).
Proof.
  unfold bot.input_error. destruct (func (bot.contacts w)) as [c [v|[]]];
    reflexivity.
Qed.

Lemma input_error_IndexError func (w : bot.world) c :
  func (bot.contacts w) = (c, Raise IndexError) ->
  bot.input_error func w
  = (bot.print (bot.Report bot.missing_parameters)
       (bot.mk_world c (bot.stdout w)), Return bot.VNone).
Proof. unfold bot.input_error. intros ->. reflexivity. Qed.

Lemma raw_change_phone_eq name old new rest (c : AddressBook.t) :
  bot.raw.change_phone (name :: old :: new :: rest) c =
  match AddressBook.find name c with
  | Some rec =>
      let (rec', r) := ClientRecord.edit_phone old new rec in
      (Dict.setitem name rec' c, (let? _ := r in Return bot.VNone)%py)
  | None => (c, Raise ValueError)
  end.
Proof.
  unfold bot.raw.change_phone, bot.arg. cbn [lookup list_lookup].
  unfold bind at 1, eval at 1. unfold bind at 1, eval at 1.
  unfold bind at 1, eval at 1. unfold bind at 1, get at 1.
  destruct (AddressBook.find name c) as [rec|]; [|reflexivity].
  unfold bot.with_record, bind, ret.
  destruct (ClientRecord.edit_phone old new rec) as [rec' [[]|e]]; reflexivity.
Qed.

(** X22: [change_phone] never returns a message: it returns [None] when
    it has changed the number as well as when it has printed that the
    values are incorrect. It changes the book exactly when a Record of
    the name is there, has a Phone of the old number and the new number
    is ten decimal digits: then the first such Phone of that Record gets
    the new number, in place. In every other case the book is as it
    was. Arguments after the third are not read. *)
Theorem change_phone_cases (name old new : pystr) (rest : list pystr)
    (w : bot.world) :
  (exists rec i p,
      AddressBook.find name (bot.contacts w) = Some rec
      /\ ClientRecord.get_phone_by_number old rec = (Some p, Some i)
      /\ valid_phone_text new = true
      /\ bot.change_phone (name :: old :: new :: rest) w
         = (bot.mk_world
              (Dict.setitem name
                 (ClientRecord.set_phones
                    (<[i := Phone.mk new (Phone._Field__value p)]>
                       (ClientRecord.phones rec)) rec)
                 (bot.contacts w))
              (bot.stdout w),
            Return bot.VNone))
  \/ ((AddressBook.find name (bot.contacts w) = None
       \/ exists rec,
            AddressBook.find name (bot.contacts w) = Some rec
            /\ (ClientRecord.find_phone old rec = None
                \/ valid_phone_text new = false))
      /\ bot.change_phone (name :: old :: new :: rest) w
         = (bot.print (bot.Report bot.incorrect_values) w, Return bot.VNone)).
Proof.
  pose proof (raw_change_phone_eq name old new rest (bot.contacts w)) as Heq.
  unfold bot.change_phone.
  destruct (AddressBook.find name (bot.contacts w)) as [rec|] eqn:Hf.
  - destruct (edit_phone_cases old new rec)
      as [[Hno He]|(i & p & Hg & _ & _ & _ & [[Hs He]|[Hs He]])];
      rewrite He in Heq; cbn [result_bind] in Heq.
    + right. split; [right; eauto|].
      rewrite (Dict_setitem_same _ _ _ Hf) in Heq.
      rewrite (input_error_ValueError _ _ _ Heq), world_same. reflexivity.
    + left. exists rec, i, p. repeat (split; [first [reflexivity|assumption]|]).
      split.
      * rewrite Phone_value_setter_eq in Hs. unfold valid_phone_text.
        destruct (_ && _); [reflexivity|discriminate].
      * apply input_error_Return, Heq.
    + right. split.
      * right. exists rec. split; [reflexivity|]. right.
        rewrite Phone_value_setter_eq in Hs. unfold valid_phone_text.
        destruct (_ && _); [discriminate|reflexivity].
      * rewrite (Dict_setitem_same _ _ _ Hf) in Heq.
        rewrite (input_error_ValueError _ _ _ Heq), world_same. reflexivity.
  - right. split; [left; reflexivity|].
    rewrite (input_error_ValueError _ _ _ Heq), world_same. reflexivity.
Qed.

(** X23: a command that is given fewer arguments than it reads, fewer
    than two for [add_contact], fewer than three for [change_phone], none
    for [find_contact_phone] and [show_days_to_birthday], prints that not
    all parameters have been passed, returns [None] and leaves the book
    as it was, whatever the arguments that are there. *)
Theorem missing_parameters_reported (args : list pystr)
    (today : Datetime.datetime) (w : bot.world) :
  let reported :=
    (bot.print (bot.Report bot.missing_parameters) w, Return bot.VNone) in
  ((length args < 2)%nat -> bot.add_contact args w = reported)
  /\ ((length args < 3)%nat -> bot.change_phone args w = reported)
  /\ ((length args < 1)%nat -> bot.find_contact_phone args w = reported)
  /\ ((length args < 1)%nat ->
      bot.show_days_to_birthday today args w = reported).
Proof.
  cbv zeta.
  assert (Hrep : forall func,
             func (bot.contacts w) = (bot.contacts w, Raise IndexError) ->
             bot.input_error func w
             = (bot.print (bot.Report bot.missing_parameters) w,
                Return bot.VNone)).
  { intros func H. rewrite (input_error_IndexError _ _ _ H), world_same.
    reflexivity. }
  repeat split; intros Hlen.
  - apply Hrep. destruct args as [|name [|phone rest]];
      [reflexivity|reflexivity|simpl in Hlen; lia].
  - apply Hrep. destruct args as [|name [|old [|new rest]]];
      [reflexivity|reflexivity|reflexivity|simpl in Hlen; lia].
  - apply Hrep. destruct args; [reflexivity|simpl in Hlen; lia].
  - apply Hrep. destruct args; [reflexivity|simpl in Hlen; lia].
Qed.

Lemma missing_parameters_reported_witness :
  bot.add_contact [lit "Bob"] (bot.mk_world [(lit "Bob", bob_a)] [])
  = (bot.mk_world [(lit "Bob", bob_a)]
                  [bot.Report bot.missing_parameters],
     Return bot.VNone).
Proof.
  apply (proj1 (missing_parameters_reported [lit "Bob"] (noon 2024 3 10)
                  (bot.mk_world [(lit "Bob", bob_a)] []))).
  simpl. lia.
Defined.

(** The commands [hello], [find_contact_phone], [show_all], [good_bye],
    [show_days_to_birthday] and [unknown] leave the book as it was,
    whatever their arguments and whether they return, print a report or
    raise. *)
Lemma read_only_contacts (args : list pystr) (today : Datetime.datetime)
    (w : bot.world) :
  bot.contacts (fst (bot.hello args w)) = bot.contacts w
  /\ bot.contacts (fst (bot.find_contact_phone args w)) = bot.contacts w
  /\ bot.contacts (fst (bot.show_all args w)) = bot.contacts w
  /\ bot.contacts (fst (bot.good_bye args w)) = bot.contacts w
  /\ bot.contacts (fst (bot.show_days_to_birthday today args w))
     = bot.contacts w
  /\ bot.contacts (fst (bot.unknown args w)) = bot.contacts w.
Proof.
  unfold bot.hello, bot.find_contact_phone, bot.show_all, bot.good_bye,
    bot.show_days_to_birthday, bot.unknown.
  rewrite !input_error_contacts. set (c := bot.contacts w). clearbody c.
  repeat split.
  - destruct args; reflexivity.
  - unfold bot.raw.find_contact_phone, bind, eval, get, ret, raise.
    destruct (bot.arg args 0) as [name|e]; [|reflexivity].
    destruct (AddressBook.find name c); reflexivity.
  - unfold bot.raw.show_all, bind, eval, get, ret.
    destruct args as [|a rest].
    + destruct (AddressBook.iterator None c); reflexivity.
    + destruct (int_of_str a) as [n|e]; [|reflexivity]. cbn [result_bind].
      destruct (AddressBook.iterator (Some n) c); reflexivity.
  - destruct args; reflexivity.
  - unfold bot.raw.show_days_to_birthday, bind, eval, get, ret, raise.
    destruct (bot.arg args 0) as [name|e]; [|reflexivity].
    destruct (AddressBook.find name c) as [record|]; [|reflexivity].
    destruct (ClientRecord.days_to_birthday today record); reflexivity.
  - destruct args; reflexivity.
Qed.

(** The three invariants of the book of the commands. *)
Lemma Dict_get_elem {V} key (v : V) (d : Dict.t V) :
  Dict.get key d = Some v -> (key, v) ∈ d.
Proof.
  unfold Dict.get. induction d as [|[k v'] d IH]; simpl; [discriminate|].
  destruct (bool_decide (k = key)) eqn:Hk; simpl.
  - apply bool_decide_eq_true in Hk. intros [= <-]. subst. apply list_elem_of_here.
  - intros H. apply list_elem_of_further, IH, H.
Qed.

Lemma setitem_keeps_invariants name (rec rec' : ClientRecord.t)
    (c : AddressBook.t) :
  AddressBook.find name c = Some rec ->
  ClientRecord.name rec' = ClientRecord.name rec ->
  phones_valid rec' ->
  keys_unique c /\ keyed_by_name c /\ book_phones_valid c ->
  keys_unique (Dict.setitem name rec' c)
  /\ keyed_by_name (Dict.setitem name rec' c)
  /\ book_phones_valid (Dict.setitem name rec' c).
Proof.
  intros Hf Hname Hvalid (Hu & Hk & Hp). unfold AddressBook.find in Hf.
  repeat split.
  - unfold keys_unique. rewrite Dict_keys_setitem; [exact Hu|].
    apply Dict_get_contains. eauto.
  - apply Forall_setitem; [exact Hk|]. cbn. rewrite Hname.
    unfold keyed_by_name in Hk. rewrite Forall_forall in Hk.
    apply (Hk (name, rec)), Dict_get_elem, Hf.
  - apply Forall_setitem; [exact Hp|]. exact Hvalid.
Qed.

Lemma append_keeps_invariants name (r : ClientRecord.t) (c : AddressBook.t) :
  Dict.contains name c = false ->
  Name.value (ClientRecord.name r) = name ->
  phones_valid r ->
  keys_unique c /\ keyed_by_name c /\ book_phones_valid c ->
  keys_unique (c ++ [(name, r)])
  /\ keyed_by_name (c ++ [(name, r)])
  /\ book_phones_valid (c ++ [(name, r)]).
Proof.
  intros Hc Hname Hvalid (Hu & Hk & Hp). repeat split.
  - unfold keys_unique, dict_keys in *. rewrite map_app. simpl.
    apply NoDup_app. split; [exact Hu|]. split; [|apply NoDup_singleton].
    intros x Hx [<-|[]]%list_elem_of_In. apply list_elem_of_In in Hx.
    apply Dict_contains_keys in Hx. congruence.
  - apply Forall_app. split; [exact Hk|]. apply Forall_singleton. exact Hname.
  - apply Forall_app. split; [exact Hp|]. apply Forall_singleton. exact Hvalid.
Qed.

(** The path of [add_contact] that makes a new Record, when a Record of
    the name is there: it changes nothing. *)
Lemma add_contact_new_record_fails name phone birthday (c : AddressBook.t) :
  Dict.contains name c = true ->
  fst ((let! rec := eval (ClientRecord.new name birthday) in
        let! rec := eval (bot.after (ClientRecord.add_phone phone) rec) in
        let! _ := AddressBook.add_record rec in
        ret (bot.VStr (lit "The contact with name '" ++ name ++ lit "', '"
                       ++ phone ++ lit "' and '" ++ str birthday
                       ++ lit "' has been successfully added")))%py c)
  = c.
Proof.
  intros Hc.
  unfold bind at 1, eval at 1, ClientRecord.new, Name.new, Name.value_setter.
  cbn [result_bind].
  destruct (Birthday.new birthday) as [bd|e]; cbn [result_bind];
    [|reflexivity].
  unfold bind at 1, eval at 1, bot.after.
  destruct (valid_phone_text phone) eqn:Hv.
  - rewrite (proj1 (add_phone_cases phone _) Hv). cbn [result_bind].
    unfold bind at 1, AddressBook.add_record. cbv zeta.
    cbn [ClientRecord.set_phones ClientRecord.name Name.value
         Name._Name__value].
    rewrite Hc. reflexivity.
  - rewrite (proj2 (add_phone_cases phone _) Hv). reflexivity.
Qed.

(** [add_contact] and [change_phone] keep the invariants of the book,
    whatever the arguments: no name twice among the keys, every Record
    under its own name, every stored Phone of ten decimal digits. *)
Lemma add_change_keep_invariants (args : list pystr) (w : bot.world) :
  keys_unique (bot.contacts w) ->
  keyed_by_name (bot.contacts w) ->
  book_phones_valid (bot.contacts w) ->
  (let c' := bot.contacts (fst (bot.add_contact args w)) in
   keys_unique c' /\ keyed_by_name c' /\ book_phones_valid c')
  /\ (let c' := bot.contacts (fst (bot.change_phone args w)) in
      keys_unique c' /\ keyed_by_name c' /\ book_phones_valid c').
Proof.
  intros Hu Hk Hp. cbv zeta. unfold bot.add_contact, bot.change_phone.
  rewrite !input_error_contacts. set (c := bot.contacts w) in *. clearbody c.
  assert (Hinv : keys_unique c /\ keyed_by_name c /\ book_phones_valid c)
    by auto.
  assert (Hrec : forall name rec, AddressBook.find name c = Some rec ->
                                  phones_valid rec).
  { intros name rec Hf. unfold book_phones_valid in Hp.
    rewrite Forall_forall in Hp.
    apply (Hp (name, rec)), Dict_get_elem, Hf. }
  split.
  - destruct args as [|name [|phone rest]]; [exact Hinv..|].
    pose proof (raw_add_contact_eq name phone rest c) as Heq. cbv zeta in Heq.
    destruct (AddressBook.find name c) as [rec|] eqn:Hf.
    + destruct (ClientRecord.find_phone phone rec) as [p|] eqn:Hph.
      * rewrite Heq, add_contact_new_record_fails; [exact Hinv|].
        apply Dict_get_contains. eauto.
      * clear Heq.
        rewrite (raw_add_contact_existing name phone rest rec c Hf Hph).
        destruct (Birthday.new (head rest)) as [bd|e]; [|exact Hinv].
        cbv zeta. destruct (valid_phone_text phone) eqn:Hv; cbn [fst];
          apply (setitem_keeps_invariants name rec); auto.
        -- unfold phones_valid. cbn. apply Forall_app.
           split; [exact (Hrec _ _ Hf)|]. apply Forall_singleton. exact Hv.
        -- exact (Hrec _ _ Hf).
    + assert (Hc : Dict.contains name c = false).
      { destruct (Dict.contains name c) eqn:Hc; [|reflexivity].
        apply Dict_get_contains in Hc as [v Hv]. unfold AddressBook.find in Hf.
        congruence. }
      rewrite Heq, (add_contact_new_record name phone (head rest) c Hc).
      destruct (Birthday.new (head rest)) as [bd|e]; [|exact Hinv].
      destruct (valid_phone_text phone) eqn:Hv; [|exact Hinv]. cbn [fst].
      apply append_keeps_invariants; auto.
      apply Forall_singleton. exact Hv.
  - destruct args as [|name [|old [|new rest]]]; [exact Hinv..|].
    rewrite raw_change_phone_eq.
    destruct (AddressBook.find name c) as [rec|] eqn:Hf; [|exact Hinv].
    pose proof (Hrec _ _ Hf) as Hr.
    destruct (edit_phone_cases old new rec)
      as [[_ ->]|(i & p & _ & _ & _ & _ & [[Hs ->]|[_ ->]])]; cbn [fst];
      apply (setitem_keeps_invariants name rec); auto.
    unfold phones_valid in *. cbn.
    apply Forall_insert; [exact Hr|]. cbn.
    rewrite Phone_value_setter_eq in Hs. unfold valid_phone_text.
    destruct (_ && _); [reflexivity|discriminate].
Qed.

(** The loops of [show_all]. *)
Lemma show_records_eq l s counter :
  bot.raw.show_records l s counter
  = (s ++ rows counter l, counter + Z.of_nat (length l)).
Proof.
  revert s counter. induction l as [|record l IH]; intros s counter.
  - cbn. rewrite app_nil_r. f_equal. lia.
  - cbn [bot.raw.show_records rows length]. rewrite IH, <- app_assoc.
    f_equal. lia.
Qed.

Lemma show_chunks_table (n : Z) chunks s k :
  (forall i ch, chunks !! i = Some ch -> (S i < length chunks)%nat ->
                Z.of_nat (length ch) = n) ->
  bot.raw.show_chunks chunks s (1 + k * n) = s ++ table n k chunks.
Proof.
  revert s k. induction chunks as [|chunk rest IH]; intros s k Hfull.
  - cbn. rewrite app_nil_r. reflexivity.
  - cbn [bot.raw.show_chunks table]. rewrite show_records_eq.
    destruct rest as [|next rest].
    + cbn. rewrite <- !app_assoc. reflexivity.
    + rewrite (Hfull 0%nat chunk eq_refl) by (simpl; lia).
      replace (1 + k * n + n) with (1 + (k + 1) * n) by lia.
      rewrite IH.
      * rewrite <- !app_assoc. reflexivity.
      * intros i ch Hl Hi. apply (Hfull (S i) ch Hl). simpl in *. lia.
Qed.

(** The chunks of a positive size [n]: they make up the values of the
    book, and every chunk but the last has [n] of them. *)
Lemma iterator_chunks_full (book : AddressBook.t) (n : Z) :
  1 <= n ->
  exists chunks,
    AddressBook.iterator (Some n) book = Return chunks
    /\ concat chunks = Dict.values book
    /\ forall i ch, chunks !! i = Some ch -> (S i < length chunks)%nat ->
                    Z.of_nat (length ch) = n.
Proof.
  intros Hn. eexists. split; [apply iterator_positive, Hn|].
  set (l := Dict.values book).
  destruct (chunk_count_bounds (Z.of_nat (length l)) n ltac:(lia) Hn)
    as (Hc0 & Hcover & Hlast & Hempty).
  set (cnt := chunk_count (Z.of_nat (length l)) n) in *. clearbody cnt l.
  assert (Hcn : Z.of_nat (Z.to_nat cnt * Z.to_nat n) = cnt * n)
    by (rewrite Nat2Z.inj_mul, !Z2Nat.id by lia; reflexivity).
  split; [apply concat_chunks; lia|].
  intros i ch Hl Hi. rewrite length_map, length_seq in Hi.
  rewrite list_lookup_fmap in Hl.
  rewrite lookup_seq_lt in Hl by lia. cbn in Hl. injection Hl as <-.
  rewrite length_take, length_drop.
  assert (Hin : Z.of_nat (i * Z.to_nat n) = Z.of_nat i * n)
    by (rewrite Nat2Z.inj_mul, Z2Nat.id by lia; reflexivity).
  assert (Hlen : 0 < Z.of_nat (length l)).
  { destruct (Z.eq_dec (Z.of_nat (length l)) 0) as [E|E]; [|lia].
    specialize (Hempty E). lia. }
  specialize (Hlast Hlen). nia.
Qed.

(** X24: [show_all] returns the table of all Records in the order in
    which they were added, numbered from 1 on across the chunks: with a
    chunk size [n >= 1] the rows of the chunk of index [k] are numbered
    from [1 + k * n] and a separator line follows every chunk; no
    argument and the argument 0 stand for chunks of one Record. With a
    negative number the command returns the two title lines alone,
    without any Record. With an argument that [int] does not read it
    prints that the values are incorrect and returns [None]. Arguments
    after the first are not read. *)
Theorem show_all_table (args : list pystr) (w : bot.world) :
  let record_num :=
    match args with
    | [] => Return None
    | a :: _ => (let? n := int_of_str a in Return (Some n))%py
    end in
  match record_num with
  | Raise _ =>
      bot.show_all args w
      = (bot.print (bot.Report bot.incorrect_values) w, Return bot.VNone)
  | Return record_num =>
      let n := match record_num with
               | None => 1
               | Some n => if n =? 0 then 1 else n
               end in
      if n <? 0
      then bot.show_all args w = (w, Return (bot.VStr bot.raw.header))
      else exists chunks,
          AddressBook.iterator (Some n) (bot.contacts w) = Return chunks
          /\ concat chunks = Dict.values (bot.contacts w)
          /\ bot.show_all args w
             = (w, Return (bot.VStr (bot.raw.header ++ table n 0 chunks)))
  end.
Proof.
  cbv zeta.
  assert (Hpos : forall record_num n,
    n = match record_num with
        | None => 1
        | Some n => if n =? 0 then 1 else n
        end ->
    1 <= n ->
    exists chunks,
      AddressBook.iterator (Some n) (bot.contacts w) = Return chunks
      /\ concat chunks = Dict.values (bot.contacts w)
      /\ (let! contacts := get in
          let! records := eval (AddressBook.iterator record_num contacts) in
          ret (bot.VStr (bot.raw.show_chunks records bot.raw.header 1)))%py
           (bot.contacts w)
         = (bot.contacts w,
            Return (bot.VStr (bot.raw.header ++ table n 0 chunks)))).
  { intros record_num n Hn H1.
    destruct (iterator_chunks_full (bot.contacts w) n H1)
      as (chunks & Hit & Hcat & Hfull).
    exists chunks. split; [exact Hit|]. split; [exact Hcat|].
    assert (Heq : AddressBook.iterator record_num (bot.contacts w)
                  = Return chunks).
    { rewrite <- Hit. subst n. destruct record_num as [m|]; [|reflexivity].
      unfold AddressBook.iterator. cbv zeta.
      destruct (m =? 0) eqn:Hm; [reflexivity|]. rewrite Hm. reflexivity. }
    unfold bind at 1, get at 1. unfold bind at 1, eval at 1. rewrite Heq.
    unfold ret. do 3 f_equal.
    apply (show_chunks_table n chunks bot.raw.header 0 Hfull). }
  unfold bot.show_all.
  destruct args as [|a rest].
  - change (1 <? 0) with false. cbv iota.
    destruct (Hpos None 1 eq_refl ltac:(lia)) as (chunks & Hit & Hcat & Hs).
    exists chunks. split; [exact Hit|]. split; [exact Hcat|].
    etransitivity; [apply input_error_Return; exact Hs|].
    rewrite world_same. reflexivity.
  - destruct (int_of_str a) as [m|e] eqn:Ha; cbn [result_bind].
    + destruct (Z.ltb_spec (if m =? 0 then 1 else m) 0) as [Hneg|Hnn].
      * assert (Hm : m < 0) by (destruct (Z.eqb_spec m 0); lia).
        rewrite <- (world_same w) at 2. apply input_error_Return.
        unfold bot.raw.show_all. rewrite Ha. cbn [result_bind].
        unfold bind at 1, eval at 1. unfold bind at 1, get at 1.
        unfold bind at 1, eval at 1.
        unfold AddressBook.iterator, py_range. cbv zeta.
        rewrite !(proj2 (Z.eqb_neq m 0)), (proj2 (Z.ltb_ge 0 m)) by lia.
        rewrite (proj2 (Z.ltb_ge _ 0)) by lia. reflexivity.
      * assert (H1 : 1 <= (if m =? 0 then 1 else m))
          by (destruct (Z.eqb_spec m 0); lia).
        destruct (Hpos (Some m) _ eq_refl H1) as (chunks & Hit & Hcat & Hs).
        exists chunks. split; [exact Hit|]. split; [exact Hcat|].
        rewrite <- (world_same w) at 2. apply input_error_Return.
        unfold bot.raw.show_all. rewrite Ha. cbn [result_bind].
        unfold bind at 1, eval at 1. exact Hs.
    + assert (He : e = ValueError).
      { unfold int_of_str in Ha. cbv zeta in Ha.
        repeat match type of Ha with
               | context [match ?x with _ => _ end] => destruct x
               end; congruence. }
      subst e. rewrite <- (world_same w) at 2. apply input_error_ValueError.
      unfold bot.raw.show_all. rewrite Ha. reflexivity.
Qed.

(** The widths of the table. *)
Lemma ljust_length w s : length (ljust w s) = Nat.max w (length s).
Proof. unfold ljust. rewrite length_app, length_replicate. lia. Qed.

Lemma join_phones_length (ps : list Phone.t) :
  Forall (fun p => valid_phone_text (Phone.value p) = true) ps ->
  (length (join (lit ",") (map Phone.value ps)) + 1 = 11 * length ps
   \/ ps = [])%nat.
Proof.
  induction 1 as [|p ps Hp Hps IH]; [right; reflexivity|left].
  assert (Hlen : length (Phone.value p) = 10%nat).
  { unfold valid_phone_text in Hp. apply andb_prop in Hp as [Hp _].
    apply Nat.eqb_eq, Hp. }
  destruct IH as [IH| ->]; [|cbn; lia].
  destruct ps as [|q ps]; [cbn; lia|].
  change (map Phone.value (p :: q :: ps))
    with (Phone.value p :: Phone.value q :: map Phone.value ps).
  change (join (lit ",") (Phone.value p :: Phone.value q :: map Phone.value ps))
    with (Phone.value p ++ lit ","
          ++ join (lit ",") (map Phone.value (q :: ps))).
  rewrite !length_app, Hlen. cbn [length lit] in *.
  change (length (lit ",")) with 1%nat. lia.
Qed.

(** X25: a row of the table of [show_all], the new line included, is 69
    characters long for a Record with a name of at most 20 characters and
    at most two phones, and [38 + 11 * k] long with [k >= 3] phones, as
    long as the number of the row has at most ten characters; the two
    title lines together are 390 long: the line of the column titles,
    which pads its third column to 300 and not to 30, is 339 long. *)
Theorem row_width (counter : Z) (record : ClientRecord.t) :
  (length (str_int counter) <= 10)%nat ->
  (length (Name.value (ClientRecord.name record)) <= 20)%nat ->
  phones_valid record ->
  length (bot.raw.row counter record)
  = (if (length (ClientRecord.phones record) <=? 2)%nat then 69
     else 38 + 11 * length (ClientRecord.phones record))%nat
  /\ length bot.raw.header = (50 + 1 + 339)%nat.
Proof.
  intros Hc Hn Hp. split; [|reflexivity].
  unfold bot.raw.row. cbv zeta. rewrite !length_app, !ljust_length.
  change (length (lit " | ")) with 3%nat.
  change (length (lit " |")) with 2%nat. cbn [length].
  destruct (join_phones_length _ Hp) as [Hj|Hj].
  - destruct (Nat.leb_spec (length (ClientRecord.phones record)) 2); lia.
  - rewrite Hj. cbn. lia.
Qed.

Lemma row_width_witness :
  length (bot.raw.row 1 bob_a) = 69%nat
  /\ length bot.raw.header = (50 + 1 + 339)%nat.
Proof.
  apply (row_width 1 bob_a).
  - vm_compute. lia.
  - vm_compute. lia.
  - apply Forall_singleton. reflexivity.
Defined.

(** X26: [show_days_to_birthday] answers with the number of
    [days_to_birthday] when a Record of the name is there, has a birthday
    and the birth (day, month) is a date of the target year. In every
    other case, no such Record, no birthday, or a birth (day, month) that
    is no date of the target year, as 29 February is in a year that is no
    leap year, it prints that the values are incorrect and returns
    [None]. Arguments after the first are not read. *)
Theorem show_days_to_birthday_cases (today : Datetime.datetime)
    (name : pystr) (rest : list pystr) (w : bot.world) :
  valid_time today = true ->
  let reported :=
    (bot.print (bot.Report bot.incorrect_values) w, Return bot.VNone) in
  match AddressBook.find name (bot.contacts w) with
  | Some record =>
      match Birthday.value (ClientRecord.birthday record) with
      | Some birth =>
          let y := next_birthday_year (Datetime.date_ today) birth in
          if Datetime._check_date_fields y (Datetime.month birth)
                                         (Datetime.day birth)
          then bot.show_days_to_birthday today (name :: rest) w
               = (w, Return (bot.VStr
                    (lit "Days to the next birthday for the contact '"
                     ++ Name.value (ClientRecord.name record) ++ lit "' is "
                     ++ str_int
                          (Datetime._ymd2ord y (Datetime.month birth)
                                             (Datetime.day birth)
                           - Datetime.toordinal (Datetime.date_ today)
                           - (if is_midnight today then 0 else 1))
                     ++ lit " days")))
          else bot.show_days_to_birthday today (name :: rest) w = reported
      | None => bot.show_days_to_birthday today (name :: rest) w = reported
      end
  | None => bot.show_days_to_birthday today (name :: rest) w = reported
  end.
Proof.
  intros Hv. cbv zeta.
  assert (Hrep : forall func,
             func (bot.contacts w) = (bot.contacts w, Raise ValueError) ->
             bot.input_error func w
             = (bot.print (bot.Report bot.incorrect_values) w,
                Return bot.VNone)).
  { intros func H. rewrite (input_error_ValueError _ _ _ H), world_same.
    reflexivity. }
  unfold bot.show_days_to_birthday.
  assert (Heq : bot.raw.show_days_to_birthday today (name :: rest)
                  (bot.contacts w)
                = match AddressBook.find name (bot.contacts w) with
                  | Some record =>
                      (bot.contacts w,
                       (let? n := ClientRecord.days_to_birthday today record in
                        Return (bot.VStr
                          (lit "Days to the next birthday for the contact '"
                           ++ Name.value (ClientRecord.name record)
                           ++ lit "' is " ++ str_int n ++ lit " days")))%py)
                  | None => (bot.contacts w, Raise ValueError)
                  end).
  { unfold bot.raw.show_days_to_birthday, bot.arg. cbn [lookup list_lookup].
    unfold bind at 1, eval at 1. unfold bind at 1, get at 1.
    destruct (AddressBook.find name (bot.contacts w)) as [record|];
      [|reflexivity].
    unfold bind, eval, ret.
    destruct (ClientRecord.days_to_birthday today record); reflexivity. }
  destruct (AddressBook.find name (bot.contacts w)) as [record|];
    [|apply Hrep, Heq].
  destruct (Birthday.value (ClientRecord.birthday record)) as [birth|] eqn:Hb.
  - rewrite (days_to_birthday_eq record today birth Hb Hv) in Heq.
    cbv zeta in Heq.
    destruct (Datetime._check_date_fields _ _ _); [|apply Hrep, Heq].
    etransitivity; [apply input_error_Return; exact Heq|].
    rewrite world_same. reflexivity.
  - apply Hrep. rewrite Heq. unfold ClientRecord.days_to_birthday.
    rewrite Hb. reflexivity.
Qed.

Lemma show_days_to_birthday_cases_witness :
  bot.show_days_to_birthday (noon 2024 3 10) [lit "Bob"]
    (bot.mk_world [(lit "Bob", born_on march_15_1990)] [])
  = (bot.mk_world [(lit "Bob", born_on march_15_1990)] [],
     Return (bot.VStr
       (lit "Days to the next birthday for the contact 'Bob' is 4 days"))).
Proof.
  apply (show_days_to_birthday_cases (noon 2024 3 10) (lit "Bob") []
           (bot.mk_world [(lit "Bob", born_on march_15_1990)] [])).
  reflexivity.
Defined.

(** ** The command line *)

(** [lower] on ASCII characters, and on the others. *)
Lemma to_lower_ascii (c : codepoint) :
  (c < 128)%N -> to_lower c = ascii_lower c.
Proof.
  intros Hc.
  assert (Hall : forallb (fun c => (to_lower c =? ascii_lower c)%N)
                         (map N.of_nat (seq 0 128)) = true)
    by (vm_compute; reflexivity).
  rewrite forallb_forall in Hall. apply N.eqb_eq, Hall.
  apply in_map_iff. exists (N.to_nat c). split; [lia|].
  apply in_seq. lia.
Qed.

Lemma to_lower_not_ascii (c : codepoint) :
  (128 <= c)%N -> c <> 0x212A%N -> (128 <= to_lower c)%N.
Proof.
  intros Hc Hk. unfold to_lower.
  destruct (List.find (in_run c) lower_runs) as [[[[first last] step] image]|]
    eqn:Hf; [|exact Hc].
  apply find_some in Hf as [Hin Hrun].
  assert (Hall : forallb (fun r : N * N * N * N =>
                    let '(first, last, _, image) := r in
                    (last <? 128) || ((128 <=? first) && (128 <=? image))
                    || ((first =? 0x212A) && (last =? 0x212A)))%N
                   lower_runs = true)
    by (vm_compute; reflexivity).
  rewrite forallb_forall in Hall. specialize (Hall _ Hin). cbn in Hall.
  unfold in_run in Hrun.
  apply andb_prop in Hrun as [Hrun _]. apply andb_prop in Hrun as [H1 H2].
  apply N.leb_le in H1, H2.
  apply orb_prop in Hall as [Hall|Hall];
    [apply orb_prop in Hall as [Hall|Hall]|].
  - apply N.ltb_lt in Hall. lia.
  - apply andb_prop in Hall as [_ Hall]. apply N.leb_le in Hall. lia.
  - apply andb_prop in Hall as [Ha Hb]. apply N.eqb_eq in Ha, Hb. lia.
Qed.

Lemma startswith_nil (s : pystr) : startswith s [] = true.
Proof. destruct s; reflexivity. Qed.

(** Whether the lower-case text starts with a plain name is settled by
    the ASCII letters alone. *)
Lemma startswith_lower_from (name before s : pystr) :
  plain name = true ->
  startswith (lower_from before s) name = startswith (map ascii_lower s) name.
Proof.
  revert before s. induction name as [|p name' IH]; intros before s Hp;
    [rewrite !startswith_nil; reflexivity|].
  cbn [plain] in Hp. apply andb_prop in Hp as [Hp Hrest].
  apply andb_prop in Hp as [Hp Hi]. apply andb_prop in Hp as [Hascii Hk].
  apply N.ltb_lt in Hascii. apply negb_true_iff, N.eqb_neq in Hk.
  destruct s as [|c s']; [reflexivity|].
  cbn [lower_from map].
  destruct (N.eqb_spec c 0x3A3) as [->|Hsigma].
  - cbn [app startswith].
    replace (handle_capital_sigma before s' =? p)%N with false.
    + replace (ascii_lower 931 =? p)%N with false; [reflexivity|].
      symmetry. apply N.eqb_neq. change (ascii_lower 931%N) with 931%N. lia.
    + symmetry. apply N.eqb_neq. unfold handle_capital_sigma.
      destruct (_ && _); lia.
  - unfold to_lower_full. destruct (N.eqb_spec c 0x130) as [->|Hdot].
    + cbn [app startswith]. change (ascii_lower 304%N) with 304%N.
      replace (304 =? p)%N with false by (symmetry; apply N.eqb_neq; lia).
      cbn [andb]. destruct (N.eqb_spec 0x69 p) as [<-|]; [|reflexivity].
      cbn [andb]. destruct name' as [|q name'']; [discriminate Hi|].
      cbn [startswith]. cbn [plain] in Hrest.
      apply andb_prop in Hrest as [Hq _]. apply andb_prop in Hq as [Hq _].
      apply andb_prop in Hq as [Hq _]. apply N.ltb_lt in Hq.
      replace (775 =? q)%N with false by (symmetry; apply N.eqb_neq; lia).
      reflexivity.
    + cbn [app startswith]. rewrite (IH _ _ Hrest). f_equal.
      destruct (N.ltb_spec c 128) as [Hc|Hc].
      * rewrite to_lower_ascii by exact Hc. reflexivity.
      * assert (Ha : ascii_lower c = c).
        { unfold ascii_lower. destruct (N.leb_spec c 0x5A); [lia|].
          rewrite andb_false_r. reflexivity. }
        rewrite Ha.
        replace (c =? p)%N with false by (symmetry; apply N.eqb_neq; lia).
        apply N.eqb_neq. destruct (N.eq_dec c 0x212A%N) as [->|Hkel].
        -- change (to_lower 8490%N) with 0x6B%N. lia.
        -- pose proof (to_lower_not_ascii c Hc Hkel). lia.
Qed.

Lemma startswith_lower (name s : pystr) :
  plain name = true -> startswith (lower s) name = names s name.
Proof. apply startswith_lower_from. Qed.

(** The words that [split] gives. *)
Lemma split_from_words (word s : pystr) :
  Forall (fun c => is_space c = false) word ->
  Forall is_word (split_from word s).
Proof.
  revert word. induction s as [|c s IH]; intros word Hw.
  - cbn. destruct word as [|d word]; [apply Forall_nil_2|].
    apply Forall_singleton. split.
    + intros H. apply (f_equal (@length _)) in H.
      rewrite length_rev in H. discriminate.
    + apply Forall_rev, Hw.
  - cbn [split_from]. destruct (is_space c) eqn:Hc.
    + destruct word as [|d word]; [apply IH, Forall_nil_2|].
      apply Forall_cons. split; [|apply IH, Forall_nil_2]. split.
      * intros H. apply (f_equal (@length _)) in H.
        rewrite length_rev in H. discriminate.
      * apply Forall_rev, Hw.
    + apply IH, Forall_cons. split; [exact Hc|exact Hw].
Qed.

(** No name of a command starts with the name of another. *)
Lemma startswith_two (s a b : pystr) :
  startswith s a = true -> startswith s b = true ->
  startswith a b = true \/ startswith b a = true.
Proof.
  revert a b. induction s as [|c s IH]; intros [|p a] [|q b]; cbn;
    try discriminate; auto.
  intros [Hp Ha]%andb_prop [Hq Hb]%andb_prop.
  apply N.eqb_eq in Hp, Hq. subst p q. rewrite N.eqb_refl. cbn.
  apply IH; assumption.
Qed.

Lemma COMMANDS_In (name : pystr) (f : bot.func) :
  (name, f) ∈ bot.COMMANDS ->
  (name, f) = (lit "hello", bot.Hello)
  \/ (name, f) = (lit "add", bot.AddContact)
  \/ (name, f) = (lit "change", bot.ChangePhone)
  \/ (name, f) = (lit "phone", bot.FindContactPhone)
  \/ (name, f) = (lit "show all", bot.ShowAll)
  \/ (name, f) = (lit "good bye", bot.GoodBye)
  \/ (name, f) = (lit "close", bot.GoodBye)
  \/ (name, f) = (lit "exit", bot.GoodBye)
  \/ (name, f) = (lit "show days to birthday", bot.ShowDaysToBirthday).
Proof.
  intros H. apply list_elem_of_In in H. cbn in H.
  repeat (destruct H as [H|H]; [symmetry in H; tauto|]). destruct H.
Qed.

Lemma COMMANDS_one_name (s n1 n2 : pystr) (f1 f2 : bot.func) :
  (n1, f1) ∈ bot.COMMANDS -> (n2, f2) ∈ bot.COMMANDS ->
  startswith s n1 = true -> startswith s n2 = true ->
  (n1, f1) = (n2, f2).
Proof.
  intros H1 H2 Hs1 Hs2.
  destruct (startswith_two s n1 n2 Hs1 Hs2) as [H|H];
    apply COMMANDS_In in H1, H2;
    repeat (destruct H1 as [H1|H1]); injection H1 as -> ->;
    repeat (destruct H2 as [H2|H2]); injection H2 as -> ->;
    first [reflexivity|discriminate H].
Qed.

(** The loop of [parse_cli_command] takes the first name that the text
    starts with. *)
Lemma parse_loop_find (cli_input : pystr) (items : list (pystr * bot.func)) :
  Forall (fun item => plain (fst item) = true) items ->
  bot.parse_loop cli_input items
  = match List.find (fun item => names cli_input (fst item)) items with
    | Some (name, f) => (name, f, words_after name cli_input)
    | None => (lit "unknown", bot.Unknown, [])
    end.
Proof.
  induction 1 as [|[name f] items Hp _ IH]; [reflexivity|].
  cbn [bot.parse_loop List.find fst].
  rewrite (startswith_lower name cli_input Hp).
  destruct (names cli_input name); [reflexivity|exact IH].
Qed.

Lemma COMMANDS_plain :
  Forall (fun item : pystr * bot.func => plain (fst item) = true) bot.COMMANDS.
Proof. repeat constructor. Qed.

(** What [parse_cli_command] returns. *)
Lemma parse_inversion (cli_input : pystr) :
  (cli_input = lit "."
   /\ bot.parse_cli_command cli_input = (lit "good_bye", bot.GoodBye, []))
  \/ (cli_input <> lit "."
      /\ exists name f,
           (name, f) ∈ bot.COMMANDS /\ names cli_input name = true
           /\ bot.parse_cli_command cli_input
              = (name, f, words_after name cli_input))
  \/ (cli_input <> lit "."
      /\ (forall name f, (name, f) ∈ bot.COMMANDS ->
                         names cli_input name = false)
      /\ bot.parse_cli_command cli_input = (lit "unknown", bot.Unknown, [])).
Proof.
  unfold bot.parse_cli_command.
  destruct (bool_decide (cli_input = lit ".")) eqn:Hdot.
  - left. apply bool_decide_eq_true in Hdot. split; [exact Hdot|reflexivity].
  - right. apply bool_decide_eq_false in Hdot.
    rewrite (parse_loop_find _ _ COMMANDS_plain).
    destruct (List.find _ bot.COMMANDS) as [[name f]|] eqn:Hf.
    + left. split; [exact Hdot|]. apply find_some in Hf as [Hin Hn].
      exists name, f. split; [apply list_elem_of_In, Hin|].
      split; [exact Hn|reflexivity].
    + right. split; [exact Hdot|]. split; [|reflexivity].
      intros name f Hin. apply list_elem_of_In in Hin.
      pose proof (find_none _ _ Hf _ Hin) as Hn. exact Hn.
Qed.

Lemma parse_named (cli_input name : pystr) (f : bot.func) :
  cli_input <> lit "." ->
  (name, f) ∈ bot.COMMANDS -> names cli_input name = true ->
  bot.parse_cli_command cli_input = (name, f, words_after name cli_input).
Proof.
  intros Hdot Hin Hn.
  destruct (parse_inversion cli_input)
    as [[H _]|[(_ & name' & f' & Hin' & Hn' & Heq)|(_ & Hno & _)]].
  - contradiction.
  - rewrite Heq.
    pose proof (COMMANDS_one_name _ _ _ _ _ Hin Hin' Hn Hn') as [= -> ->].
    reflexivity.
  - rewrite (Hno _ _ Hin) in Hn. discriminate.
Qed.

Lemma parse_words (cli_input : pystr) :
  Forall is_word (snd (bot.parse_cli_command cli_input)).
Proof.
  destruct (parse_inversion cli_input)
    as [[_ ->]|[(_ & name & f & _ & _ & ->)|(_ & _ & ->)]];
    cbn [snd]; try apply Forall_nil_2.
  apply split_from_words, Forall_nil_2.
Qed.

(** X27: [parse_cli_command] of a lone full stop returns the name
    "good_bye", which is no name of [COMMANDS], with the function of
    "good bye". For any other text it returns the one name of [COMMANDS]
    that the text starts with, its function and the words after as many
    characters as the name has: capital ASCII letters count as small
    ones, no other character counts as a letter of a name, nothing needs
    to separate the name from what follows it, and no text starts with
    two names, so that the order of [COMMANDS] does not matter. A text
    that starts with no name gives "unknown", its function and no
    argument. Every argument is a word: it is not empty and holds no
    white space. *)
Theorem parse_cli_command_cases (cli_input : pystr) :
  (cli_input = lit "." ->
   bot.parse_cli_command cli_input = (lit "good_bye", bot.GoodBye, [])
   /\ Dict.contains (lit "good_bye") bot.COMMANDS = false)
  /\ (cli_input <> lit "." ->
      (forall name f,
          (name, f) ∈ bot.COMMANDS -> names cli_input name = true ->
          bot.parse_cli_command cli_input
          = (name, f, words_after name cli_input))
      /\ ((forall name f, (name, f) ∈ bot.COMMANDS ->
                          names cli_input name = false) ->
          bot.parse_cli_command cli_input = (lit "unknown", bot.Unknown, [])))
  /\ Forall is_word (snd (bot.parse_cli_command cli_input)).
Proof.
  split; [|split].
  - intros ->. split; reflexivity.
  - intros Hdot. split.
    + intros name f. apply parse_named, Hdot.
    + intros Hno.
      destruct (parse_inversion cli_input)
        as [[H _]|[(_ & name & f & Hin & Hn & _)|(_ & _ & Heq)]].
      * contradiction.
      * rewrite (Hno _ _ Hin) in Hn. discriminate.
      * exact Heq.
  - apply parse_words.
Qed.

Lemma parse_cli_command_cases_witness :
  bot.parse_cli_command (lit "ADDress 12")
  = (lit "add", bot.AddContact, [lit "ress"; lit "12"]).
Proof.
  apply (proj1 (proj1 (proj2 (parse_cli_command_cases (lit "ADDress 12")))
                  ltac:(discriminate))
           (lit "add") bot.AddContact).
  - apply list_elem_of_further, list_elem_of_here.
  - reflexivity.
Defined.

(** ** The loop of [main] *)

Lemma main_cons today cli_input rest (w : bot.world) name f args :
  bot.parse_cli_command cli_input = (name, f, args) ->
  bot.main ((today, cli_input) :: rest) w
  = match bot.call f today args (bot.print bot.Prompt w) with
    | (w', Return v) =>
        if bool_decide (name ∈ stop_names)
        then (bot.print (bot.Printed v) w', bot.Stopped)
        else bot.main rest (bot.print (bot.Printed v) w')
    | (w', Raise e) => (w', bot.Escaped e)
    end.
Proof. intros H. cbn [bot.main]. rewrite H. reflexivity. Qed.

(** The calls of the functions without parameters. *)
Lemma no_parameter_calls (args : list pystr) (w : bot.world) :
  match args with
  | [] =>
      bot.hello args w = (w, Return (bot.VStr (lit "How can I help you?")))
      /\ bot.good_bye args w = (w, Return (bot.VStr (lit "Good bye!")))
      /\ bot.unknown args w
         = (w, Return (bot.VStr (lit "Unknown command. Try again.")))
  | _ :: _ =>
      bot.hello args w = (w, Raise TypeError)
      /\ bot.good_bye args w = (w, Raise TypeError)
      /\ bot.unknown args w = (w, Raise TypeError)
  end.
Proof.
  unfold bot.hello, bot.good_bye, bot.unknown, bot.input_error.
  destruct args; cbn; rewrite world_same; auto.
Qed.









Lemma stop_names_COMMANDS (name : pystr) :
  name ∈ stop_names -> (name, bot.GoodBye) ∈ bot.COMMANDS.
Proof.
  intros H. apply list_elem_of_In in H. cbn in H.
  destruct H as [<-|[<-|[<-|[]]]]; apply list_elem_of_In; cbn; tauto.
Qed.


(** A full stop starts with no name. *)
Lemma named_not_dot (cli_input name : pystr) (f : bot.func) :
  (name, f) ∈ bot.COMMANDS -> names cli_input name = true ->
  cli_input <> lit ".".
Proof.
  intros Hin Hn ->. apply COMMANDS_In in Hin.
  repeat (destruct Hin as [Hin|Hin]); injection Hin as -> ->; discriminate Hn.
Qed.

Lemma not_stop_name (name : pystr) :
  name ∉ stop_names -> bool_decide (name ∈ stop_names) = false.
Proof. apply bool_decide_eq_false_2. Qed.

Ltac not_a_stop_name :=
  let H := fresh in
  intros H; apply list_elem_of_In in H; cbn in H;
  repeat (destruct H as [H|H]; [discriminate H|]); destruct H.

Lemma main_dot today rest (w : bot.world) :
  bot.main ((today, lit ".") :: rest) w
  = bot.main rest (bot.print (bot.Printed (bot.VStr (lit "Good bye!")))
                             (bot.print bot.Prompt w)).
Proof.
  rewrite (main_cons today (lit ".") rest w (lit "good_bye") bot.GoodBye [])
    by reflexivity.
  cbn [bot.call].
  destruct (no_parameter_calls [] (bot.print bot.Prompt w)) as (_ & -> & _).
  rewrite not_stop_name by not_a_stop_name. reflexivity.
Qed.

Lemma main_stop today cli_input rest (w : bot.world) name :
  name ∈ stop_names -> names cli_input name = true ->
  words_after name cli_input = [] ->
  bot.main ((today, cli_input) :: rest) w
  = (bot.print (bot.Printed (bot.VStr (lit "Good bye!")))
               (bot.print bot.Prompt w), bot.Stopped).
Proof.
  intros Hin Hn Hw. pose proof (stop_names_COMMANDS _ Hin) as Hc.
  rewrite (main_cons today cli_input rest w name bot.GoodBye [])
    by (rewrite <- Hw; apply parse_named;
        [eapply named_not_dot; eassumption|assumption..]).
  cbn [bot.call].
  destruct (no_parameter_calls [] (bot.print bot.Prompt w)) as (_ & -> & _).
  rewrite bool_decide_eq_true_2 by exact Hin. reflexivity.
Qed.

(** X28: [main] leaves its loop by [break] at a line exactly when the
    line starts with "good bye", "close" or "exit", in small or capital
    ASCII letters, and nothing but white space follows the name; it has
    then printed "Good bye!". A lone full stop prints "Good bye!" as well
    but does not end the loop, which goes on with the next line. *)
Theorem main_leaves_loop (today : Datetime.datetime) (cli_input : pystr)
    (rest : list (Datetime.datetime * pystr)) (w : bot.world) :
  (snd (bot.main [(today, cli_input)] w) = bot.Stopped
   <-> exists name, name ∈ stop_names /\ names cli_input name = true
                    /\ words_after name cli_input = [])
  /\ (forall name,
         name ∈ stop_names -> names cli_input name = true ->
         words_after name cli_input = [] ->
         bot.main ((today, cli_input) :: rest) w
         = (bot.print (bot.Printed (bot.VStr (lit "Good bye!")))
                      (bot.print bot.Prompt w), bot.Stopped))
  /\ bot.main ((today, lit ".") :: rest) w
     = bot.main rest (bot.print (bot.Printed (bot.VStr (lit "Good bye!")))
                                (bot.print bot.Prompt w)).
Proof.
  split; [|split; [intros name; apply main_stop|apply main_dot]].
  split; [|intros (name & Hin & Hn & Hw);
           rewrite (main_stop today cli_input [] w name Hin Hn Hw);
           reflexivity].
  destruct (parse_inversion cli_input)
    as [[-> _]|[(_ & name & f & Hin & Hn & Heq)|(_ & _ & Heq)]].
  - rewrite main_dot. discriminate.
  - rewrite (main_cons _ _ _ _ _ _ _ Heq).
    set (w1 := bot.print bot.Prompt w).
    pose proof (no_parameter_calls (words_after name cli_input) w1) as Hcall.
    apply COMMANDS_In in Hin.
    destruct Hin as [Hin|[Hin|[Hin|[Hin|[Hin|[Hin|[Hin|[Hin|Hin]]]]]]]];
      injection Hin as -> ->;
      try (rewrite not_stop_name by not_a_stop_name;
           destruct (bot.call _ _ _ _) as [w' [v|e]]; discriminate);
      cbn [bot.call];
      (destruct (words_after _ cli_input) eqn:Hw;
       [intros _; eexists; split; [|split; [exact Hn|exact Hw]];
        apply list_elem_of_In; cbn; tauto
       |destruct Hcall as (_ & -> & _); discriminate]).
  - rewrite (main_cons _ _ _ _ _ _ _ Heq). cbn [bot.call].
    destruct (no_parameter_calls [] (bot.print bot.Prompt w)) as (_ & _ & ->).
    rewrite not_stop_name by not_a_stop_name. discriminate.
Qed.

Lemma main_leaves_loop_witness :
  bot.main [(noon 2024 3 10, lit "EXIT "); (noon 2024 3 10, lit "hello")]
           (bot.mk_world [] [])
  = (bot.mk_world []
       [bot.Prompt; bot.Printed (bot.VStr (lit "Good bye!"))],
     bot.Stopped).
Proof.
  apply (proj1 (proj2 (main_leaves_loop (noon 2024 3 10) (lit "EXIT ")
                         [(noon 2024 3 10, lit "hello")]
                         (bot.mk_world [] [])))
           (lit "exit")).
  - apply list_elem_of_further, list_elem_of_further, list_elem_of_here.
  - reflexivity.
  - reflexivity.
Defined.



(** A call of any function of [COMMANDS] keeps the invariants. *)
Lemma call_keeps_book_ok f today (args : list pystr) (w : bot.world) :
  book_ok (bot.contacts w) ->
  book_ok (bot.contacts (fst (bot.call f today args w))).
Proof.
  intros Hok.
  destruct (read_only_contacts args today w) as (H1 & H2 & H3 & H4 & H5 & H6).
  destruct Hok as (Hu & Hk & Hp).
  destruct (add_change_keep_invariants args w Hu Hk Hp) as [Ha Hc].
  destruct f; cbn [bot.call];
    rewrite ?H1, ?H2, ?H3, ?H4, ?H5, ?H6; unfold book_ok; auto.
Qed.

(** X30: whatever is typed, [main] keeps the invariants of the book: at
    the end, however the loop ends, no name is twice among the keys,
    every Record is stored under its own name and every stored Phone
    holds ten decimal digits, when this was so at the start, as it is for
    the empty book. *)
Theorem main_keeps_invariants (typed : list (Datetime.datetime * pystr))
    (w : bot.world) :
  book_ok (bot.contacts w) ->
  book_ok (bot.contacts (fst (bot.main typed w))).
Proof.
  revert w. induction typed as [|[today cli_input] rest IH]; intros w Hok;
    [exact Hok|].
  destruct (bot.parse_cli_command cli_input) as [[name f] args] eqn:Hparse.
  rewrite (main_cons _ _ _ _ _ _ _ Hparse).
  pose proof (call_keeps_book_ok f today args (bot.print bot.Prompt w) Hok)
    as Hcall.
  destruct (bot.call f today args _) as [w' [v|e]]; cbn [fst] in *;
    [|exact Hcall].
  destruct (bool_decide _); [exact Hcall|]. apply IH. exact Hcall.
Qed.

Lemma main_keeps_invariants_witness :
  book_ok (bot.contacts
    (fst (bot.main [(noon 2024 3 10, lit "add Bob 0123456789");
                    (noon 2024 3 10, lit "change Bob 0123456789 1111111111")]
                   (bot.mk_world [] [])))).
Proof.
  apply (main_keeps_invariants
           [(noon 2024 3 10, lit "add Bob 0123456789");
            (noon 2024 3 10, lit "change Bob 0123456789 1111111111")]
           (bot.mk_world [] [])).
  repeat split; constructor.
Defined.
